(** * sez_to_ecef.py: SEZ to ECEF conversion

    A shallow embedding of the script [sez_to_ecef.py].  The script is
    written once, over an interface [Arith] of the float operations it
    uses.  The interface is instantiated by [float_arith]: IEEE binary64
    ([PrimFloat]), with CPython's wrappers around the platform math
    library (the error behaviour of [/], [**], [math.sqrt], [math.sin],
    [math.cos]); the library's [sin], [cos] and [pow] are parameters
    ([Libm]), constrained by [LibmFacts] and [LibmBounds] where a
    statement needs it.

    The command line ([main]) is stated for every [Runtime]: an
    arithmetic together with the builtin [float()].  Real numbers appear
    only as the values of floats ([B2R]), to measure how far a computed
    float is from a number. *)

From Stdlib Require Import ZArith List String Ascii Bool Lia.
From Stdlib Require Import Floats.
From Stdlib Require Import Reals Lra.
Import ListNotations.

Set Implicit Arguments.

(** ** Exceptions and results *)

(** The exceptions the operations of the script can raise. *)
Inductive pyexc : Set :=
| ValueError
| ZeroDivisionError
| OverflowError.

(** The result of evaluating an expression: a value, or a raised exception. *)
Inductive result (A : Type) : Type :=
| Ok (a : A)
| Raise (e : pyexc).

Arguments Ok {A} a.
Arguments Raise {A} e.

Definition bind {A B : Type} (c : result A) (k : A -> result B) : result B :=
  match c with
  | Ok a => k a
  | Raise e => Raise e
  end.

Declare Scope py_scope.
Delimit Scope py_scope with py.
Notation "x <- c ;; k" := (bind c (fun x => k))
  (at level 61, c at next level, right associativity) : py_scope.

(** ** The float operations of the script *)

Class Arith (A : Type) : Type := {
  (** a decimal literal of the source: [of_dec m e] is [m * 10^e] *)
  of_dec : Z -> Z -> A;
  (** [math.pi] *)
  math_pi : A;
  (** [x + y], [x - y], [x * y], [-x]: these never raise on floats *)
  add : A -> A -> A;
  sub : A -> A -> A;
  mul : A -> A -> A;
  neg : A -> A;
  (** [x / y]: raises [ZeroDivisionError] *)
  truediv : A -> A -> result A;
  (** [x ** 2.0] and [x ** 2] (an int exponent is converted to [2.0]) *)
  pow_two : A -> result A;
  (** [math.sqrt], [math.sin], [math.cos]: raise [ValueError] *)
  math_sqrt : A -> result A;
  math_sin : A -> result A;
  math_cos : A -> result A
}.

(** What the interpreter adds to the arithmetic: the builtin [float()] on a
    command-line argument.  On a [str] it either returns a float or raises
    [ValueError], the one exception the script catches; [None] is that
    [ValueError]. *)
Class Runtime (A : Type) : Type := {
  rt_arith :: Arith A;
  py_float : string -> option A
}.

(** ** Standard output and termination *)

(** A line printed by [print]: a string constant, or a number (the default
    conversion of a float to text is not modelled). *)
Inductive line (A : Type) : Type :=
| Text (s : string)
| Num (x : A).

Arguments Text {A} s.
Arguments Num {A} x.

(** How the process ends: it runs off the end of the script, it calls
    [exit()], or an exception is not caught. *)
Inductive status : Set :=
| Completed
| SystemExit
| Uncaught (e : pyexc).

(** The exit status of the process: [exit()] without an argument and a
    script that runs to its end both give 0, a traceback gives 1. *)
Definition exit_code (s : status) : Z :=
  match s with
  | Completed => 0
  | SystemExit => 0
  | Uncaught _ => 1
  end.

Record outcome (A : Type) : Type := {
  stdout : list (line A);
  exit : status
}.

Definition is_num {A : Type} (l : line A) : bool :=
  match l with
  | Num _ => true
  | Text _ => false
  end.

(** The numeric lines of an output. *)
Definition numeric_output {A : Type} (o : outcome A) : list (line A) :=
  filter is_num (stdout o).

(** ** The script *)

Section Script.

Context {A : Type}.

(** 3-vectors and 3x3 matrices ([np.array] of fixed shape); a matrix is
    its three rows. *)
Definition vec3 : Type := (A * A * A)%type.
Definition mat3 : Type := (vec3 * vec3 * vec3)%type.

Section Core.

Context {AR : Arith A}.
Local Open Scope py_scope.

(** [R_E_KM = 6378.1363] and [E_E = 0.081819221456] *)
Definition R_E_KM : A := of_dec 63781363 (-4).
Definition E_E : A := of_dec 81819221456 (-12).

(** The literals [1.0] and [180.0], and the ints [0] and [1] that
    [np.array] stores as floats. *)
Definition f_1_0 : A := of_dec 10 (-1).
Definition f_180_0 : A := of_dec 1800 (-1).
Definition i_0 : A := of_dec 0 0.
Definition i_1 : A := of_dec 1 0.

(** [def calc_denom(ecc, lat_rad)]: operands are evaluated left to
    right. *)
Definition calc_denom (ecc lat_rad : A) : result A :=
  e2 <- pow_two ecc ;;
  s <- math_sin lat_rad ;;
  s2 <- pow_two s ;;
  math_sqrt (sub f_1_0 (mul e2 s2)).

(** [x * math.pi / 180.0] *)
Definition deg_to_rad (x_deg : A) : result A :=
  truediv (mul x_deg math_pi) f_180_0.

(** Lines 69-75: the ECEF position [r] of the origin. *)
Definition origin_r (o_lat_rad o_long_rad o_hae_km : A) : result vec3 :=
  denominator <- calc_denom E_E o_lat_rad ;;
  c_E <- truediv R_E_KM denominator ;;
  s_E <- truediv (mul R_E_KM (sub f_1_0 (mul E_E E_E))) denominator ;;
  cos_lat <- math_cos o_lat_rad ;;
  cos_long <- math_cos o_long_rad ;;
  let r_x_km := mul (mul (add c_E o_hae_km) cos_lat) cos_long in
  cos_lat' <- math_cos o_lat_rad ;;
  sin_long <- math_sin o_long_rad ;;
  let r_y_km := mul (mul (add c_E o_hae_km) cos_lat') sin_long in
  sin_lat <- math_sin o_lat_rad ;;
  let r_z_km := mul (add s_E o_hae_km) sin_lat in
  Ok (r_x_km, r_y_km, r_z_km).

(** Lines 87-88: [Ry_lat]. *)
Definition Ry_lat (o_lat_rad : A) : result mat3 :=
  s00 <- math_sin o_lat_rad ;;
  c02 <- math_cos o_lat_rad ;;
  c20 <- math_cos o_lat_rad ;;
  s22 <- math_sin o_lat_rad ;;
  Ok ((s00, i_0, c02), (i_0, i_1, i_0), (neg c20, i_0, s22)).

(** Lines 89-90: [Rz_long]. *)
Definition Rz_long (o_long_rad : A) : result mat3 :=
  c00 <- math_cos o_long_rad ;;
  s01 <- math_sin o_long_rad ;;
  s10 <- math_sin o_long_rad ;;
  c11 <- math_cos o_long_rad ;;
  Ok ((c00, neg s01, i_0), (s10, c11, i_0), (i_0, i_0, i_1)).

(** One entry of [np.dot]: the products of a row with the column,
    summed from left to right.  (The order of the sum is the array
    library's; on binary64 the values stated below for the latitude and
    longitude zero and for the SEZ vector zero are sums of exact products
    with at most one term that is not a zero, the same in every
    order; the distances stated for a rotation and its transpose are
    bounds on the roundings of this order.) *)
Definition row_dot (row v : vec3) : A :=
  let '(a0, a1, a2) := row in
  let '(v0, v1, v2) := v in
  add (add (mul a0 v0) (mul a1 v1)) (mul a2 v2).

(** [np.dot(M, v)] for a 3x3 matrix and a column vector. *)
Definition np_dot (M : mat3) (v : vec3) : vec3 :=
  let '(r0, r1, r2) := M in
  (row_dot r0 v, row_dot r1 v, row_dot r2 v).

(** Lines 99-101: the element-wise sum [r + rot_2]. *)
Definition vec_add (u v : vec3) : vec3 :=
  let '(u0, u1, u2) := u in
  let '(v0, v1, v2) := v in
  (add u0 v0, add u1 v1, add u2 v2).

(** Lines 81-96: both rotations of the SEZ vector. *)
Definition rotate (o_lat_rad o_long_rad : A) (r_SEZ : vec3) : result vec3 :=
  Ry <- Ry_lat o_lat_rad ;;
  Rz <- Rz_long o_long_rad ;;
  let rot_1 := np_dot Ry r_SEZ in
  let rot_2 := np_dot Rz rot_1 in
  Ok rot_2.

(** Lines 65-106: from the six parsed numbers to the ECEF vector. *)
Definition sez_to_ecef (o_lat_deg o_long_deg o_hae_km s_km e_km z_km : A)
  : result vec3 :=
  o_lat_rad <- deg_to_rad o_lat_deg ;;
  o_long_rad <- deg_to_rad o_long_deg ;;
  r <- origin_r o_lat_rad o_long_rad o_hae_km ;;
  rot_2 <- rotate o_lat_rad o_long_rad (s_km, e_km, z_km) ;;
  Ok (vec_add r rot_2).

End Core.

Section Main.

Context {RT : Runtime A}.

Definition usage_line : string :=
  "python3 sez_to_ecef.py o_lat_deg o_lon_deg o_hae_km s_km e_km z_km".

Definition parse_error_line : string :=
  "Error: lat_deg, long_deg and hae_km must be numeric.".

(** The six parsed arguments, in the order of the command line. *)
Definition inputs : Type := (A * A * A * A * A * A)%type.

(** Lines 51-56, the body of the [try]: the arguments are converted in
    order, and the first failure leaves the block. *)
Definition parse_args (a1 a2 a3 a4 a5 a6 : string) : option inputs :=
  match py_float a1 with None => None | Some o_lat_deg =>
  match py_float a2 with None => None | Some o_long_deg =>
  match py_float a3 with None => None | Some o_hae_km =>
  match py_float a4 with None => None | Some s_km =>
  match py_float a5 with None => None | Some e_km =>
  match py_float a6 with None => None | Some z_km =>
    Some (o_lat_deg, o_long_deg, o_hae_km, s_km, e_km, z_km)
  end end end end end end.

(** Lines 58-59 and 61-62: one line is printed, then [exit()]. *)
Definition parse_error : outcome A :=
  {| stdout := [Text parse_error_line]; exit := SystemExit |}.

Definition usage_error : outcome A :=
  {| stdout := [Text usage_line]; exit := SystemExit |}.

(** The three [print]s of lines 109-111. *)
Definition printed (v : vec3) : outcome A :=
  let '(ecef_x_km, ecef_y_km, ecef_z_km) := v in
  {| stdout := [Num ecef_x_km; Num ecef_y_km; Num ecef_z_km];
     exit := Completed |}.

(** Lines 64-111: the computation and the three [print]s.  Nothing is
    printed before the last line is computed, so an exception leaves
    standard output empty. *)
Definition compute_and_print (i : inputs) : outcome A :=
  let '(o_lat_deg, o_long_deg, o_hae_km, s_km, e_km, z_km) := i in
  match sez_to_ecef o_lat_deg o_long_deg o_hae_km s_km e_km z_km with
  | Ok ecef => printed ecef
  | Raise e => {| stdout := []; exit := Uncaught e |}
  end.

(** The whole script, from [sys.argv] (the script name first).  Lines
    41-46 set six variables to NaN; each variable the computation reads
    is assigned in the [try] before ([o_long_deg] there, [o_lon_deg] is
    never read), so these values are not seen. *)
Definition main (sys_argv : list string) : outcome A :=
  match sys_argv with
  | [_; a1; a2; a3; a4; a5; a6] =>
      match parse_args a1 a2 a3 a4 a5 a6 with
      | Some i => compute_and_print i
      | None => parse_error
      end
  | _ => usage_error
  end.

End Main.

End Script.


(** ** IEEE binary64: the floats of the interpreter *)

(** *** Decimal text to binary64

    A source literal and an argument of [float()] denote the binary64
    value nearest to the decimal number, ties to even (David Gay's
    correctly rounded [strtod]). *)

(** [neg], [m], [e] stand for [(-1)^neg * m * 10^e] with [0 <= m].  For
    [e < 0] the quotient [m * 2^s / 10^(-e)] is taken with at least 64
    bits, and the position of the remainder against half of the divisor
    decides the rounding. *)
Definition sf_of_dec (neg : bool) (m e : Z) : spec_float :=
  match m with
  | Z0 => S754_zero neg
  | Zneg _ => S754_nan
  | Zpos p =>
      if (0 <=? e)%Z then
        match (m * 10 ^ e)%Z with
        | Zpos n => binary_round prec emax neg n 0
        | _ => S754_nan
        end
      else
        let d := (10 ^ (- e))%Z in
        let s := Z.max 0 (Zdigits2 d + 64 - Zdigits2 m) in
        let n := Z.shiftl m s in
        let q := (n / d)%Z in
        let r := (n mod d)%Z in
        let l := if (r =? 0)%Z then loc_Exact else loc_Inexact (2 * r ?= d)%Z in
        binary_round_aux prec emax neg q (- s) l
  end.

Definition float_of_dec (m e : Z) : float :=
  SF2Prim (sf_of_dec (m <? 0)%Z (Z.abs m) e).

(** *** The builtin [float()] on an ASCII string *)

(** [Py_ISSPACE]: TAB, LF, VT, FF, CR and SPACE. *)
Definition is_space (c : ascii) : bool :=
  let n := nat_of_ascii c in
  ((9 <=? n) && (n <=? 13) || (n =? 32))%nat.

Definition is_digit (c : ascii) : bool :=
  let n := nat_of_ascii c in
  ((48 <=? n) && (n <=? 57))%nat.

Definition digit_val (c : ascii) : Z := Z.of_nat (nat_of_ascii c - 48).

(** ASCII lower case of a letter. *)
Definition lower (c : ascii) : ascii :=
  let n := nat_of_ascii c in
  if ((65 <=? n) && (n <=? 90))%nat then ascii_of_nat (n + 32) else c.

Fixpoint drop_spaces (s : list ascii) : list ascii :=
  match s with
  | c :: t => if is_space c then drop_spaces t else s
  | [] => []
  end.

(** Leading and trailing white space is stripped. *)
Definition strip (s : list ascii) : list ascii :=
  rev (drop_spaces (rev (drop_spaces s))).

(** Underscores may only stand between two digits; they are removed.
    [prev] is the character before [s]. *)
Fixpoint remove_underscores (prev : option ascii) (s : list ascii)
  : option (list ascii) :=
  let prev_digit := match prev with Some p => is_digit p | None => false end in
  let prev_under := match prev with Some "_"%char => true | _ => false end in
  match s with
  | [] => if prev_under then None else Some []
  | c :: t =>
      if Ascii.eqb c "_" then
        if prev_digit then remove_underscores (Some c) t else None
      else if prev_under && negb (is_digit c) then None
      else option_map (cons c) (remove_underscores (Some c) t)
  end.

(** The longest prefix of digits, and what follows it. *)
Fixpoint span_digits (s : list ascii) : list ascii * list ascii :=
  match s with
  | c :: t =>
      if is_digit c then let '(d, r) := span_digits t in (c :: d, r)
      else ([], s)
  | [] => ([], [])
  end.

Definition digits_value (ds : list ascii) : Z :=
  fold_left (fun acc c => (10 * acc + digit_val c)%Z) ds 0%Z.

(** An optional sign: [true] for [-]. *)
Definition take_sign (s : list ascii) : bool * list ascii :=
  match s with
  | "-"%char :: t => (true, t)
  | "+"%char :: t => (false, t)
  | _ => (false, s)
  end.

(** [[sign] digits [. digits] [(e|E) [sign] digits]] with at least one
    digit before the exponent, and nothing after: sign, digits and
    decimal exponent. *)
Definition parse_decimal (s : list ascii) : option (bool * Z * Z) :=
  let '(neg, s1) := take_sign s in
  let '(ip, s2) := span_digits s1 in
  let '(fp, s3) :=
    match s2 with
    | "."%char :: t => span_digits t
    | _ => ([], s2)
    end in
  match ip ++ fp with
  | [] => None
  | _ :: _ =>
      let m := digits_value (ip ++ fp) in
      let scale := Z.of_nat (List.length fp) in
      match s3 with
      | [] => Some (neg, m, (- scale)%Z)
      | c :: t =>
          if Ascii.eqb (lower c) "e" then
            let '(eneg, t1) := take_sign t in
            match span_digits t1 with
            | ((_ :: _) as ed, []) =>
                let x := digits_value ed in
                Some (neg, m, ((if eneg then - x else x) - scale)%Z)
            | _ => None
            end
          else None
      end
  end.

(** [[sign] (inf | infinity | nan)], in any case of the letters. *)
Definition parse_inf_or_nan (s : list ascii) : option float :=
  let '(neg, s1) := take_sign s in
  let w := string_of_list_ascii (map lower s1) in
  if String.eqb w "inf" || String.eqb w "infinity" then
    Some (if neg then neg_infinity else infinity)
  else if String.eqb w "nan" then Some nan
  else None.

(** [float_from_string_inner] of [floatobject.c]: white space is
    stripped, then the whole of what is left must be a decimal number, an
    infinity or a NaN. *)
Definition float_from_string_inner (s : list ascii) : option float :=
  let cs := strip s in
  match parse_decimal cs with
  | Some (neg, m, e) => Some (SF2Prim (sf_of_dec neg m e))
  | None => parse_inf_or_nan cs
  end.

(** [float(s)] for a [str] of ASCII characters; [None] is [ValueError]. *)
Definition float_of_string (s : string) : option float :=
  match remove_underscores None (list_ascii_of_string s) with
  | None => None
  | Some cs => float_from_string_inner cs
  end.

(** *** The operations of the interpreter on binary64 *)

(** The functions the interpreter takes from the platform math library.
    IEEE 754 fixes [+], [-], [*], [/] and [sqrt], which are [PrimFloat]'s;
    [sin], [cos] and [pow] are the platform's, and stay parameters. *)
Record Libm : Type := {
  libm_sin : float -> float;
  libm_cos : float -> float;
  libm_pow : float -> float -> float
}.

(** [math_1] of [mathmodule.c], through which [math.sqrt], [math.sin] and
    [math.cos] call the library: a NaN from a non-NaN argument and an
    infinity from a finite argument are both [ValueError] (math domain
    error).  The library is taken not to set [errno] with a finite
    result. *)
Definition math_1 (func : float -> float) (x : float) : result float :=
  let r := func x in
  if is_nan r && negb (is_nan x) then Raise ValueError
  else if is_infinity r && is_finite x then Raise ValueError
  else Ok r.

(** [float_div] of [floatobject.c]. *)
Definition float_div (a b : float) : result float :=
  if (b =? 0)%float then Raise ZeroDivisionError else Ok (a / b)%float.

(** [float_pow] of [floatobject.c] at the exponent [2.0]: the special
    cases are settled before the library is called, a negative base is
    replaced by its absolute value (the exponent is even), and an infinite
    result of the library is [OverflowError]. *)
Definition float_pow_two (M : Libm) (iv : float) : result float :=
  if is_nan iv then Ok iv
  else if is_infinity iv then Ok (abs iv)
  else if (iv =? 0)%float then Ok 0%float
  else
    let iv := if (iv <? 0)%float then (- iv)%float else iv in
    if (iv =? 1)%float then Ok 1%float
    else
      let ix := libm_pow M iv 2%float in
      if is_infinity ix then Raise OverflowError else Ok ix.

(** [math.pi], the binary64 nearest to pi. *)
Definition float_pi : float := 0x1.921fb54442d18p+1%float.

Definition float_arith (M : Libm) : Arith float := {|
  of_dec := float_of_dec;
  math_pi := float_pi;
  add := PrimFloat.add;
  sub := PrimFloat.sub;
  mul := PrimFloat.mul;
  neg := PrimFloat.opp;
  truediv := float_div;
  pow_two := float_pow_two M;
  math_sqrt := math_1 PrimFloat.sqrt;
  math_sin := math_1 (libm_sin M);
  math_cos := math_1 (libm_cos M)
|}.

(** Inside a section that fixes the library, the arithmetic is found from
    it. *)
Existing Class Libm.
#[global] Existing Instance float_arith.

(** The interpreter on a platform with math library [M]. *)
Definition python (M : Libm) : Runtime float := {|
  rt_arith := float_arith M;
  py_float := float_of_string
|}.

(** The same interpreter with [parse] in place of the model of [float()]:
    what is stated for every [parse] does not depend on which strings
    [float()] accepts. *)
Definition interpreter (M : Libm) (parse : string -> option float) : Runtime float := {|
  rt_arith := float_arith M;
  py_float := parse
|}.

(** What the development relies on about the math library: the values C's
    Annex F fixes at zero and at infinity, and a finite square of the
    eccentricity constant. *)
Record LibmFacts (M : Libm) : Prop := {
  sin_zero : libm_sin M 0%float = 0%float;
  cos_zero : libm_cos M 0%float = 1%float;
  sin_infinity : is_nan (libm_sin M infinity) = true;
  pow_ecc : is_finite (libm_pow M (float_of_dec 81819221456 (-12)) 2%float) = true
}.

(** The ranges the development relies on for the statements about every
    latitude: [sin] and [cos] of a finite argument lie in [-1, 1], the
    square of a number of [-1, 1] lies in [-1, 1], and the square of the
    eccentricity constant is at most [2^-7] (it is about 0.0067). *)
Record LibmBounds (M : Libm) : Prop := {
  sin_bound : forall x, is_finite x = true ->
                        (abs (libm_sin M x) <=? 1)%float = true;
  cos_bound : forall x, is_finite x = true ->
                        (abs (libm_cos M x) <=? 1)%float = true;
  pow_bound : forall x, (abs x <=? 1)%float = true ->
                        (abs (libm_pow M x 2) <=? 1)%float = true;
  ecc_bound : (abs (libm_pow M (float_of_dec 81819221456 (-12)) 2) <=? 0x1p-7)%float
              = true
}.

(** A small math library that has both sets of properties: low-order
    Taylor polynomials and the correctly rounded square, kept within
    [-1, 1].  It shows that the assumptions on the library can be met; no
    statement depends on its other values. *)
Definition taylor_sin (x : float) : float :=
  let x2 := (x * x)%float in
  (x - x * x2 / 6 + x * x2 * x2 / 120)%float.

Definition taylor_cos (x : float) : float :=
  let x2 := (x * x)%float in
  (1 - x2 / 2 + x2 * x2 / 24)%float.

(** Values outside [-1, 1] (and NaN) are replaced by zero. *)
Definition unit_clamp (y : float) : float :=
  if (abs y <=? 1)%float then y else 0%float.

Definition taylor_libm : Libm := {|
  libm_sin := fun x => if is_finite x then unit_clamp (taylor_sin x) else nan;
  libm_cos := fun x => if is_finite x then unit_clamp (taylor_cos x) else nan;
  libm_pow := fun x y =>
    if (y =? 2)%float then
      if (abs x <=? 1)%float then unit_clamp (x * x) else (x * x)%float
    else nan
|}.

(** [bounded_by k x]: [x] is a zero, or a finite float below [2^k] in
    absolute value. *)
Definition bounded_by (k : Z) (x : spec_float) : Prop :=
  match x with
  | S754_zero _ => True
  | S754_finite _ m e => (Zdigits2 (Zpos m) + e <= k)%Z
  | _ => False
  end.

(** [Prim2SF 1] *)
Definition sf_one : spec_float := S754_finite false 4503599627370496 (-52).

Definition all_finite (i : float * float * float * float * float * float) : bool :=
  let '(a, b, c, d, e, f) := i in
  is_finite a && is_finite b && is_finite c
  && is_finite d && is_finite e && is_finite f.

Definition vec_finite (v : float * float * float) : bool :=
  let '(x, y, z) := v in
  is_finite x && is_finite y && is_finite z.

(** Equality of two printed floats: IEEE equality (the two zeros are
    equal), or both NaN. *)
Definition same_float (a b : float) : bool :=
  (a =? b)%float || is_nan a && is_nan b.

Definition same_vec (u v : float * float * float) : bool :=
  let '(u0, u1, u2) := u in
  let '(v0, v1, v2) := v in
  same_float u0 v0 && same_float u1 v1 && same_float u2 v2.

(** The same float, or two zeros (of either sign): what adding a zero
    leaves of a float. *)
Definition same_but_zero_sign (a b : float) : Prop :=
  a = b \/ (is_zero a = true /\ is_zero b = true).

(** *** The value of a float

    The real number a finite float stands for; it measures how far a
    computed float is from a number.  Infinities and NaN are given the
    value 0; the statements exclude them. *)
Definition SF2R (x : spec_float) : R :=
  match x with
  | S754_finite s m e => (IZR (cond_Zopp s (Zpos m)) * powerRZ 2 e)%R
  | _ => 0%R
  end.

Definition B2R (x : float) : R := SF2R (Prim2SF x).

(** ** Matrices of the statements

    The script never inverts a rotation; the transpose and the product
    serve to state how far its matrices are from orthogonal. *)

Section Matrices.

Context {A : Type} {AR : Arith A}.

Definition transpose (M : mat3 (A:=A)) : mat3 (A:=A) :=
  let '((a00, a01, a02), (a10, a11, a12), (a20, a21, a22)) := M in
  ((a00, a10, a20), (a01, a11, a21), (a02, a12, a22)).

(** The columns of [N] are the rows of its transpose. *)
Definition mat_mul (M N : mat3 (A:=A)) : mat3 (A:=A) :=
  let '(r0, r1, r2) := M in
  let '(c0, c1, c2) := transpose N in
  ((row_dot r0 c0, row_dot r0 c1, row_dot r0 c2),
   (row_dot r1 c0, row_dot r1 c1, row_dot r1 c2),
   (row_dot r2 c0, row_dot r2 c1, row_dot r2 c2)).

Definition identity : mat3 (A:=A) :=
  ((i_1, i_0, i_0), (i_0, i_1, i_0), (i_0, i_0, i_1)).

End Matrices.

(** ** Distances of the statements

    How far the floats of the matrices and of the rotated vectors are from
    the numbers they stand for. *)

(** The sine and the cosine the library returns at [x] are floats of
    [-1, 1], the coordinates of a point within [2^-50] of the unit circle
    (squares taken in the reals).  Two results within one unit in the last
    place of the sine and the cosine are such a point. *)
Definition unit_norm (M : Libm) (x : float) : Prop :=
  (abs (libm_sin M x) <=? 1)%float = true
  /\ (abs (libm_cos M x) <=? 1)%float = true
  /\ (Rabs (B2R (libm_sin M x) * B2R (libm_sin M x)
            + B2R (libm_cos M x) * B2R (libm_cos M x) - 1) <= powerRZ 2 (-50))%R.

(** [sized k V x]: [x] is finite, below [2^k] (no operation on it
    overflows) and of value at most [V]. *)
Definition sized (k : Z) (V : R) (x : float) : Prop :=
  bounded_by k (Prim2SF x) /\ (Rabs (B2R x) <= V)%R.

(** [within eps x y]: [x] is finite and its value is within [eps] of the
    value of [y]. *)
Definition within (eps : R) (x y : float) : Prop :=
  is_finite x = true /\ (Rabs (B2R x - B2R y) <= eps)%R.

Definition vec_within (eps : R) (u v : float * float * float) : Prop :=
  let '(u0, u1, u2) := u in
  let '(v0, v1, v2) := v in
  within eps u0 v0 /\ within eps u1 v1 /\ within eps u2 v2.

Definition mat_within (eps : R) (A B : mat3 (A:=float)) : Prop :=
  let '(a0, a1, a2) := A in
  let '(b0, b1, b2) := B in
  vec_within eps a0 b0 /\ vec_within eps a1 b1 /\ vec_within eps a2 b2.

(** A math library that returns, at the float [30.0 * math.pi / 180.0],
    the floats nearest to the sine and the cosine of that float,
    [0.49999999999999994] and [0.8660254037844387]; elsewhere it is
    [taylor_libm].  It serves to run the two matrices on values a platform
    returns. *)
Definition sampled_libm : Libm := {|
  libm_sin := fun x =>
    if (x =? 0x1.0c152382d7365p-1)%float then 0x1.fffffffffffffp-2%float
    else libm_sin taylor_libm x;
  libm_cos := fun x =>
    if (x =? 0x1.0c152382d7365p-1)%float then 0x1.bb67ae8584cabp-1%float
    else libm_cos taylor_libm x;
  libm_pow := libm_pow taylor_libm
|}.

(** * Properties *)

(** ** Decimal conversion on concrete inputs *)

Section ConversionChecks.

Local Open Scope string_scope.

(** The two constants of the script. *)
Lemma constants_on_binary64 :
  float_of_dec 63781363 (-4) = 0x1.8ea22e48e8a72p+12%float
  /\ float_of_dec 81819221456 (-12) = 0x1.4f21ac056739bp-4%float.
Proof. split; vm_compute; reflexivity. Qed.

(** Nearest float, ties to even, subnormals, overflow, the sign of zero,
    underscores and white space. *)
Lemma float_of_string_accepts :
  map float_of_string
    ["0.1"; "1e23"; "9007199254740993"; "5e-324"; "2.4703282292062327e-324";
     "1.7976931348623159e308"; " 1_0.5e1 "; "-0"; "+.5"; "1."; "inf";
     "-Infinity"; "NaN"]
  = [Some 0x1.999999999999ap-4%float; Some 0x1.52d02c7e14af6p+76%float;
     Some 9007199254740992%float; Some 0x1p-1074%float; Some 0%float;
     Some infinity; Some 105%float; Some (-0)%float; Some 0.5%float;
     Some 1%float; Some infinity; Some neg_infinity; Some nan].
Proof. vm_compute. reflexivity. Qed.

Lemma float_of_string_rejects :
  map float_of_string
    [""; " "; "abc"; "1e"; "1e+"; "."; "0x10"; "infx"; "1_"; "_1"; "1__0";
     "1 2"; "--1"; "1,5"]
  = [None; None; None; None; None; None; None; None; None; None; None;
     None; None; None].
Proof. vm_compute. reflexivity. Qed.

End ConversionChecks.

(** ** The command line, for every arithmetic *)

Section CommandLine.

Context {A : Type} {RT : Runtime A}.

(** The [try] block fails exactly when one of the six conversions does. *)
Lemma parse_args_None (a1 a2 a3 a4 a5 a6 : string) :
  parse_args a1 a2 a3 a4 a5 a6 = None
  <-> Exists (fun a => py_float a = None) [a1; a2; a3; a4; a5; a6].
Proof.
  unfold parse_args. split.
  - intros H.
    repeat match type of H with
           | match py_float ?a with _ => _ end = None =>
               destruct (py_float a) eqn:?
           end;
      try discriminate;
      repeat first [ now apply Exists_cons_hd | apply Exists_cons_tl ].
  - intros H.
    repeat match goal with
           | |- match py_float ?a with _ => _ end = None =>
               destruct (py_float a) eqn:?; [ | reflexivity ]
           end.
    exfalso.
    repeat match goal with
           | H : Exists _ (_ :: _) |- _ => inversion H; clear H; subst; try congruence
           | H : Exists _ [] |- _ => inversion H
           end.
Qed.

Lemma main_seven (a0 a1 a2 a3 a4 a5 a6 : string) :
  main [a0; a1; a2; a3; a4; a5; a6]
  = match parse_args a1 a2 a3 a4 a5 a6 with
    | Some i => compute_and_print i
    | None => parse_error
    end.
Proof. reflexivity. Qed.

Lemma main_other_length (sys_argv : list string) :
  List.length sys_argv <> 7%nat -> main sys_argv = usage_error.
Proof.
  intros H.
  do 8 (destruct sys_argv as [| ? sys_argv]; try reflexivity).
  simpl in H. lia.
Qed.

(** A list of seven strings, by its elements. *)
Lemma length_seven (l : list string) :
  List.length l = 7%nat ->
  exists a0 a1 a2 a3 a4 a5 a6, l = [a0; a1; a2; a3; a4; a5; a6].
Proof.
  intros H.
  do 7 (destruct l as [| ? l]; try discriminate).
  destruct l; try discriminate. now repeat eexists.
Qed.

(** A run whose six arguments are converted and whose computation returns
    prints the three components in the order x, y, z and runs to its
    end. *)
Lemma main_prints (a0 a1 a2 a3 a4 a5 a6 : string) (i : inputs) (x y z : A) :
  parse_args a1 a2 a3 a4 a5 a6 = Some i ->
  compute_and_print i = printed (x, y, z) ->
  stdout (main [a0; a1; a2; a3; a4; a5; a6]) = [Num x; Num y; Num z]
  /\ exit (main [a0; a1; a2; a3; a4; a5; a6]) = Completed.
Proof.
  intros Hp Hc. rewrite main_seven, Hp, Hc. split; reflexivity.
Qed.

End CommandLine.

Section CommandLineClaims.

Context {A : Type} {RT : Runtime A}.


(** C8: with exactly six arguments of which some cannot be converted by
    [float()], the script prints the message of line 58 and nothing else,
    leaves through [exit()] with the exit status of a usage error, and
    prints no number. *)
Theorem non_numeric_argument_prints_parse_error
  (a0 a1 a2 a3 a4 a5 a6 : string) :
  Exists (fun a => py_float a = None) [a1; a2; a3; a4; a5; a6] ->
  stdout (main [a0; a1; a2; a3; a4; a5; a6])
  = [Text "Error: lat_deg, long_deg and hae_km must be numeric."]
  /\ exit (main [a0; a1; a2; a3; a4; a5; a6]) = SystemExit
  /\ (forall sys_argv : list string,
        List.length sys_argv <> 7%nat ->
        exit (main [a0; a1; a2; a3; a4; a5; a6]) = exit (main sys_argv))
  /\ exit_code (exit (main [a0; a1; a2; a3; a4; a5; a6])) = 0%Z
  /\ numeric_output (main [a0; a1; a2; a3; a4; a5; a6]) = [].
Proof.
  intros H. apply parse_args_None in H.
  rewrite main_seven, H.
  split; [ reflexivity | ]. split; [ reflexivity | ].
  split; [ | split; reflexivity ].
  intros sys_argv Hlen. rewrite (main_other_length _ Hlen). reflexivity.
Qed.

(** C9: the six conversions share one [try]: a value that [float()]
    rejects at any of the positions 1 to 6 of [sys.argv], the SEZ
    components included, gives the same single message, followed by
    [exit()]. *)
Theorem every_position_shares_the_parse_error (sys_argv : list string) (k : nat) :
  List.length sys_argv = 7%nat ->
  (1 <= k <= 6)%nat ->
  py_float (nth k sys_argv EmptyString) = None ->
  stdout (main sys_argv)
  = [Text "Error: lat_deg, long_deg and hae_km must be numeric."]
  /\ exit (main sys_argv) = SystemExit.
Proof.
  intros Hlen Hk Hbad.
  destruct (length_seven _ Hlen) as (a0 & a1 & a2 & a3 & a4 & a5 & a6 & ->).
  assert (Hex : Exists (fun a => py_float a = None) [a1; a2; a3; a4; a5; a6]).
  { apply Exists_exists. exists (nth k [a0; a1; a2; a3; a4; a5; a6] EmptyString).
    split; [ | exact Hbad ].
    destruct k as [| [| [| [| [| [| [| k]]]]]]]; simpl; try lia; tauto. }
  apply parse_args_None in Hex. rewrite main_seven, Hex. split; reflexivity.
Qed.

End CommandLineClaims.

(** ** The script on binary64 *)

Section Binary64Facts.

Lemma taylor_libm_facts : LibmFacts taylor_libm.
Proof. split; vm_compute; reflexivity. Qed.

(** A finite float is a zero or a signed mantissa with an exponent. *)
Lemma is_finite_cases (x : float) :
  is_finite x = true ->
  (exists s, Prim2SF x = S754_zero s)
  \/ (exists s m e, Prim2SF x = S754_finite s m e).
Proof.
  unfold is_finite, is_nan, is_infinity.
  rewrite !FloatAxioms.eqb_spec, abs_spec.
  change (Prim2SF infinity) with (S754_infinity false).
  destruct (Prim2SF x) as [s | s | | s m e]; simpl; intros H.
  - left. now exists s.
  - rewrite orb_true_r in H. discriminate.
  - discriminate.
  - right. now exists s, m, e.
Qed.

(** The product of a finite float and zero is a zero, which leaves [1.0]
    unchanged when subtracted. *)
Lemma one_minus_finite_times_zero (p : float) :
  is_finite p = true -> (1 - p * 0)%float = 1%float.
Proof.
  intros Hp. apply Prim2SF_inj.
  rewrite sub_spec, mul_spec.
  change (Prim2SF 0) with (S754_zero false).
  destruct (is_finite_cases _ Hp) as [[s ->] | (s & m & e & ->)];
    destruct s; reflexivity.
Qed.

Variable M : Libm.
Hypothesis HM : LibmFacts M.

Lemma math_sin_zero : math_sin 0%float = Ok 0%float.
Proof. simpl. unfold math_1. now rewrite (sin_zero HM). Qed.

Lemma math_cos_zero : math_cos 0%float = Ok 1%float.
Proof. simpl. unfold math_1. now rewrite (cos_zero HM). Qed.

(** [E_E ** 2.0] is what the library returns, and it is finite. *)
Lemma pow_two_ecc :
  exists p, pow_two E_E = Ok p /\ is_finite p = true.
Proof.
  pose proof (pow_ecc HM) as Hp.
  exists (libm_pow M (float_of_dec 81819221456 (-12)) 2%float). split; [ | exact Hp ].
  change (E_E) with (float_of_dec 81819221456 (-12)).
  cbn [pow_two float_arith]. unfold float_pow_two.
  set (c := float_of_dec 81819221456 (-12)) in *.
  assert (Hc : c = 0x1.4f21ac056739bp-4%float) by (vm_compute; reflexivity).
  replace (is_nan c) with false by (rewrite Hc; reflexivity).
  replace (is_infinity c) with false by (rewrite Hc; reflexivity).
  replace (c =? 0)%float with false by (rewrite Hc; reflexivity).
  replace (c <? 0)%float with false by (rewrite Hc; reflexivity).
  replace (c =? 1)%float with false by (rewrite Hc; reflexivity).
  unfold is_finite in Hp. apply negb_true_iff, orb_false_iff in Hp.
  destruct Hp as [_ ->]. reflexivity.
Qed.

(** At latitude zero the denominator is exactly [1.0]. *)
Lemma calc_denom_zero : calc_denom E_E 0%float = Ok 1%float.
Proof.
  unfold calc_denom.
  destruct pow_two_ecc as (p & -> & Hp). cbv beta iota delta [bind].
  rewrite math_sin_zero. cbv beta iota delta [bind].
  change (pow_two 0%float) with (Ok (A:=float) 0%float).
  cbv beta iota delta [bind].
  change (f_1_0) with 1%float.
  cbn [sub mul float_arith].
  rewrite (one_minus_finite_times_zero _ Hp). reflexivity.
Qed.

End Binary64Facts.

Section Binary64AtZero.

Local Open Scope string_scope.

(** At latitude and longitude zero the library is only asked for
    [sin 0], [cos 0] and the square of the eccentricity, which drops out:
    the result is the same on every platform. *)
Lemma sez_to_ecef_zero_any_libm (M1 M2 : Libm) :
  LibmFacts M1 -> LibmFacts M2 ->
  forall h s e z : float,
    sez_to_ecef (AR:=float_arith M1) 0%float 0%float h s e z
    = sez_to_ecef (AR:=float_arith M2) 0%float 0%float h s e z.
Proof.
  intros H1 H2 h s e z. unfold sez_to_ecef.
  change (deg_to_rad (AR:=float_arith M1) 0%float) with (Ok (A:=float) 0%float).
  change (deg_to_rad (AR:=float_arith M2) 0%float) with (Ok (A:=float) 0%float).
  cbv beta iota delta [bind].
  unfold origin_r, rotate, Ry_lat, Rz_long.
  rewrite (calc_denom_zero H1), (calc_denom_zero H2).
  rewrite !(math_sin_zero H1), !(math_sin_zero H2).
  rewrite !(math_cos_zero H1), !(math_cos_zero H2).
  reflexivity.
Qed.

Lemma main_zero_any_libm (M : Libm) :
  LibmFacts M ->
  forall a0 a3 a4 a5 a6 : string,
    main (RT:=python M) [a0; "0"; "0"; a3; a4; a5; a6]
    = main (RT:=python taylor_libm) [a0; "0"; "0"; a3; a4; a5; a6].
Proof.
  intros HM a0 a3 a4 a5 a6. rewrite !main_seven. unfold parse_args.
  cbn [py_float python].
  change (float_of_string "0") with (Some 0%float).
  destruct (float_of_string a3) as [h |]; [ | reflexivity ].
  destruct (float_of_string a4) as [s |]; [ | reflexivity ].
  destruct (float_of_string a5) as [e |]; [ | reflexivity ].
  destruct (float_of_string a6) as [z |]; [ | reflexivity ].
  unfold compute_and_print.
  change (@rt_arith float (python M)) with (float_arith M).
  change (@rt_arith float (python taylor_libm)) with (float_arith taylor_libm).
  now rewrite (sez_to_ecef_zero_any_libm HM taylor_libm_facts).
Qed.

End Binary64AtZero.

(** *** Zeros, and the SEZ vector [(0, 0, 0)] on binary64 *)

Lemma SFeqb_refl_finite s m e : SFeqb (S754_finite s m e) (S754_finite s m e) = true.
Proof.
  unfold SFeqb, SFcompare. rewrite Z.compare_refl, Pos.compare_cont_refl.
  destruct s; reflexivity.
Qed.

Lemma is_zero_spec (x : float) :
  is_zero x = true <-> exists s, Prim2SF x = S754_zero s.
Proof.
  unfold is_zero. rewrite FloatAxioms.eqb_spec.
  change (Prim2SF zero) with (S754_zero false).
  destruct (Prim2SF x) as [s | s | | s m e]; simpl; split; intros H;
    try discriminate; try (destruct H; discriminate);
    try (now exists s); try reflexivity.
  - destruct s; discriminate.
  - destruct s; discriminate.
Qed.

Lemma mul_finite_zero (x z : float) :
  is_finite x = true -> is_zero z = true -> is_zero (x * z) = true.
Proof.
  intros Hx Hz. apply is_zero_spec in Hz. destruct Hz as [sz Hz].
  apply is_zero_spec. rewrite mul_spec, Hz.
  destruct (is_finite_cases _ Hx) as [[s ->] | (s & m & e & ->)]; eexists; reflexivity.
Qed.

Lemma add_zero_zero (a b : float) :
  is_zero a = true -> is_zero b = true -> is_zero (a + b) = true.
Proof.
  intros Ha Hb. apply is_zero_spec in Ha, Hb. destruct Ha as [sa Ha], Hb as [sb Hb].
  apply is_zero_spec. rewrite add_spec, Ha, Hb.
  destruct sa, sb; eexists; reflexivity.
Qed.

Lemma add_zero_r (x z : float) :
  is_zero z = true -> is_nan x = false -> (x + z =? x)%float = true.
Proof.
  intros Hz Hx. apply is_zero_spec in Hz. destruct Hz as [sz Hz].
  unfold is_nan in Hx. rewrite FloatAxioms.eqb_spec in *. rewrite add_spec, Hz.
  destruct (Prim2SF x) as [s | s | | s m e]; simpl in *.
  - destruct s, sz; reflexivity.
  - destruct s; reflexivity.
  - discriminate.
  - apply SFeqb_refl_finite.
Qed.


Lemma SFeqb_refl (x : spec_float) : x <> S754_nan -> SFeqb x x = true.
Proof.
  destruct x as [s | s | | s m e]; intros H.
  - reflexivity.
  - destruct s; reflexivity.
  - contradiction.
  - apply SFeqb_refl_finite.
Qed.

Lemma is_nan_spec (x : float) : is_nan x = true <-> Prim2SF x = S754_nan.
Proof.
  unfold is_nan. rewrite FloatAxioms.eqb_spec. split.
  - intros H. destruct (Prim2SF x) as [s | s | | s m e] eqn:E; try reflexivity;
      rewrite SFeqb_refl in H by discriminate; discriminate.
  - intros ->. reflexivity.
Qed.

Lemma add_zero_same (x z : float) : is_zero z = true -> same_float (x + z) x = true.
Proof.
  intros Hz. unfold same_float.
  destruct (is_nan x) eqn:Hx.
  - assert (is_nan (x + z) = true) as ->.
    { apply is_nan_spec in Hx. apply is_nan_spec. now rewrite add_spec, Hx. }
    apply orb_true_r.
  - now rewrite (@add_zero_r x z Hz Hx).
Qed.

Lemma math_1_finite (f : float -> float) (x r : float) :
  is_finite x = true -> math_1 f x = Ok r -> is_finite r = true.
Proof.
  unfold math_1. intros Hx.
  assert (Hn : is_nan x = false).
  { unfold is_finite in Hx. apply negb_true_iff, orb_false_iff in Hx. tauto. }
  rewrite Hx, Hn. simpl. rewrite !andb_true_r.
  destruct (is_nan (f x)) eqn:E1; [ discriminate | ].
  destruct (is_infinity (f x)) eqn:E2; [ discriminate | ].
  intros [= <-]. unfold is_finite. now rewrite E1, E2.
Qed.

Lemma is_finite_opp (x : float) : is_finite (- x) = is_finite x.
Proof.
  unfold is_finite, is_nan, is_infinity.
  rewrite !FloatAxioms.eqb_spec, !abs_spec, opp_spec.
  change (Prim2SF infinity) with (S754_infinity false).
  destruct (Prim2SF x) as [s | s | | s m e]; simpl; try reflexivity.
  - destruct s; reflexivity.
  - now rewrite !SFeqb_refl_finite.
Qed.

Section ZeroSez.

Local Open Scope string_scope.

Context (M : Libm).

Lemma deg_to_rad_float (x : float) :
  deg_to_rad x = Ok (x * float_pi / 180)%float.
Proof. reflexivity. Qed.

Lemma row_dot_zero (a0 a1 a2 v0 v1 v2 : float) :
  is_finite a0 = true -> is_finite a1 = true -> is_finite a2 = true ->
  is_zero v0 = true -> is_zero v1 = true -> is_zero v2 = true ->
  is_zero (row_dot (a0, a1, a2) (v0, v1, v2)) = true.
Proof.
  intros. unfold row_dot. cbn [add mul float_arith].
  repeat apply add_zero_zero; now apply mul_finite_zero.
Qed.

Lemma rotate_zero (lat lon : float) (r : vec3) (h : float) :
  is_finite lat = true -> is_finite lon = true ->
  origin_r lat lon h = Ok r ->
  exists z0 z1 z2,
    rotate lat lon (0, 0, 0)%float = Ok (z0, z1, z2)
    /\ is_zero z0 = true /\ is_zero z1 = true /\ is_zero z2 = true.
Proof.
  intros Hlat Hlon Ho.
  unfold origin_r, calc_denom in Ho.
  destruct (pow_two E_E) as [e2 |]; [ | discriminate ].
  cbv beta iota delta [bind] in Ho.
  destruct (math_sin lat) as [sl |] eqn:Hsl; [ | discriminate ].
  destruct (pow_two sl) as [s2 |]; [ | discriminate ].
  destruct (math_sqrt _) as [d |]; [ | discriminate ].
  destruct (truediv R_E_KM d) as [c_E |]; [ | discriminate ].
  destruct (truediv _ d) as [s_E |]; [ | discriminate ].
  destruct (math_cos lat) as [cl |] eqn:Hcl; [ | discriminate ].
  destruct (math_cos lon) as [cn |] eqn:Hcn; [ | discriminate ].
  destruct (math_sin lon) as [sn |] eqn:Hsn; [ | discriminate ].
  clear Ho.
  unfold rotate, Ry_lat, Rz_long. rewrite Hsl, Hcl, Hsn, Hcn.
  cbv beta iota zeta delta [bind].
  cbn [math_sin math_cos float_arith] in Hsl, Hcl, Hsn, Hcn.
  apply (@math_1_finite _ _ _ Hlat) in Hsl, Hcl.
  apply (@math_1_finite _ _ _ Hlon) in Hsn, Hcn.
  assert (H0 : is_finite (i_0 (A:=float)) = true) by reflexivity.
  assert (H1 : is_finite (i_1 (A:=float)) = true) by reflexivity.
  assert (Hz : is_zero 0%float = true) by reflexivity.
  assert (Hncl : is_finite (neg cl) = true) by (cbn [neg float_arith]; now rewrite is_finite_opp).
  assert (Hnsn : is_finite (neg sn) = true) by (cbn [neg float_arith]; now rewrite is_finite_opp).
  unfold np_dot. do 3 eexists. split; [ reflexivity | ].
  repeat split; repeat (apply row_dot_zero; try assumption).
Qed.

(** For every math library: once the position [r] of the origin is
    computed, the SEZ vector [(0, 0, 0)] is rotated to zeros and the sum
    is [r], up to the sign of a zero. *)
Lemma zero_sez_given_origin (o_lat_deg o_long_deg o_hae_km : float) (r : vec3) :
  is_finite (o_lat_deg * float_pi / 180)%float = true ->
  is_finite (o_long_deg * float_pi / 180)%float = true ->
  origin_r (o_lat_deg * float_pi / 180)%float (o_long_deg * float_pi / 180)%float o_hae_km = Ok r ->
  exists ecef,
    sez_to_ecef o_lat_deg o_long_deg o_hae_km 0%float 0%float 0%float = Ok ecef
    /\ same_vec ecef r = true.
Proof.
  intros Hlat Hlon Ho.
  destruct (@rotate_zero _ _ _ _ Hlat Hlon Ho) as (z0 & z1 & z2 & Hrot & Hz0 & Hz1 & Hz2).
  unfold sez_to_ecef. rewrite !deg_to_rad_float. cbv beta iota delta [bind].
  rewrite Ho, Hrot. eexists. split; [ reflexivity | ].
  destruct r as [[r0 r1] r2]. unfold vec_add, same_vec. cbn [add float_arith].
  now rewrite !add_zero_same.
Qed.

End ZeroSez.

(** *** Rounding on binary64

    What the two roundings of [binary_round_aux] do to the number of
    digits of a mantissa: enough to bound a product from above and to keep
    a difference and a square root away from zero. *)

Unset Implicit Arguments.

Section Rounding.

Local Open Scope Z_scope.

Lemma digits2_pos_size (p : positive) : digits2_pos p = Pos.size p.
Proof. induction p; simpl; congruence. Qed.

Lemma Zdigits2_pos (p : positive) : Zdigits2 (Zpos p) = Zpos (Pos.size p).
Proof. simpl. now rewrite digits2_pos_size. Qed.

Lemma Zdigits2_bounds (m : Z) :
  0 < m -> 2 ^ (Zdigits2 m - 1) <= m < 2 ^ Zdigits2 m.
Proof.
  intros Hm. destruct m as [| p | p]; try lia.
  rewrite Zdigits2_pos.
  pose proof (Pos.size_gt p) as Hgt. pose proof (Pos.size_le p) as Hle.
  assert (H2 : 2 ^ Zpos (Pos.size p) = Zpos (2 ^ Pos.size p)).
  { now rewrite Pos2Z.inj_pow. }
  split.
  - assert (2 * 2 ^ (Zpos (Pos.size p) - 1) = 2 ^ Zpos (Pos.size p)).
    { rewrite <- Z.pow_succ_r by lia. f_equal. lia. }
    assert (Zpos (2 ^ Pos.size p) <= Zpos p~0) by (apply Pos2Z.pos_le_pos; exact Hle).
    lia.
  - rewrite H2. apply Pos2Z.pos_lt_pos. exact Hgt.
Qed.

Lemma Zdigits2_nonneg (m : Z) : 0 <= Zdigits2 m.
Proof. destruct m; simpl; lia. Qed.

Lemma Zdigits2_pos_pos (m : Z) : 0 < m -> 0 < Zdigits2 m.
Proof. destruct m; simpl; lia. Qed.

Lemma Zdigits2_le (m k : Z) : 0 < m -> m < 2 ^ k -> Zdigits2 m <= k.
Proof.
  intros Hm Hk. destruct (Zdigits2_bounds m Hm) as [Hlo _].
  destruct (Z_le_gt_dec (Zdigits2 m) k) as [ | Hgt]; [ assumption | exfalso ].
  assert (0 <= k). { destruct (Z_lt_le_dec k 0); [ | assumption ]. rewrite Z.pow_neg_r in Hk by assumption. lia. }
  assert (2 ^ k <= 2 ^ (Zdigits2 m - 1)) by (apply Z.pow_le_mono_r; lia).
  lia.
Qed.

Lemma Zdigits2_ge (m k : Z) : 0 < m -> 2 ^ (k - 1) <= m -> k <= Zdigits2 m.
Proof.
  intros Hm Hk. destruct (Zdigits2_bounds m Hm) as [_ Hhi].
  destruct (Z_le_gt_dec k (Zdigits2 m)) as [ | Hgt]; [ assumption | exfalso ].
  pose proof (Zdigits2_nonneg m).
  assert (2 ^ Zdigits2 m <= 2 ^ (k - 1)) by (apply Z.pow_le_mono_r; lia).
  lia.
Qed.

Lemma shr_1_m (mrs : shr_record) :
  0 <= shr_m mrs -> shr_m (shr_1 mrs) = shr_m mrs / 2.
Proof.
  destruct mrs as [m r s]. simpl. intros Hm.
  destruct m as [| [p | p |] | p]; simpl; try lia; try reflexivity.
  - rewrite Pos2Z.inj_xI. apply Z.div_unique with 1; lia.
  - rewrite Pos2Z.inj_xO. apply Z.div_unique with 0; lia.
Qed.

Lemma iter_pos_shr_m (p : positive) : forall mrs : shr_record,
  0 <= shr_m mrs -> shr_m (SpecFloat.iter_pos shr_1 p mrs) = shr_m mrs / 2 ^ Zpos p.
Proof.
  induction p as [p IH | p IH |]; intros mrs Hm; simpl SpecFloat.iter_pos.
  - assert (H1 : 0 <= shr_m (shr_1 mrs)) by (rewrite shr_1_m by assumption; apply Z.div_pos; lia).
    assert (H2 : 0 <= shr_m (SpecFloat.iter_pos shr_1 p (shr_1 mrs))) by (rewrite IH by assumption; apply Z.div_pos; lia).
    rewrite IH, IH, shr_1_m by assumption.
    rewrite !Z.div_div by lia. f_equal.
    rewrite Pos2Z.inj_xI. rewrite <- !Z.pow_add_r, <- Z.pow_succ_r by lia. f_equal. lia.
  - assert (H2 : 0 <= shr_m (SpecFloat.iter_pos shr_1 p mrs)) by (rewrite IH by assumption; apply Z.div_pos; lia).
    rewrite IH, IH by assumption.
    rewrite !Z.div_div by lia. f_equal.
    rewrite Pos2Z.inj_xO. rewrite <- !Z.pow_add_r by lia. f_equal. lia.
  - now rewrite shr_1_m.
Qed.

Lemma shr_m_e (mrs : shr_record) (e n : Z) :
  0 <= shr_m mrs ->
  shr_m (fst (shr mrs e n)) = shr_m mrs / 2 ^ Z.max 0 n
  /\ snd (shr mrs e n) = e + Z.max 0 n.
Proof.
  intros Hm. unfold shr. destruct n as [| p | p]; simpl fst; simpl snd.
  - rewrite Z.max_id. simpl. rewrite Z.div_1_r. lia.
  - rewrite Z.max_r by lia. split; [ now apply iter_pos_shr_m | reflexivity ].
  - rewrite Z.max_l by lia. simpl. rewrite Z.div_1_r. lia.
Qed.

Lemma shr_record_of_loc_m (m : Z) (l : location) : shr_m (shr_record_of_loc m l) = m.
Proof. destruct l as [| []]; reflexivity. Qed.

Lemma round_nearest_even_cases (m : Z) (l : location) :
  round_nearest_even m l = m \/ round_nearest_even m l = m + 1.
Proof. destruct l as [| []]; simpl; try tauto. destruct (Z.even m); tauto. Qed.

Lemma Zdigits2_div_pow2 (m n : Z) :
  0 < m -> 0 <= n < Zdigits2 m ->
  0 < m / 2 ^ n /\ Zdigits2 (m / 2 ^ n) = Zdigits2 m - n.
Proof.
  intros Hm Hn. destruct (Zdigits2_bounds m Hm) as [Hlo Hhi].
  set (d := Zdigits2 m) in *.
  assert (Hp : 0 < 2 ^ n) by (apply Z.pow_pos_nonneg; lia).
  assert (Hlo' : 2 ^ (d - n - 1) <= m / 2 ^ n).
  { apply Z.div_le_lower_bound; [ assumption | ].
    rewrite <- Z.pow_add_r by lia. replace (n + (d - n - 1)) with (d - 1) by lia. assumption. }
  assert (Hhi' : m / 2 ^ n < 2 ^ (d - n)).
  { apply Z.div_lt_upper_bound; [ assumption | ].
    rewrite <- Z.pow_add_r by lia. replace (n + (d - n)) with d by lia. assumption. }
  assert (Hpos : 0 < m / 2 ^ n).
  { assert (0 < 2 ^ (d - n - 1)) by (apply Z.pow_pos_nonneg; lia). lia. }
  split; [ assumption | ].
  apply Z.le_antisymm.
  - now apply Zdigits2_le.
  - apply Zdigits2_ge; [ assumption | ]. replace (d - n - 1) with (d - n - 1) in Hlo' by lia. assumption.
Qed.

Lemma Zdigits2_div_small (m n : Z) :
  0 < m -> Zdigits2 m <= n -> m / 2 ^ n = 0.
Proof.
  intros Hm Hn. destruct (Zdigits2_bounds m Hm) as [_ Hhi].
  apply Z.div_small. split; [ lia | ].
  pose proof (Zdigits2_nonneg m).
  assert (2 ^ Zdigits2 m <= 2 ^ n) by (apply Z.pow_le_mono_r; lia). lia.
Qed.

Lemma Zdigits2_succ (m : Z) :
  0 < m -> Zdigits2 m <= Zdigits2 (m + 1) <= Zdigits2 m + 1.
Proof.
  intros Hm. destruct (Zdigits2_bounds m Hm) as [Hlo Hhi].
  pose proof (Zdigits2_pos_pos m Hm).
  split.
  - apply Zdigits2_ge; lia.
  - apply Zdigits2_le; [ lia | ].
    rewrite Z.pow_add_r by lia. change (2 ^ 1) with 2. lia.
Qed.

Lemma fexp64_eq (x : Z) : fexp prec emax x = Z.max (x - 53) (-1074).
Proof. reflexivity. Qed.

Lemma BRA_form (s : bool) (m e : Z) (l : location) :
  0 < m ->
  exists m2 : Z,
    let n1 := Z.max 0 (fexp prec emax (Zdigits2 m + e) - e) in
    let m1 := m / 2 ^ n1 in
    let e1 := e + n1 in
    (m2 = m1 \/ m2 = m1 + 1) /\
    let n2 := Z.max 0 (fexp prec emax (Zdigits2 m2 + e1) - e1) in
    binary_round_aux prec emax s m e l =
      match m2 / 2 ^ n2 with
      | Z0 => S754_zero s
      | Zpos p => if (e1 + n2 <=? emax - prec) then S754_finite s p (e1 + n2) else S754_infinity s
      | Zneg _ => S754_nan
      end.
Proof.
  intros Hm. unfold binary_round_aux, shr_fexp.
  assert (H0 : 0 <= shr_m (shr_record_of_loc m l)) by (rewrite shr_record_of_loc_m; lia).
  destruct (shr_m_e (shr_record_of_loc m l) e (fexp prec emax (Zdigits2 m + e) - e) H0) as [Hm1 He1].
  destruct (shr (shr_record_of_loc m l) e (fexp prec emax (Zdigits2 m + e) - e)) as [mrs' e'].
  simpl fst in Hm1. simpl snd in He1. rewrite shr_record_of_loc_m in Hm1.
  set (m2 := round_nearest_even (shr_m mrs') (loc_of_shr_record mrs')).
  exists m2. cbv zeta. split.
  - unfold m2. rewrite <- Hm1. apply round_nearest_even_cases.
  - assert (H2 : 0 <= shr_m (shr_record_of_loc m2 loc_Exact)).
    { rewrite shr_record_of_loc_m. unfold m2.
      assert (0 <= shr_m mrs') by (rewrite Hm1; apply Z.div_pos; [ lia | apply Z.pow_pos_nonneg; lia ]).
      destruct (round_nearest_even_cases (shr_m mrs') (loc_of_shr_record mrs')) as [-> | ->]; lia. }
    destruct (shr_m_e (shr_record_of_loc m2 loc_Exact) e' (fexp prec emax (Zdigits2 m2 + e') - e') H2) as [Hm3 He3].
    destruct (shr (shr_record_of_loc m2 loc_Exact) e' (fexp prec emax (Zdigits2 m2 + e') - e')) as [mrs'' e''].
    simpl fst in Hm3. simpl snd in He3. rewrite shr_record_of_loc_m in Hm3.
    rewrite Hm3, He3, He1. reflexivity.
Qed.

Lemma BRA_range (s : bool) (m e : Z) (l : location) :
  0 < m -> e <= 971 -> Zdigits2 m + e + 1 <= 1024 ->
  (exists m' e',
     binary_round_aux prec emax s m e l = S754_finite s m' e'
     /\ Zdigits2 (Zpos m') + e' <= Z.max (Zdigits2 m + e) (-1074) + 1
     /\ (-1074 <= Zdigits2 m + e - 53 -> Zdigits2 m + e <= Zdigits2 (Zpos m') + e'))
  \/ (binary_round_aux prec emax s m e l = S754_zero s
      /\ Zdigits2 m + e - 53 < -1074).
Proof.
  intros Hm He Hd.
  destruct (BRA_form s m e l Hm) as (m2 & Hm2 & ->). cbv zeta in Hm2.
  rewrite !fexp64_eq in *. change (emax - prec) with 971.
  set (d := Zdigits2 m) in *.
  set (n1 := Z.max 0 (Z.max (d + e - 53) (-1074) - e)) in *.
  pose proof (Zdigits2_pos_pos m Hm) as Hdpos. fold d in Hdpos.
  destruct (Z_lt_le_dec n1 d) as [Hn1 | Hn1].
  - (* the first shift keeps a positive mantissa *)
    destruct (@Zdigits2_div_pow2 m n1 Hm) as [Hm1 Hd1]; [ fold d; lia | ]. fold d in Hd1.
    set (m1 := m / 2 ^ n1) in *.
    assert (Hm2pos : 0 < m2) by lia.
    assert (Hd2 : d - n1 <= Zdigits2 m2 <= d - n1 + 1).
    { destruct Hm2 as [-> | ->]; [ lia | ]. pose proof (Zdigits2_succ _ Hm1). lia. }
    set (d2 := Zdigits2 m2) in *.
    set (n2 := Z.max 0 (Z.max (d2 + (e + n1) - 53) (-1074) - (e + n1))).
    destruct (@Zdigits2_div_pow2 m2 n2 Hm2pos) as [Hm3 Hd3]; [ fold d2; lia | ]. fold d2 in Hd3.
    left. destruct (m2 / 2 ^ n2) as [| p | p] eqn:E3; try lia.
    assert (Hle : (e + n1 + n2 <=? 971) = true) by (apply Z.leb_le; lia).
    rewrite Hle. exists p, (e + n1 + n2). split; [ reflexivity | ].
    rewrite Hd3. lia.
  - (* the first shift leaves nothing: the value is below the subnormals *)
    assert (Hm1 : m / 2 ^ n1 = 0) by (apply Zdigits2_div_small; [ assumption | fold d; lia ]).
    rewrite Hm1 in Hm2.
    destruct Hm2 as [-> | ->].
    + right. rewrite Z.div_0_l by (apply Z.pow_nonzero; lia). split; [ reflexivity | lia ].
    + left. simpl Zdigits2.
      replace (Z.max 0 (Z.max (1 + (e + n1) - 53) (-1074) - (e + n1))) with 0 by lia.
      simpl. replace (e + n1 + 0) with (-1074) by lia. simpl.
      exists 1%positive, (-1074). split; [ reflexivity | ]. simpl. lia.
Qed.

Lemma Zdigits2_mul_pow2 (m n : Z) :
  0 < m -> 0 <= n -> Zdigits2 (m * 2 ^ n) = Zdigits2 m + n.
Proof.
  intros Hm Hn. destruct (Zdigits2_bounds m Hm) as [Hlo Hhi].
  pose proof (Zdigits2_pos_pos m Hm) as Hd.
  assert (Hp : 0 < 2 ^ n) by (apply Z.pow_pos_nonneg; lia).
  assert (Hmp : 0 < m * 2 ^ n) by lia.
  apply Z.le_antisymm.
  - apply Zdigits2_le; [ assumption | ].
    rewrite Z.pow_add_r by lia. apply Z.mul_lt_mono_pos_r; assumption.
  - apply Zdigits2_ge; [ assumption | ].
    replace (Zdigits2 m + n - 1) with (Zdigits2 m - 1 + n) by lia.
    rewrite Z.pow_add_r by lia. apply Z.mul_le_mono_nonneg_r; lia.
Qed.

Lemma Zdigits2_mul (a b : Z) :
  0 < a -> 0 < b -> Zdigits2 (a * b) <= Zdigits2 a + Zdigits2 b.
Proof.
  intros Ha Hb.
  destruct (Zdigits2_bounds a Ha) as [_ Ha'], (Zdigits2_bounds b Hb) as [_ Hb'].
  pose proof (Zdigits2_pos_pos a Ha). pose proof (Zdigits2_pos_pos b Hb).
  apply Zdigits2_le; [ lia | ].
  rewrite Z.pow_add_r by lia.
  apply Z.mul_lt_mono_nonneg; lia.
Qed.

Lemma iter_xO (d mx : positive) : Zpos (Pos.iter xO mx d) = Zpos mx * 2 ^ Zpos d.
Proof.
  induction d as [| d IH] using Pos.peano_ind.
  - simpl. lia.
  - rewrite Pos.iter_succ, Pos2Z.inj_xO, IH, Pos2Z.inj_succ, Z.pow_succ_r by lia. ring.
Qed.

(** [shl_align] keeps the value and lowers the exponent to at most [ex']. *)
Lemma shl_align_spec (mx : positive) (ex ex' : Z) :
  let '(mz, ez) := shl_align mx ex ex' in
  ez = Z.min ex ex' /\ Zpos mz = Zpos mx * 2 ^ (ex - ez).
Proof.
  unfold shl_align. destruct (ex' - ex) as [| d | d] eqn:E.
  - split; [ lia | ]. replace (ex - ex) with 0 by lia. simpl. lia.
  - split; [ lia | ]. replace (ex - ex) with 0 by lia. simpl. lia.
  - split; [ lia | ]. rewrite iter_xO. f_equal. f_equal. lia.
Qed.

(** [binary_round] of a positive mantissa in the normal range is a finite
    float of the same sign. *)
Lemma binary_round_normal (s : bool) (m : positive) (e : Z) :
  -1074 <= Zdigits2 (Zpos m) + e - 53 ->
  Zdigits2 (Zpos m) + e + 1 <= 1024 ->
  exists m' e',
    binary_round prec emax s m e = S754_finite s m' e'
    /\ Zdigits2 (Zpos m) + e <= Zdigits2 (Zpos m') + e' <= Zdigits2 (Zpos m) + e + 1.
Proof.
  intros Hlo Hhi. unfold binary_round.
  pose proof (shl_align_spec m e (fexp prec emax (Zpos (digits2_pos m) + e))) as Hal.
  destruct (shl_align m e (fexp prec emax (Zpos (digits2_pos m) + e))) as [mz ez].
  destruct Hal as [Hez Hmz].
  change (Zpos (digits2_pos m)) with (Zdigits2 (Zpos m)) in *.
  rewrite fexp64_eq in Hez.
  assert (Hdz : Zdigits2 (Zpos mz) + ez = Zdigits2 (Zpos m) + e).
  { rewrite Hmz, Zdigits2_mul_pow2 by lia. lia. }
  destruct (@BRA_range s (Zpos mz) ez loc_Exact) as [(m' & e' & -> & Hup & Hdn) | [_ Hbad]];
    try lia.
  exists m', e'. split; [ reflexivity | ]. lia.
Qed.

Lemma valid_finite (s : bool) (m : positive) (e : Z) :
  valid_binary (S754_finite s m e) = true ->
  Zdigits2 (Zpos m) <= 53 /\ -1074 <= e <= 971
  /\ (Zdigits2 (Zpos m) = 53 \/ e = -1074).
Proof.
  unfold valid_binary, SpecFloat.valid_binary, bounded, canonical_mantissa. intros H.
  apply andb_true_iff in H. destruct H as [Hc He].
  apply Z.eqb_eq in Hc. apply Z.leb_le in He.
  change (Zpos (digits2_pos m)) with (Zdigits2 (Zpos m)) in Hc.
  rewrite fexp64_eq in Hc. change (emax - prec) with 971 in He. lia.
Qed.

Lemma SFmul_bounded (x y : spec_float) (kx ky : Z) :
  bounded_by kx x -> bounded_by ky y -> kx + ky <= 900 ->
  bounded_by (Z.max (kx + ky) (-1074) + 1) (SFmul prec emax x y).
Proof.
  intros Hx Hy Hk.
  destruct x as [sx | sx | | sx mx ex], y as [sy | sy | | sy my ey];
    cbn [bounded_by] in Hx, Hy; try contradiction; try exact I.
  unfold SFmul.
  pose proof (@Zdigits2_mul (Zpos mx) (Zpos my) eq_refl eq_refl) as Hd.
  pose proof (@Zdigits2_pos_pos (Zpos mx) eq_refl).
  pose proof (@Zdigits2_pos_pos (Zpos my) eq_refl).
  change (Zpos (mx * my)) with (Zpos mx * Zpos my).
  destruct (@BRA_range (xorb sx sy) (Zpos mx * Zpos my) (ex + ey) loc_Exact)
    as [(m' & e' & -> & Hup & _) | [-> _]]; try lia; [ | exact I ].
  cbn [bounded_by]. lia.
Qed.

Lemma shl_align_fst (mx : positive) (ex ex' : Z) :
  ex' <= ex -> Zpos (fst (shl_align mx ex ex')) = Zpos mx * 2 ^ (ex - ex').
Proof.
  intros H. pose proof (shl_align_spec mx ex ex') as Hs.
  destruct (shl_align mx ex ex') as [mz ez]. destruct Hs as [Hez Hmz].
  simpl fst. rewrite Hmz. f_equal. f_equal. lia.
Qed.

(** [1.0 - t] for [|t| < 2^-4] is a positive finite float. *)
Lemma SFsub_one_small (t : spec_float) :
  valid_binary t = true -> bounded_by (-4) t ->
  exists m e,
    SFsub prec emax sf_one t = S754_finite false m e
    /\ 0 <= Zdigits2 (Zpos m) + e <= 2.
Proof.
  intros Hv Hb. destruct t as [st | st | | st mt et]; cbn [bounded_by] in Hb; try contradiction.
  - exists 4503599627370496%positive, (-52). split; [ reflexivity | simpl; lia ].
  - destruct (valid_finite _ _ _ Hv) as (Hd & He & Hc).
    pose proof (@Zdigits2_pos_pos (Zpos mt) eq_refl) as Hdp.
    destruct (@Zdigits2_bounds (Zpos mt) eq_refl) as [_ Hmt].
    assert (Het : et <= -57) by lia.
    unfold sf_one, SFsub.
    replace (Z.min (-52) et) with et by lia.
    rewrite !shl_align_fst by lia.
    replace (et - et) with 0 by lia. rewrite Z.pow_0_r, Z.mul_1_r.
    change (Zpos 4503599627370496) with (2 ^ 52).
    rewrite <- Z.pow_add_r by lia. replace (52 + (-52 - et)) with (- et) by lia.
    set (A := 2 ^ (- et)).
    assert (HA16 : 2 ^ (-4 - et) * 16 = A).
    { unfold A. change 16 with (2 ^ 4). rewrite <- Z.pow_add_r by lia. f_equal. lia. }
    assert (HA2 : 2 ^ (- et - 1) * 2 = A).
    { unfold A. change 2 with (2 ^ 1) at 2. rewrite <- Z.pow_add_r by lia. f_equal. lia. }
    assert (HB : Zpos mt < 2 ^ (-4 - et)).
    { assert (2 ^ Zdigits2 (Zpos mt) <= 2 ^ (-4 - et)) by (apply Z.pow_le_mono_r; lia). lia. }
    assert (Hp : 0 < 2 ^ (-4 - et)) by (apply Z.pow_pos_nonneg; lia).
    set (diff := cond_Zopp false A - cond_Zopp st (Zpos mt)).
    assert (Hdiff : 2 ^ (- et - 1) <= diff < 2 ^ (- et + 1)).
    { replace (2 ^ (- et + 1)) with (A * 2) by (unfold A; rewrite Z.pow_add_r by lia; reflexivity).
      unfold diff, cond_Zopp. destruct st; lia. }
    assert (Hpos : 0 < diff).
    { assert (0 < 2 ^ (- et - 1)) by (apply Z.pow_pos_nonneg; lia). lia. }
    assert (Hdd : - et <= Zdigits2 diff <= - et + 1).
    { split; [ apply Zdigits2_ge | apply Zdigits2_le ]; lia. }
    unfold binary_normalize. destruct diff as [| p | p]; try lia.
    destruct (@binary_round_normal false p et) as (m' & e' & -> & Hr); try lia.
    exists m', e'. split; [ reflexivity | lia ].
Qed.

(** The square root of a positive normal float is a positive finite
    float. *)
Lemma SFsqrt_positive (m : positive) (e : Z) :
  valid_binary (S754_finite false m e) = true ->
  -1000 <= Zdigits2 (Zpos m) + e <= 1000 ->
  exists m' e', SFsqrt prec emax (S754_finite false m e) = S754_finite false m' e'.
Proof.
  intros Hv Hr. destruct (valid_finite _ _ _ Hv) as (Hd & He & Hc).
  assert (Hd53 : Zdigits2 (Zpos m) = 53) by lia. clear Hc Hd.
  destruct (@Zdigits2_bounds (Zpos m) eq_refl) as [Hlo Hhi]. rewrite Hd53 in Hlo, Hhi.
  unfold SFsqrt, SFsqrt_core_binary. rewrite Hd53, !Z.div2_div, fexp64_eq.
  pose proof (Z.div_mod e 2 ltac:(lia)) as Hdm.
  pose proof (Z.mod_pos_bound e 2 ltac:(lia)) as Hmod.
  set (h := e / 2) in *.
  replace ((53 + e + 1) / 2) with (27 + h)
    by (unfold h; replace (53 + e + 1) with (e + 27 * 2) by lia; rewrite Z.div_add by lia; lia).
  replace (Z.min (Z.max (27 + h - 53) (-1074)) h) with (h - 26) by lia.
  assert (Hs : e - 2 * (h - 26) = 52 \/ e - 2 * (h - 26) = 53) by lia.
  assert (Hm' : exists m' : Z,
             match e - 2 * (h - 26) with
             | Zpos _ => Z.shiftl (Zpos m) (e - 2 * (h - 26))
             | Z0 => Zpos m
             | Zneg _ => 0
             end = m'
             /\ 2 ^ 104 <= m' < 2 ^ 106).
  { destruct Hs as [-> | ->]; eexists; (split; [ reflexivity | ]);
      rewrite Z.shiftl_mul_pow2 by lia.
    - change (2 ^ 104) with (2 ^ 52 * 2 ^ 52). change (2 ^ 106) with (2 ^ 54 * 2 ^ 52).
      change (2 ^ (53 - 1)) with (2 ^ 52) in Hlo. change (2 ^ 54) with (2 * 2 ^ 53). lia.
    - change (2 ^ 104) with (2 ^ 51 * 2 ^ 53). change (2 ^ 106) with (2 ^ 53 * 2 ^ 53).
      change (2 ^ (53 - 1)) with (2 * 2 ^ 51) in Hlo. lia. }
  destruct Hm' as (m' & -> & Hm'lo & Hm'hi).
  pose proof (Z.sqrtrem_spec m' ltac:(lia)) as Hsq.
  destruct (Z.sqrtrem m') as [q r]. destruct Hsq as [Hq Hrr].
  assert (Hq53 : 2 ^ 52 <= q < 2 ^ 53).
  { change (2 ^ 104) with (2 ^ 52 * 2 ^ 52) in Hm'lo.
    change (2 ^ 106) with (2 ^ 53 * 2 ^ 53) in Hm'hi.
    assert (0 < 2 ^ 52) by reflexivity. assert (0 < 2 ^ 53) by reflexivity.
    generalize dependent (2 ^ 52). generalize dependent (2 ^ 53). intros. nia. }
  assert (Hqpos : 0 < q) by (assert (0 < 2 ^ 52) by reflexivity; lia).
  assert (Hdq : Zdigits2 q = 53).
  { apply Z.le_antisymm; [ apply Zdigits2_le | apply Zdigits2_ge ]; lia. }
  match goal with
  | |- context [binary_round_aux prec emax false q (h - 26) ?l] =>
      destruct (@BRA_range false q (h - 26) l) as [(m'' & e'' & -> & _) | [_ Hbad]]
  end; try lia.
  now exists m'', e''.
Qed.

Lemma is_finite_of_spec (x : float) :
  (exists s, Prim2SF x = S754_zero s) \/ (exists s m e, Prim2SF x = S754_finite s m e) ->
  is_finite x = true.
Proof.
  unfold is_finite, is_nan, is_infinity.
  rewrite !FloatAxioms.eqb_spec, abs_spec.
  change (Prim2SF infinity) with (S754_infinity false).
  intros [[s ->] | (s & m & e & ->)]; simpl.
  - reflexivity.
  - now rewrite SFeqb_refl_finite.
Qed.

Lemma bounded_by_finite (k : Z) (x : float) :
  bounded_by k (Prim2SF x) -> is_finite x = true.
Proof.
  intros H. apply is_finite_of_spec.
  destruct (Prim2SF x) as [s | s | | s m e]; simpl in H; try contradiction.
  - left. now exists s.
  - right. now exists s, m, e.
Qed.

(** A float whose absolute value is at most the positive float
    [mc * 2^ec] is below [2^(53 + ec)]. *)
Lemma abs_leb_bounded (x c : float) (mc : positive) (ec : Z) :
  Prim2SF c = S754_finite false mc ec ->
  (abs x <=? c)%float = true ->
  bounded_by (53 + ec) (Prim2SF x).
Proof.
  intros Hc H. rewrite leb_spec, abs_spec, Hc in H.
  pose proof (Prim2SF_valid x) as Hv.
  destruct (Prim2SF x) as [s | s | | s m e]; try discriminate; [ exact I | ].
  destruct (valid_finite _ _ _ Hv) as (Hd & _).
  cbn [bounded_by]. unfold SFleb, SFabs, SFcompare in H.
  destruct (Z.compare_spec e ec); try discriminate; lia.
Qed.

Lemma math_1_ok (f : float -> float) (x : float) :
  is_finite (f x) = true -> math_1 f x = Ok (f x).
Proof.
  unfold math_1, is_finite. intros H.
  apply negb_true_iff, orb_false_iff in H. destruct H as [-> ->]. reflexivity.
Qed.

Lemma is_finite_not_nan (x : float) : is_finite x = true -> is_nan x = false.
Proof. unfold is_finite. intros H. apply negb_true_iff, orb_false_iff in H. tauto. Qed.

Lemma is_finite_not_infinity (x : float) : is_finite x = true -> is_infinity x = false.
Proof. unfold is_finite. intros H. apply negb_true_iff, orb_false_iff in H. tauto. Qed.

Lemma abs_opp (x : float) : abs (- x) = abs x.
Proof.
  apply Prim2SF_inj. rewrite !abs_spec, opp_spec.
  destruct (Prim2SF x); reflexivity.
Qed.

Lemma abs_le_1_bounded (x : float) :
  (abs x <=? 1)%float = true -> bounded_by 1 (Prim2SF x).
Proof. apply (@abs_leb_bounded x 1%float 4503599627370496 (-52)). reflexivity. Qed.

Section Bounds.

Variable M : Libm.
Hypothesis HB : LibmBounds M.

Lemma pow_two_ecc_bounded :
  exists p, pow_two (Arith:=float_arith M) E_E = Ok p /\ bounded_by (-6) (Prim2SF p).
Proof.
  pose proof (@ecc_bound M HB) as Hp.
  apply (@abs_leb_bounded _ 0x1p-7%float 4503599627370496 (-59) eq_refl) in Hp.
  exists (libm_pow M (float_of_dec 81819221456 (-12)) 2%float). split; [ | exact Hp ].
  change (E_E (AR:=float_arith M)) with (float_of_dec 81819221456 (-12)).
  cbn [pow_two float_arith]. unfold float_pow_two.
  set (c := float_of_dec 81819221456 (-12)) in *.
  assert (Hc : c = 0x1.4f21ac056739bp-4%float) by (vm_compute; reflexivity).
  replace (is_nan c) with false by (rewrite Hc; reflexivity).
  replace (is_infinity c) with false by (rewrite Hc; reflexivity).
  replace (c =? 0)%float with false by (rewrite Hc; reflexivity).
  replace (c <? 0)%float with false by (rewrite Hc; reflexivity).
  replace (c =? 1)%float with false by (rewrite Hc; reflexivity).
  now rewrite (is_finite_not_infinity _ (bounded_by_finite _ _ Hp)).
Qed.

Lemma pow_two_bounded (r : float) :
  (abs r <=? 1)%float = true ->
  exists q, pow_two (Arith:=float_arith M) r = Ok q /\ bounded_by 1 (Prim2SF q).
Proof.
  intros Hr. pose proof (bounded_by_finite _ _ (abs_le_1_bounded _ Hr)) as Hfin.
  cbn [pow_two float_arith]. unfold float_pow_two.
  rewrite (is_finite_not_nan _ Hfin), (is_finite_not_infinity _ Hfin).
  destruct (r =? 0)%float.
  { exists 0%float. split; [ reflexivity | exact I ]. }
  set (iv := if (r <? 0)%float then (- r)%float else r).
  assert (Hiv : (abs iv <=? 1)%float = true).
  { unfold iv. destruct (r <? 0)%float; [ now rewrite abs_opp | assumption ]. }
  destruct (iv =? 1)%float.
  { exists 1%float. split; [ reflexivity | now vm_compute ]. }
  pose proof (abs_le_1_bounded _ (@pow_bound M HB _ Hiv)) as Hq.
  rewrite (is_finite_not_infinity _ (bounded_by_finite _ _ Hq)).
  eexists. split; [ reflexivity | exact Hq ].
Qed.

Lemma math_sin_bounded (x : float) :
  is_finite x = true ->
  math_sin (Arith:=float_arith M) x = Ok (libm_sin M x)
  /\ (abs (libm_sin M x) <=? 1)%float = true.
Proof.
  intros Hx. pose proof (@sin_bound M HB _ Hx) as Hs. split; [ | exact Hs ].
  cbn [math_sin float_arith]. apply math_1_ok.
  exact (bounded_by_finite _ _ (abs_le_1_bounded _ Hs)).
Qed.

Lemma math_cos_bounded (x : float) :
  is_finite x = true ->
  math_cos (Arith:=float_arith M) x = Ok (libm_cos M x).
Proof.
  intros Hx. pose proof (@cos_bound M HB _ Hx) as Hs.
  cbn [math_cos float_arith]. apply math_1_ok.
  exact (bounded_by_finite _ _ (abs_le_1_bounded _ Hs)).
Qed.

(** For a finite latitude the denominator is a positive finite float. *)
Lemma calc_denom_positive (lat_rad : float) :
  is_finite lat_rad = true ->
  exists d m e,
    calc_denom (AR:=float_arith M) E_E lat_rad = Ok d
    /\ Prim2SF d = S754_finite false m e.
Proof.
  intros Hlat. unfold calc_denom.
  destruct pow_two_ecc_bounded as (p & -> & Hp). cbv beta iota delta [bind].
  destruct (math_sin_bounded _ Hlat) as [-> Hs]. cbv beta iota delta [bind].
  destruct (pow_two_bounded _ Hs) as (q & -> & Hq). cbv beta iota delta [bind].
  change (f_1_0 (AR:=float_arith M)) with 1%float.
  cbn [sub mul math_sqrt float_arith].
  pose proof (SFmul_bounded _ _ _ _ Hp Hq ltac:(lia)) as Ht.
  rewrite <- mul_spec in Ht. replace (Z.max (-6 + 1) (-1074) + 1) with (-4) in Ht by lia.
  destruct (SFsub_one_small _ (Prim2SF_valid (p * q)) Ht) as (ma & ea & Ha & Hra).
  change sf_one with (Prim2SF 1) in Ha. rewrite <- sub_spec in Ha.
  assert (Hva : valid_binary (S754_finite false ma ea) = true)
    by (rewrite <- Ha; apply Prim2SF_valid).
  destruct (SFsqrt_positive _ _ Hva ltac:(lia)) as (md & ed & Hd).
  rewrite <- Ha, <- sqrt_spec in Hd.
  exists (PrimFloat.sqrt (1 - p * q)%float), md, ed. split; [ | exact Hd ].
  apply math_1_ok. apply is_finite_of_spec. right. now exists false, md, ed.
Qed.

End Bounds.

End Rounding.

Set Implicit Arguments.

Section Binary64NoException.

Lemma unit_clamp_bound (y : float) : (abs (unit_clamp y) <=? 1)%float = true.
Proof.
  unfold unit_clamp. destruct (abs y <=? 1)%float eqn:E; [ exact E | reflexivity ].
Qed.

Lemma taylor_libm_bounds : LibmBounds taylor_libm.
Proof.
  split; cbn [libm_sin libm_cos libm_pow taylor_libm].
  - intros x ->. apply unit_clamp_bound.
  - intros x ->. apply unit_clamp_bound.
  - intros x Hx. change (2 =? 2)%float with true. cbv iota.
    rewrite Hx. apply unit_clamp_bound.
  - vm_compute. reflexivity.
Qed.

(** A float with a positive mantissa is finite, above zero and different
    from zero. *)
Lemma positive_float (d : float) (m : positive) (e : Z) :
  Prim2SF d = S754_finite false m e ->
  (0 <? d)%float = true /\ (d =? 0)%float = false /\ is_finite d = true.
Proof.
  intros Hd. rewrite ltb_spec, FloatAxioms.eqb_spec, Hd.
  change (Prim2SF 0) with (S754_zero false).
  repeat split. apply is_finite_of_spec. right. now exists false, m, e.
Qed.

Variable M : Libm.
Hypothesis HB : LibmBounds M.

(** With finite angles in radians the position of the origin is computed
    without an exception. *)
Lemma origin_r_no_exception (lat lon o_hae_km : float) :
  is_finite lat = true -> is_finite lon = true ->
  exists r, origin_r (AR:=float_arith M) lat lon o_hae_km = Ok r.
Proof.
  intros Hlat Hlon.
  destruct (calc_denom_positive M HB lat Hlat) as (d & m & e & Hden & Hd).
  destruct (@positive_float d m e Hd) as (_ & Hd0 & _).
  unfold origin_r. rewrite Hden.
  cbv beta iota delta [bind]. cbn [truediv float_arith]. unfold float_div.
  rewrite Hd0. cbv beta iota delta [bind].
  rewrite !(math_cos_bounded M HB lat Hlat), !(math_cos_bounded M HB lon Hlon).
  destruct (math_sin_bounded M HB lat Hlat) as [Hsl _].
  destruct (math_sin_bounded M HB lon Hlon) as [Hsn _].
  rewrite !Hsl, !Hsn. cbv beta iota zeta delta [bind].
  eexists. reflexivity.
Qed.

(** With finite angles in radians the script raises no exception,
    whatever the height and the SEZ vector. *)
Lemma sez_to_ecef_no_exception (o_lat_deg o_long_deg o_hae_km s_km e_km z_km : float) :
  is_finite (o_lat_deg * float_pi / 180)%float = true ->
  is_finite (o_long_deg * float_pi / 180)%float = true ->
  exists ecef,
    sez_to_ecef (AR:=float_arith M) o_lat_deg o_long_deg o_hae_km s_km e_km z_km
    = Ok ecef.
Proof.
  intros Hlat Hlon. unfold sez_to_ecef. rewrite !deg_to_rad_float.
  cbv beta iota delta [bind].
  set (lat := (o_lat_deg * float_pi / 180)%float) in *.
  set (lon := (o_long_deg * float_pi / 180)%float) in *.
  destruct (calc_denom_positive M HB lat Hlat) as (d & m & e & Hden & Hd).
  destruct (@positive_float d m e Hd) as (_ & Hd0 & _).
  unfold origin_r, rotate, Ry_lat, Rz_long. rewrite Hden.
  cbv beta iota delta [bind]. cbn [truediv float_arith]. unfold float_div.
  rewrite Hd0. cbv beta iota delta [bind].
  rewrite !(math_cos_bounded M HB lat Hlat), !(math_cos_bounded M HB lon Hlon).
  destruct (math_sin_bounded M HB lat Hlat) as [Hsl _].
  destruct (math_sin_bounded M HB lon Hlon) as [Hsn _].
  rewrite !Hsl, !Hsn. cbv beta iota zeta delta [bind].
  eexists. reflexivity.
Qed.

(** The SEZ vector [(0, 0, 0)], for every origin with finite angles in
    radians: the script returns the position of the origin. *)
Theorem zero_sez_returns_origin_on_binary64 (o_lat_deg o_long_deg o_hae_km : float) :
  is_finite (o_lat_deg * float_pi / 180)%float = true ->
  is_finite (o_long_deg * float_pi / 180)%float = true ->
  exists r ecef,
    origin_r (AR:=float_arith M)
      (o_lat_deg * float_pi / 180)%float (o_long_deg * float_pi / 180)%float
      o_hae_km = Ok r
    /\ sez_to_ecef (AR:=float_arith M) o_lat_deg o_long_deg o_hae_km
         0%float 0%float 0%float = Ok ecef
    /\ same_vec ecef r = true.
Proof.
  intros Hlat Hlon.
  destruct (origin_r_no_exception _ _ o_hae_km Hlat Hlon) as (r & Hr).
  destruct (@zero_sez_given_origin M o_lat_deg o_long_deg o_hae_km r Hlat Hlon Hr)
    as (ecef & Hrun & Hsame).
  exists r, ecef. split; [ exact Hr | split; [ exact Hrun | exact Hsame ] ].
Qed.

End Binary64NoException.

(** Powers of two with an integer exponent, as the Standard Library's
    [powerRZ], in terms of integer powers. *)
Lemma powerRZ_2_neg (p : positive) : powerRZ 2 (Zneg p) = (/ IZR (2 ^ Zpos p))%R.
Proof.
  unfold powerRZ. f_equal. rewrite pow_IZR. f_equal. rewrite positive_nat_Z. reflexivity.
Qed.

Lemma powerRZ_2_pos (p : positive) : powerRZ 2 (Zpos p) = IZR (2 ^ Zpos p).
Proof.
  unfold powerRZ. rewrite pow_IZR. f_equal. rewrite positive_nat_Z. reflexivity.
Qed.

Section Binary64Claims.

Local Open Scope string_scope.

(** C4: for the origin [lat = 0], [lon = 0], [hae = 0] and the SEZ vector
    [(0, 0, 0)] the script prints three numbers and runs to its end, on
    every platform: the first is the float nearest to 6378.1363 (within
    [1e-12] of it), the second and the third are [0.0]. *)
Theorem equator_prime_meridian_known_value (M : Libm) :
  LibmFacts M ->
  exists ecef_x_km : float,
    stdout (main (RT:=python M) ["sez_to_ecef.py"; "0"; "0"; "0"; "0"; "0"; "0"])
    = [Num ecef_x_km; Num 0%float; Num 0%float]
    /\ exit (main (RT:=python M) ["sez_to_ecef.py"; "0"; "0"; "0"; "0"; "0"; "0"])
       = Completed
    /\ ecef_x_km = 0x1.8ea22e48e8a72p+12%float
    /\ (Rabs (B2R ecef_x_km - 6378.1363) <= 1 / 1000000000000)%R.
Proof.
  intros HM. exists 0x1.8ea22e48e8a72p+12%float.
  rewrite (main_zero_any_libm HM).
  split; [ vm_compute; reflexivity | ].
  split; [ vm_compute; reflexivity | ].
  split; [ reflexivity | ].
  unfold B2R.
  replace (Prim2SF 0x1.8ea22e48e8a72p+12%float)
    with (S754_finite false 7012835025390194 (-40)) by (vm_compute; reflexivity).
  cbn [SF2R cond_Zopp]. rewrite powerRZ_2_neg.
  replace (2 ^ 40)%Z with 1099511627776%Z by (vm_compute; reflexivity).
  apply Rabs_le. split; lra.
Qed.

(** C10: [float()] accepts ['nan'], ['inf'] and ['-inf']: given as the
    height, with every other argument ["0"], each passes the [try] block
    as a float that is not finite, the script prints three numbers and
    runs to its end, and the first number it prints is not finite. *)
Theorem non_finite_arguments_are_accepted (M : Libm) (a : string) :
  LibmFacts M ->
  In a ["nan"; "inf"; "-inf"] ->
  exists o_hae_km ecef_x_km ecef_y_km ecef_z_km : float,
    py_float (Runtime:=python M) a = Some o_hae_km
    /\ is_finite o_hae_km = false
    /\ parse_args (RT:=python M) "0" "0" a "0" "0" "0"
       = Some (0, 0, o_hae_km, 0, 0, 0)%float
    /\ stdout (main (RT:=python M) ["sez_to_ecef.py"; "0"; "0"; a; "0"; "0"; "0"])
       = [Num ecef_x_km; Num ecef_y_km; Num ecef_z_km]
    /\ exit (main (RT:=python M) ["sez_to_ecef.py"; "0"; "0"; a; "0"; "0"; "0"])
       = Completed
    /\ is_finite ecef_x_km = false.
Proof.
  intros HM Ha.
  destruct Ha as [<- | [<- | [<- | []]]]; rewrite (main_zero_any_libm HM).
  - exists nan, nan, nan, nan. repeat split.
  - exists infinity, infinity, nan, nan. repeat split.
  - exists neg_infinity, neg_infinity, nan, nan. repeat split.
Qed.

(** C2, as stated, fails on binary64: the inputs [0 0 1e308 0 0 1e308]
    are finite and the first output is [1e308 + 1e308], which overflows
    to infinity. *)
Lemma finite_inputs_can_overflow :
  ~ (forall M : Libm, LibmFacts M -> LibmBounds M ->
     forall lat lon h s e z : float,
       all_finite (lat, lon, h, s, e, z) = true ->
       exists lat_rad denominator ecef,
         deg_to_rad (AR:=float_arith M) lat = Ok lat_rad
         /\ calc_denom (AR:=float_arith M) E_E lat_rad = Ok denominator
         /\ (0 <? denominator)%float = true
         /\ sez_to_ecef (AR:=float_arith M) lat lon h s e z = Ok ecef
         /\ vec_finite ecef = true).
Proof.
  intros H.
  destruct (H taylor_libm taylor_libm_facts taylor_libm_bounds
              0%float 0%float (float_of_dec 1 308) 0%float 0%float (float_of_dec 1 308)
              eq_refl)
    as (lat_rad & denominator & ecef & _ & _ & _ & Hrun & Hfin).
  vm_compute in Hrun. injection Hrun as <-. vm_compute in Hfin. discriminate.
Qed.

(** On every platform the finite arguments [0 0 1e308 0 0 1e308] run to
    completion and print [inf], [0.0], [0.0], in this order. *)
Theorem finite_arguments_print_infinity (M : Libm) :
  LibmFacts M ->
  all_finite (0, 0, float_of_dec 1 308, 0, 0, float_of_dec 1 308)%float = true
  /\ stdout (main (RT:=python M)
               ["sez_to_ecef.py"; "0"; "0"; "1e308"; "0"; "0"; "1e308"])
     = [Num infinity; Num 0%float; Num 0%float]
  /\ exit (main (RT:=python M)
             ["sez_to_ecef.py"; "0"; "0"; "1e308"; "0"; "0"; "1e308"])
     = Completed.
Proof.
  intros HM. split; [ reflexivity | ].
  rewrite (main_zero_any_libm HM). split; vm_compute; reflexivity.
Qed.

(** A latitude whose conversion to radians is infinite (the finite
    argument [1e308] overflows in [o_lat_deg * math.pi], the argument
    [inf] is infinite already) makes [math.sin] raise [ValueError]
    outside the [try]: nothing is printed and the run ends in a
    traceback. *)
Theorem infinite_radians_raise (M : Libm) (a : string) :
  LibmFacts M ->
  In a ["1e308"; "inf"] ->
  main (RT:=python M) ["sez_to_ecef.py"; a; "0"; "0"; "0"; "0"; "0"]
  = {| stdout := []; exit := Uncaught ValueError |}.
Proof.
  intros HM Ha. rewrite main_seven. unfold parse_args. cbn [py_float python].
  change (float_of_string "0") with (Some 0%float).
  assert (Hrad : exists x, float_of_string a = Some x
                           /\ deg_to_rad (AR:=float_arith M) x = Ok infinity).
  { destruct Ha as [<- | [<- | []]]; eexists; split; vm_compute; reflexivity. }
  destruct Hrad as (x & -> & Hx).
  unfold compute_and_print, sez_to_ecef.
  change (@rt_arith float (python M)) with (float_arith M).
  rewrite Hx. cbv beta iota delta [bind].
  change (deg_to_rad (AR:=float_arith M) 0%float) with (Ok (A:=float) 0%float).
  cbv beta iota delta [bind].
  unfold origin_r, calc_denom.
  destruct (pow_two_ecc HM) as (p & -> & _). cbv beta iota delta [bind].
  cbn [math_sin float_arith]. unfold math_1.
  rewrite (sin_infinity HM). reflexivity.
Qed.

End Binary64Claims.

(** ** The shapes of a run *)

Section OutcomeShapes.

Context {A : Type} {RT : Runtime A}.

(** The four ways a run can end. *)
Lemma main_cases (sys_argv : list string) :
  (main sys_argv = usage_error /\ List.length sys_argv <> 7%nat)
  \/ (List.length sys_argv = 7%nat
      /\ (main sys_argv = parse_error
          \/ (exists ecef, main sys_argv = printed ecef)
          \/ (exists e, main sys_argv = {| stdout := []; exit := Uncaught e |}))).
Proof.
  destruct (Nat.eq_dec (List.length sys_argv) 7) as [Hlen | Hlen].
  - right. split; [ exact Hlen | ].
    destruct (length_seven _ Hlen) as (a0 & a1 & a2 & a3 & a4 & a5 & a6 & ->).
    rewrite main_seven.
    destruct (parse_args a1 a2 a3 a4 a5 a6) as [[[[[[lat lon] h] s] e] z] |];
      [ | left; reflexivity ].
    right. unfold compute_and_print.
    destruct (sez_to_ecef lat lon h s e z) as [ecef | x].
    + left. exists ecef. reflexivity.
    + right. exists x. reflexivity.
  - left. split; [ apply main_other_length; exact Hlen | exact Hlen ].
Qed.

(** Standard output and the exit status go together: the exit status is
    1 exactly when nothing was printed; the script runs to its end exactly
    when three numbers were printed; the output is one line of text, or
    numbers only, never both. *)
Theorem exit_status_and_output (sys_argv : list string) :
  (exit_code (exit (main sys_argv)) = 1%Z <-> stdout (main sys_argv) = [])
  /\ (exit (main sys_argv) = Completed
      <-> List.length (numeric_output (main sys_argv)) = 3%nat)
  /\ (exit (main sys_argv) = SystemExit
      <-> exists s, stdout (main sys_argv) = [Text s])
  /\ (numeric_output (main sys_argv) = []
      \/ numeric_output (main sys_argv) = stdout (main sys_argv)).
Proof.
  destruct (main_cases sys_argv)
    as [[-> _] | [_ [-> | [[[[x y] z] ->] | [e ->]]]]];
    cbn [usage_error parse_error printed stdout exit exit_code numeric_output
           filter is_num List.length];
    (split; [ split; intros H; try reflexivity; discriminate H | ]);
    (split; [ split; intros H; try reflexivity; discriminate H | ]);
    (split; [ split; [ intros H; try discriminate H; eexists; reflexivity
                     | intros [s H]; try reflexivity; discriminate H ] | ]);
    try (left; reflexivity); right; reflexivity.
Qed.

End OutcomeShapes.

(** ** Infinities and NaN in the SEZ vector, on binary64 *)

Lemma mul_nan_r (a x : float) : is_nan x = true -> is_nan (a * x) = true.
Proof.
  intros Hx. apply is_nan_spec in Hx. apply is_nan_spec.
  rewrite mul_spec, Hx. destruct (Prim2SF a); reflexivity.
Qed.

Lemma add_nan_l (x b : float) : is_nan x = true -> is_nan (x + b) = true.
Proof.
  intros Hx. apply is_nan_spec in Hx. apply is_nan_spec.
  rewrite add_spec, Hx. reflexivity.
Qed.

Lemma add_nan_r (a x : float) : is_nan x = true -> is_nan (a + x) = true.
Proof.
  intros Hx. apply is_nan_spec in Hx. apply is_nan_spec.
  rewrite add_spec, Hx. destruct (Prim2SF a); reflexivity.
Qed.

(** [0 * x] is NaN when [x] is an infinity or NaN. *)
Lemma zero_mul_not_finite (x : float) :
  is_finite x = false -> is_nan (0 * x) = true.
Proof.
  intros Hx. apply is_nan_spec. rewrite mul_spec.
  change (Prim2SF 0) with (S754_zero false).
  destruct (Prim2SF x) as [s | s | | s m e] eqn:E; try reflexivity.
  - rewrite is_finite_of_spec in Hx; [ discriminate | left; exists s; exact E ].
  - rewrite is_finite_of_spec in Hx; [ discriminate | right; exists s, m, e; exact E ].
Qed.

(** One NaN in the column makes every entry of [np.dot] NaN. *)
Lemma row_dot_nan (M : Libm) (a0 a1 a2 v0 v1 v2 : float) :
  is_nan v0 = true \/ is_nan v1 = true \/ is_nan v2 = true ->
  is_nan (row_dot (a0, a1, a2) (v0, v1, v2)) = true.
Proof.
  unfold row_dot. cbn [add mul float_arith]. intros [H | [H | H]].
  - apply add_nan_l, add_nan_l, mul_nan_r, H.
  - apply add_nan_l, add_nan_r, mul_nan_r, H.
  - apply add_nan_r, mul_nan_r, H.
Qed.

Section NonFiniteSez.

Variable M : Libm.
Hypothesis HB : LibmBounds M.

(** An infinity or a NaN among the three SEZ components makes all three
    printed numbers NaN: each rotation multiplies every component by
    every entry of a row, the zeros included, and [0 * inf] is NaN. *)
Theorem non_finite_sez_gives_nan (o_lat_deg o_long_deg o_hae_km s_km e_km z_km : float) :
  is_finite (o_lat_deg * float_pi / 180)%float = true ->
  is_finite (o_long_deg * float_pi / 180)%float = true ->
  is_finite s_km && is_finite e_km && is_finite z_km = false ->
  exists ecef_x_km ecef_y_km ecef_z_km,
    sez_to_ecef (AR:=float_arith M) o_lat_deg o_long_deg o_hae_km s_km e_km z_km
    = Ok (ecef_x_km, ecef_y_km, ecef_z_km)
    /\ is_nan ecef_x_km = true /\ is_nan ecef_y_km = true /\ is_nan ecef_z_km = true.
Proof.
  intros Hlat Hlon Hsez. unfold sez_to_ecef. rewrite !deg_to_rad_float.
  cbv beta iota delta [bind].
  set (lat := (o_lat_deg * float_pi / 180)%float) in *.
  set (lon := (o_long_deg * float_pi / 180)%float) in *.
  destruct (@origin_r_no_exception M HB lat lon o_hae_km Hlat Hlon) as ([[r_x r_y] r_z] & ->).
  cbv beta iota delta [bind].
  unfold rotate, Ry_lat, Rz_long.
  rewrite !(math_cos_bounded M HB lat Hlat), !(math_cos_bounded M HB lon Hlon).
  destruct (math_sin_bounded M HB lat Hlat) as [Hsl _].
  destruct (math_sin_bounded M HB lon Hlon) as [Hsn _].
  rewrite !Hsl, !Hsn. cbv beta iota zeta delta [bind].
  unfold np_dot, vec_add. cbn [add float_arith].
  do 3 eexists. split; [ reflexivity | ].
  set (Ry0 := row_dot _ (s_km, e_km, z_km)).
  assert (Hrot : is_nan Ry0 = true \/ is_nan (row_dot (i_0, i_1, i_0) (s_km, e_km, z_km)) = true
                 \/ is_nan (row_dot (neg (libm_cos M lat), i_0, libm_sin M lat) (s_km, e_km, z_km)) = true).
  { subst Ry0. unfold row_dot. cbn [add mul float_arith].
    change (i_0 (A:=float)) with 0%float.
    destruct (is_finite s_km) eqn:Hs; [ | right; left ].
    - destruct (is_finite e_km) eqn:He; [ | left ].
      + destruct (is_finite z_km) eqn:Hz; [ discriminate Hsez | right; left ].
        apply add_nan_r, zero_mul_not_finite, Hz.
      + apply add_nan_l, add_nan_r, zero_mul_not_finite, He.
    - apply add_nan_l, add_nan_l, zero_mul_not_finite, Hs. }
  repeat split; apply add_nan_r, (row_dot_nan M), Hrot.
Qed.

End NonFiniteSez.


(** *** Sums, quotients and square roots

    Bounds on the binade of a sum, of a quotient by a normal float and of
    a square root: what it takes to keep the results of the script finite. *)

Unset Implicit Arguments.

Section MoreRounding.

Local Open Scope Z_scope.

Lemma bounded_by_mono (k k' : Z) (x : spec_float) :
  k <= k' -> bounded_by k x -> bounded_by k' x.
Proof. destruct x; cbn [bounded_by]; intros; try assumption; lia. Qed.

(** [binary_round] below the overflow threshold: a zero, or a finite
    float one binade above the argument at most. *)
Lemma binary_round_bounded (s : bool) (m : positive) (e : Z) :
  e <= 971 -> Zdigits2 (Zpos m) + e + 1 <= 1024 ->
  bounded_by (Z.max (Zdigits2 (Zpos m) + e) (-1074) + 1) (binary_round prec emax s m e).
Proof.
  intros He Hhi. unfold binary_round.
  pose proof (shl_align_spec m e (fexp prec emax (Zpos (digits2_pos m) + e))) as Hal.
  destruct (shl_align m e (fexp prec emax (Zpos (digits2_pos m) + e))) as [mz ez].
  destruct Hal as [Hez Hmz].
  change (Zpos (digits2_pos m)) with (Zdigits2 (Zpos m)) in *.
  assert (Hdz : Zdigits2 (Zpos mz) + ez = Zdigits2 (Zpos m) + e).
  { rewrite Hmz, Zdigits2_mul_pow2 by lia. lia. }
  destruct (@BRA_range s (Zpos mz) ez loc_Exact) as [(m' & e' & -> & Hup & _) | [-> _]];
    try lia; [ | exact I ].
  cbn [bounded_by]. lia.
Qed.

(** A sum is at most two binades above its larger term. *)
Lemma SFadd_bounded (x y : spec_float) (k : Z) :
  valid_binary x = true -> valid_binary y = true ->
  bounded_by k x -> bounded_by k y -> -1074 <= k <= 1020 ->
  bounded_by (k + 2) (SFadd prec emax x y).
Proof.
  intros Hvx Hvy Hx Hy Hk.
  destruct x as [sx | sx | | sx mx ex], y as [sy | sy | | sy my ey];
    cbn [bounded_by] in Hx, Hy; try contradiction.
  - destruct sx, sy; exact I.
  - cbn [SFadd bounded_by]. lia.
  - cbn [SFadd bounded_by]. lia.
  - destruct (valid_finite _ _ _ Hvx) as (Hdx & Hex & _).
    destruct (valid_finite _ _ _ Hvy) as (Hdy & Hey & _).
    pose proof (@Zdigits2_pos_pos (Zpos mx) eq_refl) as Hdxp.
    pose proof (@Zdigits2_pos_pos (Zpos my) eq_refl) as Hdyp.
    destruct (@Zdigits2_bounds (Zpos mx) eq_refl) as [_ Hmx].
    destruct (@Zdigits2_bounds (Zpos my) eq_refl) as [_ Hmy].
    unfold SFadd.
    set (ez := Z.min ex ey).
    rewrite !shl_align_fst by (unfold ez; lia).
    assert (Hbx : Zpos mx * 2 ^ (ex - ez) < 2 ^ (k - ez)).
    { apply Z.lt_le_trans with (2 ^ Zdigits2 (Zpos mx) * 2 ^ (ex - ez)).
      - apply Z.mul_lt_mono_pos_r; [ apply Z.pow_pos_nonneg; unfold ez; lia | exact Hmx ].
      - rewrite <- Z.pow_add_r by (unfold ez; lia).
        apply Z.pow_le_mono_r; unfold ez; lia. }
    assert (Hby : Zpos my * 2 ^ (ey - ez) < 2 ^ (k - ez)).
    { apply Z.lt_le_trans with (2 ^ Zdigits2 (Zpos my) * 2 ^ (ey - ez)).
      - apply Z.mul_lt_mono_pos_r; [ apply Z.pow_pos_nonneg; unfold ez; lia | exact Hmy ].
      - rewrite <- Z.pow_add_r by (unfold ez; lia).
        apply Z.pow_le_mono_r; unfold ez; lia. }
    assert (Hpx : 0 < Zpos mx * 2 ^ (ex - ez))
      by (apply Z.mul_pos_pos; [ lia | apply Z.pow_pos_nonneg; unfold ez; lia ]).
    assert (Hpy : 0 < Zpos my * 2 ^ (ey - ez))
      by (apply Z.mul_pos_pos; [ lia | apply Z.pow_pos_nonneg; unfold ez; lia ]).
    assert (H2 : 2 ^ (k - ez + 1) = 2 * 2 ^ (k - ez))
      by (rewrite Z.pow_add_r by (unfold ez; lia); change (2 ^ 1) with 2; ring).
    set (a := Zpos mx * 2 ^ (ex - ez)) in *.
    set (b := Zpos my * 2 ^ (ey - ez)) in *.
    assert (Hsum : Z.abs (cond_Zopp sx a + cond_Zopp sy b) < 2 ^ (k - ez + 1)).
    { rewrite H2. unfold cond_Zopp. destruct sx, sy; lia. }
    assert (Hez : ez <= 971) by (unfold ez; lia).
    unfold binary_normalize.
    destruct (cond_Zopp sx a + cond_Zopp sy b) as [| p | p] eqn:Ep; [ exact I | | ].
    + assert (Hd : Zdigits2 (Zpos p) <= k - ez + 1)
        by (apply Zdigits2_le; [ reflexivity | simpl in Hsum; exact Hsum ]).
      apply bounded_by_mono with (2 := binary_round_bounded false p ez Hez ltac:(lia)). lia.
    + assert (Hd : Zdigits2 (Zpos p) <= k - ez + 1)
        by (apply Zdigits2_le; [ reflexivity | simpl in Hsum; exact Hsum ]).
      apply bounded_by_mono with (2 := binary_round_bounded true p ez Hez ltac:(lia)). lia.
Qed.

Lemma BRA_form_nonneg (s : bool) (m e : Z) (l : location) :
  0 <= m ->
  exists m2 : Z,
    let n1 := Z.max 0 (fexp prec emax (Zdigits2 m + e) - e) in
    let m1 := m / 2 ^ n1 in
    let e1 := e + n1 in
    (m2 = m1 \/ m2 = m1 + 1) /\
    let n2 := Z.max 0 (fexp prec emax (Zdigits2 m2 + e1) - e1) in
    binary_round_aux prec emax s m e l =
      match m2 / 2 ^ n2 with
      | Z0 => S754_zero s
      | Zpos p => if (e1 + n2 <=? emax - prec) then S754_finite s p (e1 + n2) else S754_infinity s
      | Zneg _ => S754_nan
      end.
Proof.
  intros Hm. unfold binary_round_aux, shr_fexp.
  assert (H0 : 0 <= shr_m (shr_record_of_loc m l)) by (rewrite shr_record_of_loc_m; lia).
  destruct (shr_m_e (shr_record_of_loc m l) e (fexp prec emax (Zdigits2 m + e) - e) H0) as [Hm1 He1].
  destruct (shr (shr_record_of_loc m l) e (fexp prec emax (Zdigits2 m + e) - e)) as [mrs' e'].
  simpl fst in Hm1. simpl snd in He1. rewrite shr_record_of_loc_m in Hm1.
  set (m2 := round_nearest_even (shr_m mrs') (loc_of_shr_record mrs')).
  exists m2. cbv zeta. split.
  - unfold m2. rewrite <- Hm1. apply round_nearest_even_cases.
  - assert (H2 : 0 <= shr_m (shr_record_of_loc m2 loc_Exact)).
    { rewrite shr_record_of_loc_m. unfold m2.
      assert (0 <= shr_m mrs') by (rewrite Hm1; apply Z.div_pos; [ lia | apply Z.pow_pos_nonneg; lia ]).
      destruct (round_nearest_even_cases (shr_m mrs') (loc_of_shr_record mrs')) as [-> | ->]; lia. }
    destruct (shr_m_e (shr_record_of_loc m2 loc_Exact) e' (fexp prec emax (Zdigits2 m2 + e') - e') H2) as [Hm3 He3].
    destruct (shr (shr_record_of_loc m2 loc_Exact) e' (fexp prec emax (Zdigits2 m2 + e') - e')) as [mrs'' e''].
    simpl fst in Hm3. simpl snd in He3. rewrite shr_record_of_loc_m in Hm3.
    rewrite Hm3, He3, He1. reflexivity.
Qed.

(** Rounding a quotient that is below one unit of the last place gives a
    zero or the float of mantissa 1. *)
Lemma BRA_zero (s : bool) (e : Z) (l : location) :
  -1074 <= e <= 971 ->
  binary_round_aux prec emax s 0 e l = S754_zero s
  \/ binary_round_aux prec emax s 0 e l = S754_finite s 1 e.
Proof.
  intros He.
  destruct (BRA_form_nonneg s 0 e l ltac:(lia)) as (m2 & Hm2 & ->). cbv zeta in Hm2.
  rewrite !fexp64_eq in *. change (emax - prec) with 971.
  change (Zdigits2 0) with 0 in *.
  replace (Z.max 0 (Z.max (0 + e - 53) (-1074) - e)) with 0 in * by lia.
  rewrite Z.pow_0_r, Z.div_1_r, Z.add_0_r in *.
  destruct Hm2 as [-> | ->].
  - left. rewrite Z.div_0_l by (apply Z.pow_nonzero; lia). reflexivity.
  - right. change (Zdigits2 (0 + 1)) with 1.
    replace (Z.max 0 (Z.max (1 + e - 53) (-1074) - e)) with 0 by lia.
    simpl. rewrite Z.add_0_r.
    replace (e <=? 971) with true by (symmetry; apply Z.leb_le; lia). reflexivity.
Qed.

(** A quotient by a normal float of exponent [ey] (so at least
    [2^(52 + ey)]) is bounded. *)
Lemma SFdiv_bounded (x : spec_float) (sy : bool) (my : positive) (ey k : Z) :
  valid_binary x = true -> bounded_by k x -> k <= 1000 ->
  Zdigits2 (Zpos my) = 53 -> -53 <= ey <= 0 ->
  bounded_by (Z.max (k - 52 - ey) (-1074) + 1)
    (SFdiv prec emax x (S754_finite sy my ey)).
Proof.
  intros Hv Hb Hk Hdy Hey.
  destruct x as [sx | sx | | sx mx ex]; cbn [bounded_by] in Hb; try contradiction.
  { exact I. }
  destruct (valid_finite _ _ _ Hv) as (Hd & He & Hc).
  pose proof (@Zdigits2_pos_pos (Zpos mx) eq_refl) as Hdp.
  destruct (@Zdigits2_bounds (Zpos mx) eq_refl) as [Hlo Hhi].
  destruct (@Zdigits2_bounds (Zpos my) eq_refl) as [H52 _].
  rewrite Hdy in H52. change (2 ^ (53 - 1)) with (2 ^ 52) in H52.
  unfold SFdiv, SFdiv_core_binary. rewrite Hdy, fexp64_eq.
  set (d1 := Zdigits2 (Zpos mx)) in *.
  set (e' := Z.min (Z.max (d1 + ex - (53 + ey) - 53) (-1074)) (ex - ey)).
  set (sh := ex - ey - e').
  assert (Hsh : 0 <= sh) by (unfold sh, e'; lia).
  assert (He' : -1074 <= e' <= 971) by (unfold e'; lia).
  assert (Hm' : match sh with
                | 0 => Zpos mx
                | Zpos _ => Z.shiftl (Zpos mx) sh
                | Zneg _ => 0
                end = Zpos mx * 2 ^ sh).
  { destruct sh as [| p | p] eqn:E; [ simpl; lia | | lia ].
    rewrite Z.shiftl_mul_pow2 by lia. reflexivity. }
  rewrite Hm'. clear Hm'.
  pose proof (Z.div_eucl_eq (Zpos mx * 2 ^ sh) (Zpos my) ltac:(lia)) as Heq.
  pose proof (Z.mod_pos_bound (Zpos mx * 2 ^ sh) (Zpos my) ltac:(lia)) as Hmod.
  unfold Z.modulo in Hmod.
  destruct (Z.div_eucl (Zpos mx * 2 ^ sh) (Zpos my)) as [q r].
  assert (Hp : 0 < 2 ^ sh) by (apply Z.pow_pos_nonneg; lia).
  assert (Hq0 : 0 <= q) by nia.
  destruct (Z.eq_dec q 0) as [-> | Hqn].
  - destruct (BRA_zero (xorb sx sy) e' (new_location (Zpos my) r)) as [-> | ->];
      [ exact He' | exact I | ].
    cbn [bounded_by]. change (Zdigits2 1) with 1. unfold e'. lia.
  - assert (Hqpos : 0 < q) by lia.
    assert (Hq52 : q * 2 ^ 52 < 2 ^ (d1 + sh)).
    { rewrite Z.pow_add_r by lia.
      assert (Zpos mx * 2 ^ sh < 2 ^ d1 * 2 ^ sh)
        by (apply Z.mul_lt_mono_pos_r; assumption).
      nia. }
    assert (Ht : 52 < d1 + sh).
    { destruct (Z_lt_le_dec 52 (d1 + sh)) as [H | H]; [ exact H | exfalso ].
      assert (2 ^ (d1 + sh) <= 2 ^ 52) by (apply Z.pow_le_mono_r; lia).
      nia. }
    assert (Hqd : Zdigits2 q <= d1 + sh - 52).
    { apply Zdigits2_le; [ assumption | ].
      replace (d1 + sh) with (52 + (d1 + sh - 52)) in Hq52 by lia.
      rewrite Z.pow_add_r in Hq52 by lia.
      assert (0 < 2 ^ 52) by reflexivity.
      generalize dependent (2 ^ 52). intros. nia. }
    destruct (@BRA_range (xorb sx sy) q e' (new_location (Zpos my) r))
      as [(m' & e'' & -> & Hup & _) | [-> _]]; try (unfold sh in *; lia); [ | exact I ].
    cbn [bounded_by]. unfold sh in *. lia.
Qed.

(** The square root of a positive normal float, with its binade. *)
Lemma SFsqrt_range (m : positive) (e : Z) :
  valid_binary (S754_finite false m e) = true ->
  -1000 <= Zdigits2 (Zpos m) + e <= 1000 ->
  exists m' e',
    SFsqrt prec emax (S754_finite false m e) = S754_finite false m' e'
    /\ 27 + e / 2 <= Zdigits2 (Zpos m') + e' <= 28 + e / 2.
Proof.
  intros Hv Hr. destruct (valid_finite _ _ _ Hv) as (Hd & He & Hc).
  assert (Hd53 : Zdigits2 (Zpos m) = 53) by lia. clear Hc Hd.
  destruct (@Zdigits2_bounds (Zpos m) eq_refl) as [Hlo Hhi]. rewrite Hd53 in Hlo, Hhi.
  unfold SFsqrt, SFsqrt_core_binary. rewrite Hd53, !Z.div2_div, fexp64_eq.
  pose proof (Z.div_mod e 2 ltac:(lia)) as Hdm.
  pose proof (Z.mod_pos_bound e 2 ltac:(lia)) as Hmod.
  set (h := e / 2) in *.
  replace ((53 + e + 1) / 2) with (27 + h)
    by (unfold h; replace (53 + e + 1) with (e + 27 * 2) by lia; rewrite Z.div_add by lia; lia).
  replace (Z.min (Z.max (27 + h - 53) (-1074)) h) with (h - 26) by lia.
  assert (Hs : e - 2 * (h - 26) = 52 \/ e - 2 * (h - 26) = 53) by lia.
  assert (Hm' : exists m' : Z,
             match e - 2 * (h - 26) with
             | Zpos _ => Z.shiftl (Zpos m) (e - 2 * (h - 26))
             | Z0 => Zpos m
             | Zneg _ => 0
             end = m'
             /\ 2 ^ 104 <= m' < 2 ^ 106).
  { destruct Hs as [-> | ->]; eexists; (split; [ reflexivity | ]);
      rewrite Z.shiftl_mul_pow2 by lia.
    - change (2 ^ 104) with (2 ^ 52 * 2 ^ 52). change (2 ^ 106) with (2 ^ 54 * 2 ^ 52).
      change (2 ^ (53 - 1)) with (2 ^ 52) in Hlo. change (2 ^ 54) with (2 * 2 ^ 53). lia.
    - change (2 ^ 104) with (2 ^ 51 * 2 ^ 53). change (2 ^ 106) with (2 ^ 53 * 2 ^ 53).
      change (2 ^ (53 - 1)) with (2 * 2 ^ 51) in Hlo. lia. }
  destruct Hm' as (m' & -> & Hm'lo & Hm'hi).
  pose proof (Z.sqrtrem_spec m' ltac:(lia)) as Hsq.
  destruct (Z.sqrtrem m') as [q r]. destruct Hsq as [Hq Hrr].
  assert (Hq53 : 2 ^ 52 <= q < 2 ^ 53).
  { change (2 ^ 104) with (2 ^ 52 * 2 ^ 52) in Hm'lo.
    change (2 ^ 106) with (2 ^ 53 * 2 ^ 53) in Hm'hi.
    assert (0 < 2 ^ 52) by reflexivity. assert (0 < 2 ^ 53) by reflexivity.
    generalize dependent (2 ^ 52). generalize dependent (2 ^ 53). intros. nia. }
  assert (Hqpos : 0 < q) by (assert (0 < 2 ^ 52) by reflexivity; lia).
  assert (Hdq : Zdigits2 q = 53).
  { apply Z.le_antisymm; [ apply Zdigits2_le | apply Zdigits2_ge ]; lia. }
  match goal with
  | |- context [binary_round_aux prec emax false q (h - 26) ?l] =>
      destruct (@BRA_range false q (h - 26) l) as [(m'' & e'' & -> & Hup & Hdn) | [_ Hbad]]
  end; try lia.
  exists m'', e''. split; [ reflexivity | lia ].
Qed.

End MoreRounding.

Set Implicit Arguments.

(** *** The size of the floats of the script *)

Section Magnitudes.

Local Open Scope Z_scope.

Lemma fmul_bounded (x y : float) (kx ky : Z) :
  bounded_by kx (Prim2SF x) -> bounded_by ky (Prim2SF y) ->
  -1074 <= kx + ky <= 900 ->
  bounded_by (kx + ky + 1) (Prim2SF (x * y)).
Proof.
  intros Hx Hy Hk. rewrite mul_spec.
  apply bounded_by_mono with (2 := SFmul_bounded _ _ _ _ Hx Hy ltac:(lia)). lia.
Qed.

Lemma fadd_bounded (x y : float) (k : Z) :
  bounded_by k (Prim2SF x) -> bounded_by k (Prim2SF y) ->
  -1074 <= k <= 1020 ->
  bounded_by (k + 2) (Prim2SF (x + y)).
Proof.
  intros Hx Hy Hk. rewrite add_spec.
  exact (SFadd_bounded _ _ _ (Prim2SF_valid x) (Prim2SF_valid y) Hx Hy Hk).
Qed.

Lemma fopp_bounded (x : float) (k : Z) :
  bounded_by k (Prim2SF x) -> bounded_by k (Prim2SF (- x)).
Proof. rewrite opp_spec. destruct (Prim2SF x); cbn [SFopp bounded_by]; trivial. Qed.

Lemma fdiv_bounded (x d : float) (md : positive) (ed k : Z) :
  bounded_by k (Prim2SF x) -> k <= 1000 ->
  Prim2SF d = S754_finite false md ed ->
  Zdigits2 (Zpos md) = 53 -> -53 <= ed <= 0 ->
  bounded_by (Z.max (k - 52 - ed) (-1074) + 1) (Prim2SF (x / d)).
Proof.
  intros Hx Hk Hd Hdd Hed. rewrite div_spec, Hd.
  exact (SFdiv_bounded _ false md ed k (Prim2SF_valid x) Hx Hk Hdd Hed).
Qed.

(** An entry of [np.dot] with a row of a rotation matrix: six binades
    above the column at most. *)
Lemma row_dot_bounded (M : Libm) (a0 a1 a2 v0 v1 v2 : float) (k : Z) :
  bounded_by 1 (Prim2SF a0) -> bounded_by 1 (Prim2SF a1) -> bounded_by 1 (Prim2SF a2) ->
  bounded_by k (Prim2SF v0) -> bounded_by k (Prim2SF v1) -> bounded_by k (Prim2SF v2) ->
  0 <= k <= 890 ->
  bounded_by (k + 6) (Prim2SF (row_dot (AR:=float_arith M) (a0, a1, a2) (v0, v1, v2))).
Proof.
  intros Ha0 Ha1 Ha2 Hv0 Hv1 Hv2 Hk. unfold row_dot. cbn [add mul float_arith].
  pose proof (@fmul_bounded _ _ _ _ Ha0 Hv0 ltac:(lia)) as H0.
  pose proof (@fmul_bounded _ _ _ _ Ha1 Hv1 ltac:(lia)) as H1.
  pose proof (@fmul_bounded _ _ _ _ Ha2 Hv2 ltac:(lia)) as H2.
  pose proof (@fadd_bounded _ _ _ H0 H1 ltac:(lia)) as H01.
  replace (k + 6) with (1 + k + 1 + 2 + 2) by lia.
  apply fadd_bounded; [ exact H01 | | lia ].
  apply bounded_by_mono with (2 := H2). lia.
Qed.

End Magnitudes.

(** ** Which angles raise, on binary64 *)

Section Binary64Angles.

Local Open Scope string_scope.

(** A number of degrees up to [2^897] in absolute value is finite in
    radians. *)
Lemma deg_to_rad_finite (x_deg : float) :
  (abs x_deg <=? 0x1p+897)%float = true ->
  is_finite (x_deg * float_pi / 180)%float = true.
Proof.
  intros Hx.
  apply (@abs_leb_bounded _ 0x1p+897%float 4503599627370496 845 eq_refl) in Hx.
  assert (Hpi : bounded_by 2 (Prim2SF float_pi)) by (vm_compute; discriminate).
  pose proof (SFmul_bounded _ _ _ _ Hx Hpi ltac:(lia)) as Hm.
  rewrite <- mul_spec in Hm.
  change (Z.max (53 + 845 + 2) (-1074) + 1)%Z with 901%Z in Hm.
  exact (bounded_by_finite _ _
           (@fdiv_bounded (x_deg * float_pi) 180 6333186975989760 (-45) 901
              Hm ltac:(lia) ltac:(vm_compute; reflexivity) eq_refl ltac:(lia))).
Qed.

Variable M : Libm.
Hypothesis HB : LibmBounds M.

(** Latitudes and longitudes up to [2^897] degrees in absolute value
    (about [1e270]: every angle of geographic use, and far beyond) are
    finite in radians and run to completion, whatever the height and the
    SEZ vector and however the arguments are converted: three numbers are
    printed, the components of the result in the order x, y, z. *)
Theorem moderate_angles_run_to_completion
  (parse : string -> option float) (a0 a1 a2 a3 a4 a5 a6 : string)
  (o_lat_deg o_long_deg o_hae_km s_km e_km z_km : float) :
  parse_args (RT:=interpreter M parse) a1 a2 a3 a4 a5 a6
  = Some (o_lat_deg, o_long_deg, o_hae_km, s_km, e_km, z_km) ->
  (abs o_lat_deg <=? 0x1p+897)%float = true ->
  (abs o_long_deg <=? 0x1p+897)%float = true ->
  is_finite (o_lat_deg * float_pi / 180)%float = true
  /\ is_finite (o_long_deg * float_pi / 180)%float = true
  /\ exists ecef_x_km ecef_y_km ecef_z_km : float,
       sez_to_ecef (AR:=float_arith M) o_lat_deg o_long_deg o_hae_km s_km e_km z_km
       = Ok (ecef_x_km, ecef_y_km, ecef_z_km)
       /\ stdout (main (RT:=interpreter M parse) [a0; a1; a2; a3; a4; a5; a6])
          = [Num ecef_x_km; Num ecef_y_km; Num ecef_z_km]
       /\ exit (main (RT:=interpreter M parse) [a0; a1; a2; a3; a4; a5; a6])
          = Completed.
Proof.
  intros Hparse Hlat Hlon.
  pose proof (deg_to_rad_finite Hlat) as Flat.
  pose proof (deg_to_rad_finite Hlon) as Flon.
  split; [ exact Flat | ]. split; [ exact Flon | ].
  destruct (@sez_to_ecef_no_exception M HB o_lat_deg o_long_deg o_hae_km s_km e_km z_km
              Flat Flon) as ([[x y] z] & Hrun).
  exists x, y, z. split; [ exact Hrun | ].
  apply (@main_prints float (interpreter M parse) a0 a1 a2 a3 a4 a5 a6 _ x y z Hparse).
  unfold compute_and_print.
  change (@rt_arith float (interpreter M parse)) with (float_arith M).
  rewrite Hrun. reflexivity.
Qed.

(** A run ends in an uncaught exception only when the latitude or the
    longitude is not finite once converted to radians: the count of
    arguments was right and the six conversions succeeded. *)
Theorem uncaught_only_for_non_finite_angles (sys_argv : list string) (x : pyexc) :
  exit (main (RT:=python M) sys_argv) = Uncaught x ->
  exists a0 a1 a2 a3 a4 a5 a6 o_lat_deg o_long_deg o_hae_km s_km e_km z_km,
    sys_argv = [a0; a1; a2; a3; a4; a5; a6]
    /\ parse_args (RT:=python M) a1 a2 a3 a4 a5 a6
       = Some (o_lat_deg, o_long_deg, o_hae_km, s_km, e_km, z_km)
    /\ (is_finite (o_lat_deg * float_pi / 180)%float = false
        \/ is_finite (o_long_deg * float_pi / 180)%float = false).
Proof.
  intros Hexit.
  destruct (Nat.eq_dec (List.length sys_argv) 7) as [Hlen | Hlen].
  2:{ rewrite (main_other_length _ Hlen) in Hexit. discriminate Hexit. }
  destruct (length_seven _ Hlen) as (a0 & a1 & a2 & a3 & a4 & a5 & a6 & ->).
  rewrite main_seven in Hexit.
  destruct (parse_args (RT:=python M) a1 a2 a3 a4 a5 a6)
    as [[[[[[lat lon] h] s] e] z] |] eqn:Hparse; [ | discriminate Hexit ].
  exists a0, a1, a2, a3, a4, a5, a6, lat, lon, h, s, e, z.
  split; [ reflexivity | split; [ exact Hparse | ] ].
  destruct (is_finite (lat * float_pi / 180)%float) eqn:Hlat; [ | left; reflexivity ].
  destruct (is_finite (lon * float_pi / 180)%float) eqn:Hlon; [ | right; reflexivity ].
  exfalso.
  destruct (@sez_to_ecef_no_exception M HB lat lon h s e z Hlat Hlon) as (ecef & Hrun).
  unfold compute_and_print in Hexit.
  change (@rt_arith float (python M)) with (float_arith M) in Hexit.
  rewrite Hrun in Hexit. destruct ecef as [[x0 y0] z0]. discriminate Hexit.
Qed.

End Binary64Angles.

(** ** Finite results, on binary64 *)

Section FiniteOutputs.

Local Open Scope Z_scope.

Variable M : Libm.
Hypothesis HB : LibmBounds M.

(** For a finite latitude the denominator is a normal float between
    [1/2] and [2]. *)
Lemma calc_denom_range (lat_rad : float) :
  is_finite lat_rad = true ->
  exists d m e,
    calc_denom (AR:=float_arith M) E_E lat_rad = Ok d
    /\ Prim2SF d = S754_finite false m e
    /\ Zdigits2 (Zpos m) = 53 /\ -53 <= e <= -51.
Proof.
  intros Hlat. unfold calc_denom.
  destruct (pow_two_ecc_bounded M HB) as (p & -> & Hp). cbv beta iota delta [bind].
  destruct (math_sin_bounded M HB _ Hlat) as [-> Hs]. cbv beta iota delta [bind].
  destruct (pow_two_bounded M HB _ Hs) as (q & -> & Hq). cbv beta iota delta [bind].
  change (f_1_0 (AR:=float_arith M)) with 1%float.
  cbn [sub mul math_sqrt float_arith].
  pose proof (SFmul_bounded _ _ _ _ Hp Hq ltac:(lia)) as Ht.
  rewrite <- mul_spec in Ht. replace (Z.max (-6 + 1) (-1074) + 1) with (-4) in Ht by lia.
  destruct (SFsub_one_small _ (Prim2SF_valid (p * q)) Ht) as (ma & ea & Ha & Hra).
  change sf_one with (Prim2SF 1) in Ha. rewrite <- sub_spec in Ha.
  assert (Hva : valid_binary (S754_finite false ma ea) = true)
    by (rewrite <- Ha; apply Prim2SF_valid).
  destruct (valid_finite _ _ _ Hva) as (Hda & Hea & Hca).
  destruct (SFsqrt_range _ _ Hva ltac:(lia)) as (md & ed & Hd & Hrd).
  rewrite <- Ha, <- sqrt_spec in Hd.
  assert (Hvd : valid_binary (S754_finite false md ed) = true)
    by (rewrite <- Hd; apply Prim2SF_valid).
  destruct (valid_finite _ _ _ Hvd) as (Hdd & Hed & Hcd).
  assert (Hea' : -53 <= ea <= -51) by lia.
  assert (Hh : -27 <= ea / 2 <= -26).
  { pose proof (Z.div_mod ea 2 ltac:(lia)). pose proof (Z.mod_pos_bound ea 2 ltac:(lia)). lia. }
  exists (PrimFloat.sqrt (1 - p * q)%float), md, ed.
  split; [ | split; [ exact Hd | lia ] ].
  apply math_1_ok. apply is_finite_of_spec. right. exists false, md, ed. exact Hd.
Qed.


Lemma trig_bounded (x : float) :
  is_finite x = true ->
  math_sin (Arith:=float_arith M) x = Ok (libm_sin M x)
  /\ math_cos (Arith:=float_arith M) x = Ok (libm_cos M x)
  /\ bounded_by 1 (Prim2SF (libm_sin M x))
  /\ bounded_by 1 (Prim2SF (libm_cos M x)).
Proof.
  intros Hx. destruct (math_sin_bounded M HB x Hx) as [Hs Hsb].
  refine (conj _ (conj _ (conj _ _))).
  - exact Hs.
  - exact (math_cos_bounded M HB x Hx).
  - exact (abs_le_1_bounded _ Hsb).
  - exact (abs_le_1_bounded _ (@cos_bound M HB _ Hx)).
Qed.

(** Lines 70-74 on floats of known size: [n1] and [n2] stand for the two
    numerators, [d] for the denominator. *)
Lemma position_bounded (n1 n2 d h cl cn sn sl : float) (md : positive) (ed k : Z) :
  bounded_by 13 (Prim2SF n1) -> bounded_by 13 (Prim2SF n2) ->
  Prim2SF d = S754_finite false md ed ->
  Zdigits2 (Zpos md) = 53 -> -53 <= ed <= -51 ->
  bounded_by k (Prim2SF h) ->
  bounded_by 1 (Prim2SF cl) -> bounded_by 1 (Prim2SF cn) ->
  bounded_by 1 (Prim2SF sn) -> bounded_by 1 (Prim2SF sl) ->
  18 <= k <= 890 ->
  bounded_by (k + 6) (Prim2SF ((n1 / d + h) * cl * cn))
  /\ bounded_by (k + 6) (Prim2SF ((n1 / d + h) * cl * sn))
  /\ bounded_by (k + 6) (Prim2SF ((n2 / d + h) * sl)).
Proof.
  intros B1 B2 Hd Hdd Hed Hh Bcl Bcn Bsn Bsl Hk.
  assert (Bc : bounded_by k (Prim2SF (n1 / d))).
  { apply bounded_by_mono
      with (2 := @fdiv_bounded n1 d md ed 13 B1 ltac:(lia) Hd Hdd ltac:(lia)).
    lia. }
  assert (Bs : bounded_by k (Prim2SF (n2 / d))).
  { apply bounded_by_mono
      with (2 := @fdiv_bounded n2 d md ed 13 B2 ltac:(lia) Hd Hdd ltac:(lia)).
    lia. }
  pose proof (@fadd_bounded _ _ k Bc Hh ltac:(lia)) as Bch.
  pose proof (@fadd_bounded _ _ k Bs Hh ltac:(lia)) as Bsh.
  pose proof (@fmul_bounded _ _ _ _ Bch Bcl ltac:(lia)) as Bchc.
  refine (conj _ (conj _ _)).
  - apply bounded_by_mono with (2 := @fmul_bounded _ _ _ _ Bchc Bcn ltac:(lia)). lia.
  - apply bounded_by_mono with (2 := @fmul_bounded _ _ _ _ Bchc Bsn ltac:(lia)). lia.
  - apply bounded_by_mono with (2 := @fmul_bounded _ _ _ _ Bsh Bsl ltac:(lia)). lia.
Qed.

(** Lines 93-96 on floats of known size: [z0] and [o1] stand for the
    entries 0 and 1 of the matrices. *)
Lemma rotation_bounded (sl cl ncl sn nsn cn z0 o1 s e z : float) (k : Z) :
  bounded_by 1 (Prim2SF sl) -> bounded_by 1 (Prim2SF cl) -> bounded_by 1 (Prim2SF ncl) ->
  bounded_by 1 (Prim2SF sn) -> bounded_by 1 (Prim2SF nsn) -> bounded_by 1 (Prim2SF cn) ->
  bounded_by 1 (Prim2SF z0) -> bounded_by 1 (Prim2SF o1) ->
  bounded_by k (Prim2SF s) -> bounded_by k (Prim2SF e) -> bounded_by k (Prim2SF z) ->
  0 <= k <= 884 ->
  let rot_1 := np_dot (AR:=float_arith M) ((sl, z0, cl), (z0, o1, z0), (ncl, z0, sl)) (s, e, z) in
  let '(x, y, w) :=
    np_dot (AR:=float_arith M) ((cn, nsn, z0), (sn, cn, z0), (z0, z0, o1)) rot_1 in
  bounded_by (k + 12) (Prim2SF x)
  /\ bounded_by (k + 12) (Prim2SF y)
  /\ bounded_by (k + 12) (Prim2SF w).
Proof.
  intros Bsl Bcl Bncl Bsn Bnsn Bcn B0 B1 Hs He Hz Hk.
  assert (Hk6 : 0 <= k + 6 <= 890) by lia.
  cbv zeta. unfold np_dot.
  assert (Hk' : 0 <= k <= 890) by lia.
  pose proof (@row_dot_bounded M _ _ _ _ _ _ k Bsl B0 Bcl Hs He Hz Hk') as R0.
  pose proof (@row_dot_bounded M _ _ _ _ _ _ k B0 B1 B0 Hs He Hz Hk') as R1.
  pose proof (@row_dot_bounded M _ _ _ _ _ _ k Bncl B0 Bsl Hs He Hz Hk') as R2.
  replace (k + 12) with (k + 6 + 6) by lia.
  refine (conj _ (conj _ _)).
  - exact (@row_dot_bounded M _ _ _ _ _ _ (k + 6) Bcn Bnsn B0 R0 R1 R2 Hk6).
  - exact (@row_dot_bounded M _ _ _ _ _ _ (k + 6) Bsn Bcn B0 R0 R1 R2 Hk6).
  - exact (@row_dot_bounded M _ _ _ _ _ _ (k + 6) B0 B0 B1 R0 R1 R2 Hk6).
Qed.

(** The position of the origin, for a height below [2^k]: six binades
    above the height at most. *)
Lemma origin_r_bounded (lat lon o_hae_km : float) (k : Z) :
  is_finite lat = true -> is_finite lon = true ->
  bounded_by k (Prim2SF o_hae_km) -> 18 <= k <= 890 ->
  exists r_x_km r_y_km r_z_km,
    origin_r (AR:=float_arith M) lat lon o_hae_km = Ok (r_x_km, r_y_km, r_z_km)
    /\ bounded_by (k + 6) (Prim2SF r_x_km)
    /\ bounded_by (k + 6) (Prim2SF r_y_km)
    /\ bounded_by (k + 6) (Prim2SF r_z_km).
Proof.
  intros Hlat Hlon Hh Hk.
  destruct (calc_denom_range lat Hlat) as (d & md & ed & Hden & Hd & Hdd & Hed).
  destruct (@positive_float d md ed Hd) as (_ & Hd0 & _).
  destruct (trig_bounded lat Hlat) as (Hsl & Hcl & Bsl & Bcl).
  destruct (trig_bounded lon Hlon) as (Hsn & Hcn & Bsn & Bcn).
  unfold origin_r. rewrite Hden.
  cbv beta iota delta [bind]. cbn [truediv float_arith]. unfold float_div.
  rewrite Hd0. cbv beta iota delta [bind].
  rewrite !Hcl, !Hcn, !Hsl, !Hsn. cbv beta iota zeta delta [bind].
  do 3 eexists. split; [ reflexivity | ].
  cbn [add mul sub float_arith].
  assert (BR : bounded_by 13 (Prim2SF (R_E_KM (AR:=float_arith M))))
    by (vm_compute; discriminate).
  assert (BN : bounded_by 13
                 (Prim2SF (R_E_KM (AR:=float_arith M)
                           * (f_1_0 (AR:=float_arith M)
                              - E_E (AR:=float_arith M) * E_E (AR:=float_arith M)))))
    by (vm_compute; discriminate).
  exact (@position_bounded _ _ d o_hae_km _ _ _ _ md ed k
           BR BN Hd Hdd Hed Hh Bcl Bcn Bsn Bsl Hk).
Qed.

(** The rotated SEZ vector, for components below [2^k]: twelve binades
    above at most. *)
Lemma rotate_bounded (lat lon s_km e_km z_km : float) (k : Z) :
  is_finite lat = true -> is_finite lon = true ->
  bounded_by k (Prim2SF s_km) -> bounded_by k (Prim2SF e_km) ->
  bounded_by k (Prim2SF z_km) -> 0 <= k <= 884 ->
  exists x y z,
    rotate (AR:=float_arith M) lat lon (s_km, e_km, z_km) = Ok (x, y, z)
    /\ bounded_by (k + 12) (Prim2SF x)
    /\ bounded_by (k + 12) (Prim2SF y)
    /\ bounded_by (k + 12) (Prim2SF z).
Proof.
  intros Hlat Hlon Hs He Hz Hk.
  destruct (trig_bounded lat Hlat) as (Hsl & Hcl & Bsl & Bcl).
  destruct (trig_bounded lon Hlon) as (Hsn & Hcn & Bsn & Bcn).
  unfold rotate, Ry_lat, Rz_long.
  rewrite !Hcl, !Hcn, !Hsl, !Hsn. cbv beta iota zeta delta [bind].
  assert (Bncl : bounded_by 1 (Prim2SF (neg (Arith:=float_arith M) (libm_cos M lat))))
    by (apply fopp_bounded; exact Bcl).
  assert (Bnsn : bounded_by 1 (Prim2SF (neg (Arith:=float_arith M) (libm_sin M lon))))
    by (apply fopp_bounded; exact Bsn).
  assert (B0 : bounded_by 1 (Prim2SF (i_0 (AR:=float_arith M))))
    by (vm_compute; exact I).
  assert (B1 : bounded_by 1 (Prim2SF (i_1 (AR:=float_arith M))))
    by (vm_compute; discriminate).
  pose proof (@rotation_bounded _ _ _ _ _ _ _ _ _ _ _ k
                Bsl Bcl Bncl Bsn Bnsn Bcn B0 B1 Hs He Hz Hk) as Hrot.
  cbv zeta in Hrot. unfold np_dot in *.
  do 3 eexists. split; [ reflexivity | exact Hrot ].
Qed.

(** Moderate inputs give finite results: latitudes and longitudes up to
    [2^897] degrees, a height and SEZ components up to [2^800] km. *)
Theorem moderate_inputs_give_finite_results
  (o_lat_deg o_long_deg o_hae_km s_km e_km z_km : float) :
  (abs o_lat_deg <=? 0x1p+897)%float = true ->
  (abs o_long_deg <=? 0x1p+897)%float = true ->
  (abs o_hae_km <=? 0x1p+800)%float = true ->
  (abs s_km <=? 0x1p+800)%float = true ->
  (abs e_km <=? 0x1p+800)%float = true ->
  (abs z_km <=? 0x1p+800)%float = true ->
  exists ecef,
    sez_to_ecef (AR:=float_arith M) o_lat_deg o_long_deg o_hae_km s_km e_km z_km
    = Ok ecef
    /\ vec_finite ecef = true.
Proof.
  intros Hlat Hlon Hh Hs He Hz.
  apply deg_to_rad_finite in Hlat, Hlon.
  apply (@abs_leb_bounded _ 0x1p+800%float 4503599627370496 748 eq_refl) in Hh, Hs, He, Hz.
  change (53 + 748) with 801 in Hh, Hs, He, Hz.
  destruct (@origin_r_bounded _ _ _ 801 Hlat Hlon Hh ltac:(lia))
    as (r_x & r_y & r_z & Hr & Brx & Bry & Brz).
  destruct (@rotate_bounded _ _ _ _ _ 801 Hlat Hlon Hs He Hz ltac:(lia))
    as (x & y & z & Hrot & Bx & By & Bz).
  unfold sez_to_ecef. rewrite !deg_to_rad_float. cbv beta iota delta [bind].
  rewrite Hr. cbv beta iota delta [bind]. rewrite Hrot. cbv beta iota delta [bind].
  eexists. split; [ reflexivity | ].
  unfold vec_add, vec_finite. cbn [add float_arith].
  assert (Hfin : forall a b : float,
            bounded_by 807 (Prim2SF a) -> bounded_by 813 (Prim2SF b) ->
            is_finite (a + b) = true).
  { intros a b Ha Hb.
    apply (bounded_by_finite (813 + 2)).
    apply fadd_bounded; [ | exact Hb | lia ].
    apply bounded_by_mono with (2 := Ha). lia. }
  rewrite (Hfin _ _ Brx Bx), (Hfin _ _ Bry By), (Hfin _ _ Brz Bz). reflexivity.
Qed.

End FiniteOutputs.

(** ** The printed vector, on binary64 *)

(** Adding a zero leaves a float as it is, up to the sign of a zero. *)
Lemma add_zero_keeps (x z : float) :
  is_zero z = true -> same_but_zero_sign (x + z)%float x.
Proof.
  intros Hz. apply is_zero_spec in Hz. destruct Hz as [sz Hz].
  unfold same_but_zero_sign.
  destruct (Prim2SF x) as [sx | sx | | sx mx ex] eqn:Ex.
  - right. split; apply is_zero_spec.
    + rewrite add_spec, Ex, Hz. destruct sx, sz; eexists; reflexivity.
    + exists sx. exact Ex.
  - left. apply Prim2SF_inj. rewrite add_spec, Ex, Hz. reflexivity.
  - left. apply Prim2SF_inj. rewrite add_spec, Ex, Hz. reflexivity.
  - left. apply Prim2SF_inj. rewrite add_spec, Ex, Hz. reflexivity.
Qed.

(** A quotient of a float below [2^13] by a normal float of at least
    [1/2] is finite. *)
Lemma quotient_finite (n d : float) (md : positive) (ed : Z) :
  bounded_by 13 (Prim2SF n) ->
  Prim2SF d = S754_finite false md ed ->
  Zdigits2 (Zpos md) = 53%Z -> (-53 <= ed <= -51)%Z ->
  is_finite (n / d)%float = true.
Proof.
  intros Hn Hd Hdd Hed.
  exact (bounded_by_finite _ _
           (@fdiv_bounded n d md ed 13 Hn ltac:(lia) Hd Hdd ltac:(lia))).
Qed.

Section Binary64Pipeline.

Local Open Scope string_scope.

Variable M : Libm.
Hypothesis HB : LibmBounds M.



(** C2, as amended: for inputs of moderate size (a latitude and a
    longitude up to [2^897] degrees, a height and SEZ components up to
    [2^800] km in absolute value), on a platform whose math library keeps
    [sin], [cos] and the squares within their ranges and gives a square
    of the eccentricity below [2^-7], the denominator is a finite float
    above zero, both divisions by it are defined with finite quotients,
    the numeric pipeline raises no exception and the three components of
    the result are finite. *)
Theorem denominator_positive_no_exception
  (o_lat_deg o_long_deg o_hae_km s_km e_km z_km : float) :
  (abs o_lat_deg <=? 0x1p+897)%float = true ->
  (abs o_long_deg <=? 0x1p+897)%float = true ->
  (abs o_hae_km <=? 0x1p+800)%float = true ->
  (abs s_km <=? 0x1p+800)%float = true ->
  (abs e_km <=? 0x1p+800)%float = true ->
  (abs z_km <=? 0x1p+800)%float = true ->
  exists (denominator c_E s_E : float) (ecef : vec3),
    calc_denom (AR:=float_arith M) E_E (o_lat_deg * float_pi / 180)%float
    = Ok denominator
    /\ (0 <? denominator)%float = true
    /\ is_finite denominator = true
    /\ truediv (Arith:=float_arith M) R_E_KM denominator = Ok c_E
    /\ is_finite c_E = true
    /\ truediv (Arith:=float_arith M)
         (mul R_E_KM (sub f_1_0 (mul E_E E_E))) denominator
       = Ok s_E
    /\ is_finite s_E = true
    /\ sez_to_ecef (AR:=float_arith M)
         o_lat_deg o_long_deg o_hae_km s_km e_km z_km = Ok ecef
    /\ vec_finite ecef = true.
Proof.
  intros Hlat Hlon Hh Hs He Hz.
  apply deg_to_rad_finite in Hlat, Hlon.
  apply (@abs_leb_bounded _ 0x1p+800%float 4503599627370496 748 eq_refl) in Hh, Hs, He, Hz.
  change (53 + 748)%Z with 801%Z in Hh, Hs, He, Hz.
  destruct (@calc_denom_range M HB _ Hlat) as (d & md & ed & Hden & Hd & Hdd & Hed).
  destruct (@positive_float d md ed Hd) as (Hpos & Hd0 & Hfin).
  destruct (@origin_r_bounded M HB _ _ _ 801%Z Hlat Hlon Hh ltac:(lia))
    as (r_x & r_y & r_z & Hr & Brx & Bry & Brz).
  destruct (@rotate_bounded M HB _ _ _ _ _ 801%Z Hlat Hlon Hs He Hz ltac:(lia))
    as (x & y & z & Hrot & Bx & By & Bz).
  assert (Hfin3 : forall a b : float,
            bounded_by 807 (Prim2SF a) -> bounded_by 813 (Prim2SF b) ->
            is_finite (a + b) = true).
  { intros a b Ha Hb.
    apply (bounded_by_finite (813 + 2)).
    apply fadd_bounded; [ | exact Hb | lia ].
    apply bounded_by_mono with (2 := Ha). lia. }
  assert (BR : bounded_by 13 (Prim2SF (R_E_KM (AR:=float_arith M))))
    by (vm_compute; discriminate).
  assert (BN : bounded_by 13
                 (Prim2SF (mul (Arith:=float_arith M) R_E_KM
                             (sub (Arith:=float_arith M) f_1_0
                                (mul (Arith:=float_arith M) E_E E_E)))))
    by (vm_compute; discriminate).
  pose proof (@quotient_finite (R_E_KM (AR:=float_arith M)) d md ed BR Hd Hdd Hed) as Fc.
  pose proof (@quotient_finite
                (mul (Arith:=float_arith M) R_E_KM
                   (sub (Arith:=float_arith M) f_1_0
                      (mul (Arith:=float_arith M) E_E E_E)))
                d md ed BN Hd Hdd Hed) as Fs.
  exists d, (R_E_KM (AR:=float_arith M) / d)%float,
    (mul (Arith:=float_arith M) R_E_KM
       (sub (Arith:=float_arith M) f_1_0 (mul (Arith:=float_arith M) E_E E_E)) / d)%float,
    ((r_x + x)%float, (r_y + y)%float, (r_z + z)%float).
  split; [ exact Hden | ]. split; [ exact Hpos | ]. split; [ exact Hfin | ].
  split; [ cbn [truediv float_arith]; unfold float_div; rewrite Hd0; reflexivity | ].
  split; [ exact Fc | ].
  split; [ cbn [truediv float_arith]; unfold float_div; rewrite Hd0; reflexivity | ].
  split; [ exact Fs | ].
  split.
  - unfold sez_to_ecef. rewrite !deg_to_rad_float. cbv beta iota delta [bind].
    rewrite Hr. cbv beta iota delta [bind]. rewrite Hrot. reflexivity.
  - unfold vec_finite.
    rewrite (Hfin3 _ _ Brx Bx), (Hfin3 _ _ Bry By), (Hfin3 _ _ Brz Bz). reflexivity.
Qed.

(** C3, as amended: when the arguments are converted with an SEZ vector
    of three zeros and the latitude and the longitude are finite in
    radians, the position [r] of the origin is computed without an
    exception, the script prints three numbers and runs to its end, and
    each number it prints is the component of [r] itself; only a
    component of [r] that is a zero can come out as the zero of the
    other sign. *)
Theorem zero_sez_returns_origin_position
  (parse : string -> option float) (a0 a1 a2 a3 a4 a5 a6 : string)
  (o_lat_deg o_long_deg o_hae_km : float) :
  parse_args (RT:=interpreter M parse) a1 a2 a3 a4 a5 a6
  = Some (o_lat_deg, o_long_deg, o_hae_km, 0, 0, 0)%float ->
  is_finite (o_lat_deg * float_pi / 180)%float = true ->
  is_finite (o_long_deg * float_pi / 180)%float = true ->
  exists r_x_km r_y_km r_z_km ecef_x_km ecef_y_km ecef_z_km : float,
    origin_r (AR:=float_arith M)
      (o_lat_deg * float_pi / 180)%float (o_long_deg * float_pi / 180)%float
      o_hae_km
    = Ok (r_x_km, r_y_km, r_z_km)
    /\ stdout (main (RT:=interpreter M parse) [a0; a1; a2; a3; a4; a5; a6])
       = [Num ecef_x_km; Num ecef_y_km; Num ecef_z_km]
    /\ exit (main (RT:=interpreter M parse) [a0; a1; a2; a3; a4; a5; a6])
       = Completed
    /\ same_but_zero_sign ecef_x_km r_x_km
    /\ same_but_zero_sign ecef_y_km r_y_km
    /\ same_but_zero_sign ecef_z_km r_z_km.
Proof.
  intros Hparse Hlat Hlon.
  destruct (@origin_r_no_exception M HB _ _ o_hae_km Hlat Hlon) as ([[r_x r_y] r_z] & Hr).
  destruct (@rotate_zero M _ _ _ _ Hlat Hlon Hr) as (z0 & z1 & z2 & Hrot & Hz0 & Hz1 & Hz2).
  exists r_x, r_y, r_z, (r_x + z0)%float, (r_y + z1)%float, (r_z + z2)%float.
  split; [ exact Hr | ].
  assert (Hmain : stdout (main (RT:=interpreter M parse) [a0; a1; a2; a3; a4; a5; a6])
                  = [Num (r_x + z0)%float; Num (r_y + z1)%float; Num (r_z + z2)%float]
                  /\ exit (main (RT:=interpreter M parse) [a0; a1; a2; a3; a4; a5; a6])
                     = Completed).
  { apply (@main_prints float (interpreter M parse) a0 a1 a2 a3 a4 a5 a6 _ _ _ _ Hparse).
    unfold compute_and_print.
    change (@rt_arith float (interpreter M parse)) with (float_arith M).
    unfold sez_to_ecef. rewrite !deg_to_rad_float. cbv beta iota delta [bind].
    rewrite Hr. cbv beta iota delta [bind]. rewrite Hrot. reflexivity. }
  destruct Hmain as [Hout Hexit].
  split; [ exact Hout | ]. split; [ exact Hexit | ].
  split; [ exact (add_zero_keeps r_x Hz0) | ].
  split; [ exact (add_zero_keeps r_y Hz1) | exact (add_zero_keeps r_z Hz2) ].
Qed.

End Binary64Pipeline.

Section Binary64Refutations.

Local Open Scope string_scope.


(** C3, as stated, fails on binary64: at the finite origin of latitude
    [1e308] the conversion of the SEZ vector [(0, 0, 0)] returns
    nothing. *)
Lemma zero_sez_can_return_nothing :
  ~ (forall M : Libm, LibmFacts M -> LibmBounds M ->
     forall o_lat_deg o_long_deg o_hae_km : float,
       is_finite o_lat_deg = true -> is_finite o_long_deg = true ->
       is_finite o_hae_km = true ->
       exists ecef,
         sez_to_ecef (AR:=float_arith M) o_lat_deg o_long_deg o_hae_km
           0%float 0%float 0%float
         = Ok ecef).
Proof.
  intros H.
  destruct (H taylor_libm taylor_libm_facts taylor_libm_bounds
              (float_of_dec 1 308) 0%float 0%float
              ltac:(vm_compute; reflexivity) ltac:(vm_compute; reflexivity)
              ltac:(vm_compute; reflexivity)) as (ecef & Hrun).
  vm_compute in Hrun. discriminate Hrun.
Qed.

End Binary64Refutations.

(** ** The two rotation matrices, on binary64 *)

(** *** The error of one rounding *)

Unset Implicit Arguments.

Section RoundingError.

Local Open Scope Z_scope.

(** [binary_round_aux] on an exact mantissa: when nothing has to be
    shifted out, the mantissa is kept. *)
Lemma BRA_form_exact (s : bool) (m e : Z) :
  0 < m ->
  exists m2 : Z,
    let n1 := Z.max 0 (fexp prec emax (Zdigits2 m + e) - e) in
    let m1 := m / 2 ^ n1 in
    let e1 := e + n1 in
    (m2 = m1 \/ m2 = m1 + 1) /\
    (n1 = 0 -> m2 = m) /\
    let n2 := Z.max 0 (fexp prec emax (Zdigits2 m2 + e1) - e1) in
    binary_round_aux prec emax s m e loc_Exact =
      match m2 / 2 ^ n2 with
      | Z0 => S754_zero s
      | Zpos p => if (e1 + n2 <=? emax - prec) then S754_finite s p (e1 + n2) else S754_infinity s
      | Zneg _ => S754_nan
      end.
Proof.
  intros Hm. unfold binary_round_aux, shr_fexp.
  set (n := fexp prec emax (Zdigits2 m + e) - e).
  assert (Hex : Z.max 0 n = 0 ->
                shr (shr_record_of_loc m loc_Exact) e n = (shr_record_of_loc m loc_Exact, e)).
  { intros H0. unfold shr. destruct n as [| p | p]; try reflexivity. lia. }
  assert (H0 : 0 <= shr_m (shr_record_of_loc m loc_Exact)) by (rewrite shr_record_of_loc_m; lia).
  destruct (shr_m_e (shr_record_of_loc m loc_Exact) e n H0) as [Hm1 He1].
  destruct (shr (shr_record_of_loc m loc_Exact) e n) as [mrs' e'] eqn:Es.
  simpl fst in Hm1. simpl snd in He1. rewrite shr_record_of_loc_m in Hm1.
  set (m2 := round_nearest_even (shr_m mrs') (loc_of_shr_record mrs')).
  exists m2. cbv zeta. split; [ | split ].
  - unfold m2. rewrite <- Hm1. apply round_nearest_even_cases.
  - intros Hn. specialize (Hex Hn). injection Hex as Hmrs _.
    unfold m2. rewrite Hmrs. reflexivity.
  - assert (H2 : 0 <= shr_m (shr_record_of_loc m2 loc_Exact)).
    { rewrite shr_record_of_loc_m. unfold m2.
      assert (0 <= shr_m mrs') by (rewrite Hm1; apply Z.div_pos; [ lia | apply Z.pow_pos_nonneg; lia ]).
      destruct (round_nearest_even_cases (shr_m mrs') (loc_of_shr_record mrs')) as [-> | ->]; lia. }
    destruct (shr_m_e (shr_record_of_loc m2 loc_Exact) e' (fexp prec emax (Zdigits2 m2 + e') - e') H2) as [Hm3 He3].
    destruct (shr (shr_record_of_loc m2 loc_Exact) e' (fexp prec emax (Zdigits2 m2 + e') - e')) as [mrs'' e''].
    simpl fst in Hm3. simpl snd in He3. rewrite shr_record_of_loc_m in Hm3.
    rewrite Hm3, He3, He1. reflexivity.
Qed.

(** The float [binary_round_aux] returns, as a mantissa [m2] at the
    exponent [e1] of the format: it is one unit of [e1] from the exact
    value at most, and the exact value when [e1] is the exponent given. *)
Lemma BRA_mantissa (s : bool) (m e : Z) :
  0 < m -> e <= 971 -> Zdigits2 m + e + 1 <= 1024 ->
  exists m2 e1 : Z,
    e1 = Z.max e (fexp prec emax (Zdigits2 m + e))
    /\ 0 <= m2
    /\ (e1 = e -> m2 = m)
    /\ Z.abs (m2 * 2 ^ (e1 - e) - m) <= 2 ^ (e1 - e)
    /\ ((m2 = 0 /\ binary_round_aux prec emax s m e loc_Exact = S754_zero s)
        \/ exists (p : positive) (er : Z),
             binary_round_aux prec emax s m e loc_Exact = S754_finite s p er
             /\ e1 <= er /\ Zpos p * 2 ^ (er - e1) = m2).
Proof.
  intros Hm He Hd.
  destruct (BRA_form_exact s m e Hm) as (m2 & Hm2 & Hexact & ->). cbv zeta in *.
  rewrite !fexp64_eq in *. change (emax - prec) with 971.
  set (d := Zdigits2 m) in *.
  set (F := Z.max (d + e - 53) (-1074)) in *.
  set (n1 := Z.max 0 (F - e)) in *.
  pose proof (Zdigits2_pos_pos m Hm) as Hdpos. fold d in Hdpos.
  destruct (Zdigits2_bounds m Hm) as [Hmlo Hmhi]. fold d in Hmlo, Hmhi.
  assert (Hp1 : 0 < 2 ^ n1) by (apply Z.pow_pos_nonneg; lia).
  pose proof (Z.div_mod m (2 ^ n1) ltac:(lia)) as Hdm.
  pose proof (Z.mod_pos_bound m (2 ^ n1) Hp1) as Hmod.
  set (m1 := m / 2 ^ n1) in *.
  assert (Hm1 : 0 <= m1) by (apply Z.div_pos; lia).
  exists m2, (e + n1).
  replace (e + n1 - e) with n1 by lia.
  assert (Hm2nn : 0 <= m2) by lia.
  assert (Habs : Z.abs (m2 * 2 ^ n1 - m) <= 2 ^ n1) by (destruct Hm2 as [-> | ->]; nia).
  split; [ unfold n1; lia | ]. split; [ exact Hm2nn | ].
  split; [ intros He1; apply Hexact; lia | ]. split; [ exact Habs | ].
  (* the mantissa returned has 53 digits at most, or is 2^53 *)
  assert (Hm1hi : n1 = 0 \/ m1 < 2 ^ 53).
  { destruct (Z.eq_dec n1 0) as [H0 | H0]; [ now left | right ].
    apply Z.div_lt_upper_bound; [ exact Hp1 | ].
    apply Z.lt_le_trans with (1 := Hmhi).
    rewrite <- Z.pow_add_r by lia. apply Z.pow_le_mono_r; unfold n1, F in *; lia. }
  assert (Hm2hi : m2 <= 2 ^ 53 /\ (m2 = 2 ^ 53 -> n1 <> 0)).
  { destruct Hm1hi as [H0 | Hlt].
    - rewrite (Hexact H0).
      assert (d <= 53) by (unfold n1, F in H0; lia).
      assert (2 ^ d <= 2 ^ 53) by (apply Z.pow_le_mono_r; lia).
      split; [ lia | intros; lia ].
    - split; [ destruct Hm2 as [-> | ->]; lia | ].
      intros H53 H0. rewrite (Hexact H0) in H53.
      assert (d <= 53) by (unfold n1, F in H0; lia).
      assert (2 ^ d <= 2 ^ 53) by (apply Z.pow_le_mono_r; lia). lia. }
  destruct Hm2hi as [Hm2le Hm2eq].
  destruct (Z.eq_dec m2 0) as [Hz | Hnz].
  { left. split; [ exact Hz | ]. rewrite Hz.
    rewrite Z.div_0_l by (apply Z.pow_nonzero; lia). reflexivity. }
  right.
  assert (Hm2pos : 0 < m2) by lia.
  pose proof (Zdigits2_pos_pos m2 Hm2pos) as Hd2pos.
  destruct (Z.eq_dec m2 (2 ^ 53)) as [H53 | H53].
  - (* the rounding carried into a new digit: one more shift, exact *)
    assert (Hd2 : Zdigits2 m2 = 54).
    { rewrite H53. apply Z.le_antisymm; [ apply Zdigits2_le | apply Zdigits2_ge ];
        try reflexivity; simpl; lia. }
    rewrite Hd2.
    assert (Hn1 : n1 <> 0) by (apply Hm2eq; exact H53).
    replace (Z.max 0 (Z.max (54 + (e + n1) - 53) (-1074) - (e + n1))) with 1
      by (unfold n1, F in *; lia).
    rewrite H53. change (2 ^ 53 / 2 ^ 1) with (Zpos 4503599627370496).
    replace (e + n1 + 1 <=? 971) with true
      by (symmetry; apply Z.leb_le; unfold n1, F in *; lia).
    exists 4503599627370496%positive, (e + n1 + 1).
    split; [ reflexivity | ]. split; [ lia | ].
    replace (e + n1 + 1 - (e + n1)) with 1 by lia. reflexivity.
  - assert (Hd2 : Zdigits2 m2 <= 53) by (apply Zdigits2_le; lia).
    replace (Z.max 0 (Z.max (Zdigits2 m2 + (e + n1) - 53) (-1074) - (e + n1))) with 0
      by (unfold n1, F in *; lia).
    rewrite Z.pow_0_r, Z.div_1_r, Z.add_0_r.
    destruct m2 as [| p | p]; try lia.
    replace (e + n1 <=? 971) with true
      by (symmetry; apply Z.leb_le; unfold n1, F in *; lia).
    exists p, (e + n1). split; [ reflexivity | ]. split; [ lia | ].
    replace (e + n1 - (e + n1)) with 0 by lia. simpl. lia.
Qed.

End RoundingError.

Section Values.

Local Open Scope R_scope.

Lemma bpow_gt_0 (e : Z) : 0 < powerRZ 2 e.
Proof. apply powerRZ_lt. lra. Qed.

Lemma bpow_plus (a b : Z) : powerRZ 2 (a + b) = powerRZ 2 a * powerRZ 2 b.
Proof. apply powerRZ_add. lra. Qed.

Lemma IZR_pow2 (n : Z) : (0 <= n)%Z -> IZR (2 ^ n) = powerRZ 2 n.
Proof.
  intros Hn. destruct n as [| p | p]; try lia.
  - reflexivity.
  - symmetry. apply powerRZ_2_pos.
Qed.

Lemma bpow_le (a b : Z) : (a <= b)%Z -> powerRZ 2 a <= powerRZ 2 b.
Proof.
  intros H. replace b with (a + (b - a))%Z by lia. rewrite bpow_plus.
  rewrite <- (IZR_pow2 (b - a)) by lia.
  assert (1 <= IZR (2 ^ (b - a))).
  { apply IZR_le. assert (0 < 2 ^ (b - a))%Z by (apply Z.pow_pos_nonneg; lia). lia. }
  pose proof (bpow_gt_0 a). nra.
Qed.

Lemma cond_Zopp_IZR (s : bool) (m : Z) :
  IZR (cond_Zopp s m) = (if s then -1 else 1) * IZR m.
Proof. destruct s; simpl; [ rewrite opp_IZR | ]; ring. Qed.

Lemma sign_abs (s : bool) (x : R) : Rabs ((if s then -1 else 1) * x) = Rabs x.
Proof.
  destruct s.
  - replace (-1 * x) with (- x) by ring. apply Rabs_Ropp.
  - now rewrite Rmult_1_l.
Qed.

(** One unit in the last place, against the value. *)
Lemma ulp_le (m e : Z) :
  (0 < m)%Z ->
  powerRZ 2 (Z.max (Zdigits2 m + e - 53) (-1074))
  <= powerRZ 2 (-52) * (IZR m * powerRZ 2 e) + powerRZ 2 (-1074).
Proof.
  intros Hm.
  destruct (Zdigits2_bounds m Hm) as [Hlo _].
  pose proof (Zdigits2_pos_pos m Hm) as Hd.
  pose proof (bpow_gt_0 (-1074)) as H1. pose proof (bpow_gt_0 e) as H2.
  pose proof (bpow_gt_0 (-52)) as H3.
  assert (Hm' : powerRZ 2 (Zdigits2 m - 1) <= IZR m).
  { rewrite <- IZR_pow2 by lia. apply IZR_le. exact Hlo. }
  assert (Hmpos : 0 < IZR m) by (apply IZR_lt; exact Hm).
  destruct (Z.max_spec (Zdigits2 m + e - 53) (-1074)) as [[_ ->] | [_ ->]].
  - assert (0 <= powerRZ 2 (-52) * (IZR m * powerRZ 2 e)).
    { apply Rmult_le_pos; [ lra | apply Rmult_le_pos; lra ]. }
    lra.
  - replace (Zdigits2 m + e - 53)%Z with (-52 + ((Zdigits2 m - 1) + e))%Z by lia.
    rewrite !bpow_plus.
    assert (powerRZ 2 (-52) * (powerRZ 2 (Zdigits2 m - 1) * powerRZ 2 e)
            <= powerRZ 2 (-52) * (IZR m * powerRZ 2 e)).
    { apply Rmult_le_compat_l; [ lra | ]. apply Rmult_le_compat_r; lra. }
    lra.
Qed.

(** The error of [binary_round_aux] on an exact mantissa. *)
Lemma BRA_error (s : bool) (m e : Z) :
  (0 < m)%Z -> (e <= 971)%Z -> (Zdigits2 m + e + 1 <= 1024)%Z ->
  Rabs (SF2R (binary_round_aux prec emax s m e loc_Exact)
        - IZR (cond_Zopp s m) * powerRZ 2 e)
  <= powerRZ 2 (-52) * (IZR m * powerRZ 2 e) + powerRZ 2 (-1074).
Proof.
  intros Hm He Hd.
  destruct (BRA_mantissa s m e Hm He Hd)
    as (m2 & e1 & He1 & Hm2 & Hexact & Habs & Hval).
  assert (Hv : SF2R (binary_round_aux prec emax s m e loc_Exact)
               = IZR (cond_Zopp s m2) * powerRZ 2 e1).
  { destruct Hval as [[-> ->] | (p & er & -> & Her & Hp)].
    - simpl. destruct s; simpl; ring.
    - cbn [SF2R]. rewrite <- Hp, !cond_Zopp_IZR, mult_IZR, IZR_pow2 by lia.
      replace er with ((er - e1) + e1)%Z at 1 by lia.
      rewrite bpow_plus. ring. }
  rewrite Hv, !cond_Zopp_IZR.
  replace ((if s then -1 else 1) * IZR m2 * powerRZ 2 e1
           - (if s then -1 else 1) * IZR m * powerRZ 2 e)
    with ((if s then -1 else 1) * (IZR m2 * powerRZ 2 e1 - IZR m * powerRZ 2 e)) by ring.
  rewrite sign_abs.
  pose proof (bpow_gt_0 e) as Hpe.
  assert (He1e : (e <= e1)%Z) by lia.
  replace (powerRZ 2 e1) with (powerRZ 2 (e1 - e) * powerRZ 2 e)
    by (rewrite <- bpow_plus; f_equal; lia).
  rewrite <- IZR_pow2 by lia.
  replace (IZR m2 * (IZR (2 ^ (e1 - e)) * powerRZ 2 e) - IZR m * powerRZ 2 e)
    with (IZR (m2 * 2 ^ (e1 - e) - m) * powerRZ 2 e)
    by (rewrite minus_IZR, mult_IZR; ring).
  rewrite Rabs_mult, (Rabs_pos_eq (powerRZ 2 e)) by lra.
  rewrite <- abs_IZR.
  destruct (Z.eq_dec e1 e) as [Heq | Hne].
  - rewrite (Hexact Heq), Heq, Z.sub_diag. simpl (2 ^ 0)%Z.
    replace (m * 1 - m)%Z with 0%Z by ring. simpl (Z.abs 0).
    rewrite Rmult_0_l.
    pose proof (bpow_gt_0 (-52)). pose proof (bpow_gt_0 (-1074)).
    assert (0 < IZR m) by (apply IZR_lt; exact Hm).
    assert (0 <= powerRZ 2 (-52) * (IZR m * powerRZ 2 e)).
    { apply Rmult_le_pos; [ lra | apply Rmult_le_pos; lra ]. }
    lra.
  - apply Rle_trans with (IZR (2 ^ (e1 - e)) * powerRZ 2 e).
    + apply Rmult_le_compat_r; [ lra | apply IZR_le; exact Habs ].
    + rewrite IZR_pow2 by lia. rewrite <- bpow_plus.
      replace (e1 - e + e)%Z with e1 by lia.
      rewrite fexp64_eq in He1.
      replace e1 with (Z.max (Zdigits2 m + e - 53) (-1074)) by lia.
      apply ulp_le. exact Hm.
Qed.

(** The error of [binary_round]. *)
Lemma binary_round_error (s : bool) (p : positive) (e : Z) :
  (e <= 971)%Z -> (Zdigits2 (Zpos p) + e + 1 <= 1024)%Z ->
  Rabs (SF2R (binary_round prec emax s p e) - IZR (cond_Zopp s (Zpos p)) * powerRZ 2 e)
  <= powerRZ 2 (-52) * (IZR (Zpos p) * powerRZ 2 e) + powerRZ 2 (-1074).
Proof.
  intros He Hd. unfold binary_round.
  pose proof (shl_align_spec p e (fexp prec emax (Zpos (digits2_pos p) + e))) as Hal.
  destruct (shl_align p e (fexp prec emax (Zpos (digits2_pos p) + e))) as [mz ez].
  destruct Hal as [Hez Hmz].
  change (Zpos (digits2_pos p)) with (Zdigits2 (Zpos p)) in *.
  assert (Hdz : (Zdigits2 (Zpos mz) + ez = Zdigits2 (Zpos p) + e)%Z).
  { rewrite Hmz, Zdigits2_mul_pow2 by lia. lia. }
  assert (Hv : IZR (Zpos mz) * powerRZ 2 ez = IZR (Zpos p) * powerRZ 2 e).
  { rewrite Hmz, mult_IZR, IZR_pow2 by lia.
    replace e with ((e - ez) + ez)%Z at 2 by lia. rewrite bpow_plus. ring. }
  pose proof (BRA_error s (Zpos mz) ez ltac:(lia) ltac:(lia) ltac:(lia)) as H.
  rewrite !cond_Zopp_IZR in *.
  replace ((if s then -1 else 1) * IZR (Zpos p) * powerRZ 2 e)
    with ((if s then -1 else 1) * IZR (Zpos mz) * powerRZ 2 ez)
    by (rewrite !Rmult_assoc, Hv; reflexivity).
  rewrite <- Hv. exact H.
Qed.

End Values.

Section OperationErrors.

Local Open Scope R_scope.

Lemma SF2R_finite (s : bool) (m : positive) (e : Z) :
  SF2R (S754_finite s m e) = (if s then -1 else 1) * (IZR (Zpos m) * powerRZ 2 e).
Proof. cbn [SF2R]. rewrite cond_Zopp_IZR. ring. Qed.

Lemma SF2R_abs (s : bool) (m : positive) (e : Z) :
  Rabs (SF2R (S754_finite s m e)) = IZR (Zpos m) * powerRZ 2 e.
Proof.
  rewrite SF2R_finite, sign_abs. apply Rabs_pos_eq.
  apply Rmult_le_pos; [ apply IZR_le; lia | pose proof (bpow_gt_0 e); lra ].
Qed.

Lemma error_bound_nonneg (v : R) :
  0 <= powerRZ 2 (-52) * Rabs v + powerRZ 2 (-1074).
Proof.
  pose proof (bpow_gt_0 (-52)). pose proof (bpow_gt_0 (-1074)).
  pose proof (Rabs_pos v).
  assert (0 <= powerRZ 2 (-52) * Rabs v) by (apply Rmult_le_pos; lra). lra.
Qed.

(** The rounding error of a product that does not overflow. *)
Lemma SFmul_error (x y : spec_float) (kx ky : Z) :
  bounded_by kx x -> bounded_by ky y -> (kx + ky <= 900)%Z ->
  Rabs (SF2R (SFmul prec emax x y) - SF2R x * SF2R y)
  <= powerRZ 2 (-52) * Rabs (SF2R x * SF2R y) + powerRZ 2 (-1074).
Proof.
  intros Hx Hy Hk.
  destruct x as [sx | sx | | sx mx ex], y as [sy | sy | | sy my ey];
    cbn [bounded_by] in Hx, Hy; try contradiction;
    try (cbn [SFmul SF2R];
         match goal with |- Rabs ?a <= _ => replace a with 0 by ring end;
         rewrite Rabs_R0; apply error_bound_nonneg).
  pose proof (Zdigits2_mul (Zpos mx) (Zpos my) eq_refl eq_refl) as Hd.
  pose proof (Zdigits2_pos_pos (Zpos mx) eq_refl).
  pose proof (Zdigits2_pos_pos (Zpos my) eq_refl).
  unfold SFmul. change (Zpos (mx * my)) with (Zpos mx * Zpos my)%Z.
  pose proof (BRA_error (xorb sx sy) (Zpos mx * Zpos my) (ex + ey)
                ltac:(lia) ltac:(lia) ltac:(lia)) as Herr.
  assert (Hprod : SF2R (S754_finite sx mx ex) * SF2R (S754_finite sy my ey)
                  = IZR (cond_Zopp (xorb sx sy) (Zpos mx * Zpos my)) * powerRZ 2 (ex + ey)).
  { rewrite !SF2R_finite, cond_Zopp_IZR, mult_IZR, bpow_plus.
    destruct sx, sy; simpl; ring. }
  rewrite Hprod.
  replace (Rabs (IZR (cond_Zopp (xorb sx sy) (Zpos mx * Zpos my)) * powerRZ 2 (ex + ey)))
    with (IZR (Zpos mx * Zpos my) * powerRZ 2 (ex + ey)); [ exact Herr | ].
  rewrite cond_Zopp_IZR, Rmult_assoc, sign_abs. symmetry. apply Rabs_pos_eq.
  apply Rmult_le_pos; [ apply IZR_le; lia | pose proof (bpow_gt_0 (ex + ey)); lra ].
Qed.

(** The rounding error of a sum that does not overflow. *)
Lemma SFadd_error (x y : spec_float) (k : Z) :
  valid_binary x = true -> valid_binary y = true ->
  bounded_by k x -> bounded_by k y -> (-1074 <= k <= 1020)%Z ->
  Rabs (SF2R (SFadd prec emax x y) - (SF2R x + SF2R y))
  <= powerRZ 2 (-52) * Rabs (SF2R x + SF2R y) + powerRZ 2 (-1074).
Proof.
  intros Hvx Hvy Hx Hy Hk.
  destruct x as [sx | sx | | sx mx ex], y as [sy | sy | | sy my ey];
    cbn [bounded_by] in Hx, Hy; try contradiction.
  - replace (SF2R (SFadd prec emax (S754_zero sx) (S754_zero sy))) with 0
      by (destruct sx, sy; reflexivity).
    cbn [SF2R]. replace (0 - (0 + 0)) with 0 by ring.
    rewrite Rabs_R0. apply error_bound_nonneg.
  - cbn [SFadd]. cbn [SF2R].
    match goal with |- Rabs ?a <= _ => replace a with 0 by ring end.
    rewrite Rabs_R0. apply error_bound_nonneg.
  - cbn [SFadd]. cbn [SF2R].
    match goal with |- Rabs ?a <= _ => replace a with 0 by ring end.
    rewrite Rabs_R0. apply error_bound_nonneg.
  - destruct (valid_finite _ _ _ Hvx) as (Hdx & Hex & _).
    destruct (valid_finite _ _ _ Hvy) as (Hdy & Hey & _).
    pose proof (Zdigits2_pos_pos (Zpos mx) eq_refl) as Hdxp.
    pose proof (Zdigits2_pos_pos (Zpos my) eq_refl) as Hdyp.
    destruct (Zdigits2_bounds (Zpos mx) eq_refl) as [_ Hmx].
    destruct (Zdigits2_bounds (Zpos my) eq_refl) as [_ Hmy].
    unfold SFadd.
    set (ez := Z.min ex ey).
    rewrite !shl_align_fst by (unfold ez; lia).
    assert (Hbx : (Zpos mx * 2 ^ (ex - ez) < 2 ^ (k - ez))%Z).
    { apply Z.lt_le_trans with (2 ^ Zdigits2 (Zpos mx) * 2 ^ (ex - ez))%Z.
      - apply Z.mul_lt_mono_pos_r; [ apply Z.pow_pos_nonneg; unfold ez; lia | exact Hmx ].
      - rewrite <- Z.pow_add_r by (unfold ez; lia).
        apply Z.pow_le_mono_r; unfold ez; lia. }
    assert (Hby : (Zpos my * 2 ^ (ey - ez) < 2 ^ (k - ez))%Z).
    { apply Z.lt_le_trans with (2 ^ Zdigits2 (Zpos my) * 2 ^ (ey - ez))%Z.
      - apply Z.mul_lt_mono_pos_r; [ apply Z.pow_pos_nonneg; unfold ez; lia | exact Hmy ].
      - rewrite <- Z.pow_add_r by (unfold ez; lia).
        apply Z.pow_le_mono_r; unfold ez; lia. }
    assert (Hpx : (0 < Zpos mx * 2 ^ (ex - ez))%Z)
      by (apply Z.mul_pos_pos; [ lia | apply Z.pow_pos_nonneg; unfold ez; lia ]).
    assert (Hpy : (0 < Zpos my * 2 ^ (ey - ez))%Z)
      by (apply Z.mul_pos_pos; [ lia | apply Z.pow_pos_nonneg; unfold ez; lia ]).
    assert (H2 : (2 ^ (k - ez + 1) = 2 * 2 ^ (k - ez))%Z)
      by (rewrite Z.pow_add_r by (unfold ez; lia); change (2 ^ 1)%Z with 2%Z; ring).
    assert (Hsum_exact :
              SF2R (S754_finite sx mx ex) + SF2R (S754_finite sy my ey)
              = IZR (cond_Zopp sx (Zpos mx * 2 ^ (ex - ez))
                     + cond_Zopp sy (Zpos my * 2 ^ (ey - ez))) * powerRZ 2 ez).
    { rewrite !SF2R_finite, plus_IZR, !cond_Zopp_IZR, !mult_IZR.
      rewrite !IZR_pow2 by (unfold ez; lia).
      replace ex with ((ex - ez) + ez)%Z at 1 by lia.
      replace ey with ((ey - ez) + ez)%Z at 1 by lia.
      rewrite !bpow_plus. ring. }
    rewrite Hsum_exact.
    set (a := (Zpos mx * 2 ^ (ex - ez))%Z) in *.
    set (b := (Zpos my * 2 ^ (ey - ez))%Z) in *.
    assert (Hsum : (Z.abs (cond_Zopp sx a + cond_Zopp sy b) < 2 ^ (k - ez + 1))%Z).
    { rewrite H2. unfold cond_Zopp. destruct sx, sy; lia. }
    assert (Hez : (ez <= 971)%Z) by (unfold ez; lia).
    unfold binary_normalize.
    destruct (cond_Zopp sx a + cond_Zopp sy b)%Z as [| p | p] eqn:Ep.
    + cbn [SF2R]. rewrite Rmult_0_l, Rminus_0_r, Rabs_R0.
      pose proof (bpow_gt_0 (-1074)). lra.
    + assert (Hd : (Zdigits2 (Zpos p) <= k - ez + 1)%Z)
        by (apply Zdigits2_le; [ reflexivity | simpl in Hsum; exact Hsum ]).
      pose proof (binary_round_error false p ez Hez ltac:(lia)) as H.
      cbn [cond_Zopp] in H.
      rewrite (Rabs_pos_eq (IZR (Zpos p) * powerRZ 2 ez));
        [ exact H | ].
      apply Rmult_le_pos; [ apply IZR_le; lia | pose proof (bpow_gt_0 ez); lra ].
    + assert (Hd : (Zdigits2 (Zpos p) <= k - ez + 1)%Z)
        by (apply Zdigits2_le; [ reflexivity | simpl in Hsum; exact Hsum ]).
      pose proof (binary_round_error true p ez Hez ltac:(lia)) as H.
      cbn [cond_Zopp] in H. change (- Zpos p)%Z with (Zneg p) in H.
      replace (Rabs (IZR (Zneg p) * powerRZ 2 ez)) with (IZR (Zpos p) * powerRZ 2 ez);
        [ exact H | ].
      change (Zneg p) with (- Zpos p)%Z. rewrite opp_IZR.
      replace (- IZR (Zpos p) * powerRZ 2 ez) with (- (IZR (Zpos p) * powerRZ 2 ez)) by ring.
      rewrite Rabs_Ropp. symmetry. apply Rabs_pos_eq.
      apply Rmult_le_pos; [ apply IZR_le; lia | pose proof (bpow_gt_0 ez); lra ].
Qed.

(** The value of a float below [2^k]. *)
Lemma SF2R_bounded (x : spec_float) (k : Z) :
  bounded_by k x -> Rabs (SF2R x) <= powerRZ 2 k.
Proof.
  destruct x as [s | s | | s m e]; cbn [bounded_by]; intros H; try contradiction.
  - cbn [SF2R]. rewrite Rabs_R0. pose proof (bpow_gt_0 k). lra.
  - rewrite SF2R_abs.
    destruct (Zdigits2_bounds (Zpos m) eq_refl) as [_ Hhi].
    pose proof (Zdigits2_pos_pos (Zpos m) eq_refl).
    apply Rle_trans with (powerRZ 2 (Zdigits2 (Zpos m)) * powerRZ 2 e).
    + apply Rmult_le_compat_r; [ pose proof (bpow_gt_0 e); lra | ].
      rewrite <- IZR_pow2 by lia. apply IZR_le. lia.
    + rewrite <- bpow_plus. apply bpow_le. lia.
Qed.

(** [abs x <= c] on floats, read on the values. *)
Lemma SFleb_abs_value (x : spec_float) (mc : positive) (ec : Z) :
  valid_binary x = true -> Zdigits2 (Zpos mc) = 53%Z ->
  SFleb (SFabs x) (S754_finite false mc ec) = true ->
  Rabs (SF2R x) <= IZR (Zpos mc) * powerRZ 2 ec.
Proof.
  intros Hv Hdc H.
  assert (Hc0 : 0 <= IZR (Zpos mc) * powerRZ 2 ec).
  { apply Rmult_le_pos; [ apply IZR_le; lia | pose proof (bpow_gt_0 ec); lra ]. }
  destruct x as [s | s | | s m e]; try discriminate.
  - cbn [SF2R]. rewrite Rabs_R0. exact Hc0.
  - rewrite SF2R_abs.
    destruct (valid_finite _ _ _ Hv) as (Hd & _).
    destruct (Zdigits2_bounds (Zpos m) eq_refl) as [_ Hhi].
    destruct (Zdigits2_bounds (Zpos mc) eq_refl) as [Hclo _].
    rewrite Hdc in Hclo.
    pose proof (Zdigits2_pos_pos (Zpos m) eq_refl).
    unfold SFleb, SFabs, SFcompare in H.
    destruct (Z.compare_spec e ec) as [Heq | Hlt | Hgt]; try discriminate.
    + subst ec. apply Rmult_le_compat_r; [ pose proof (bpow_gt_0 e); lra | ].
      apply IZR_le.
      change (PosDef.Pos.compare_cont Eq m mc) with (Pos.compare m mc) in H.
      destruct (Pos.compare_spec m mc); try discriminate; lia.
    + apply Rle_trans with (powerRZ 2 53 * powerRZ 2 e).
      * apply Rmult_le_compat_r; [ pose proof (bpow_gt_0 e); lra | ].
        rewrite <- IZR_pow2 by lia. apply IZR_le.
        assert (2 ^ Zdigits2 (Zpos m) <= 2 ^ 53)%Z by (apply Z.pow_le_mono_r; lia). lia.
      * apply Rle_trans with (powerRZ 2 52 * powerRZ 2 ec).
        -- rewrite <- !bpow_plus. apply bpow_le. lia.
        -- apply Rmult_le_compat_r; [ pose proof (bpow_gt_0 ec); lra | ].
           rewrite <- IZR_pow2 by lia. apply IZR_le. exact Hclo.
Qed.

End OperationErrors.

Set Implicit Arguments.

(** *** The error of an entry of [np.dot] *)

Section FloatErrors.

Local Open Scope R_scope.

Lemma fmul_error (x y : float) (kx ky : Z) :
  bounded_by kx (Prim2SF x) -> bounded_by ky (Prim2SF y) -> (kx + ky <= 900)%Z ->
  Rabs (B2R (x * y) - B2R x * B2R y)
  <= powerRZ 2 (-52) * Rabs (B2R x * B2R y) + powerRZ 2 (-1074).
Proof.
  intros Hx Hy Hk. unfold B2R. rewrite mul_spec.
  exact (SFmul_error _ _ kx ky Hx Hy Hk).
Qed.

Lemma fadd_error (x y : float) (k : Z) :
  bounded_by k (Prim2SF x) -> bounded_by k (Prim2SF y) -> (-1074 <= k <= 1020)%Z ->
  Rabs (B2R (x + y) - (B2R x + B2R y))
  <= powerRZ 2 (-52) * Rabs (B2R x + B2R y) + powerRZ 2 (-1074).
Proof.
  intros Hx Hy Hk. unfold B2R. rewrite add_spec.
  exact (SFadd_error _ _ k (Prim2SF_valid x) (Prim2SF_valid y) Hx Hy Hk).
Qed.

Lemma B2R_opp (x : float) : B2R (- x) = - B2R x.
Proof.
  unfold B2R. rewrite opp_spec.
  destruct (Prim2SF x) as [s | s | | s m e]; cbn [SFopp SF2R]; try ring.
  rewrite !cond_Zopp_IZR. destruct s; simpl; ring.
Qed.

Lemma abs_leb_value (x c : float) (mc : positive) (ec : Z) :
  Prim2SF c = S754_finite false mc ec -> Zdigits2 (Zpos mc) = 53%Z ->
  (abs x <=? c)%float = true ->
  Rabs (B2R x) <= IZR (Zpos mc) * powerRZ 2 ec.
Proof.
  intros Hc Hd H. rewrite leb_spec, abs_spec, Hc in H.
  exact (SFleb_abs_value _ mc ec (Prim2SF_valid x) Hd H).
Qed.

Lemma abs_le_1_sized (x : float) : (abs x <=? 1)%float = true -> sized 1 1 x.
Proof.
  intros H. split; [ exact (abs_le_1_bounded _ H) | ].
  pose proof (@abs_leb_value x 1%float 4503599627370496 (-52) eq_refl eq_refl H) as Hv.
  rewrite powerRZ_2_neg in Hv.
  replace (2 ^ 52)%Z with 4503599627370496%Z in Hv by reflexivity. lra.
Qed.

Lemma sized_opp (k : Z) (V : R) (x : float) : sized k V x -> sized k V (- x).
Proof.
  intros [Hb Hv]. split; [ exact (@fopp_bounded _ _ Hb) | ].
  rewrite B2R_opp, Rabs_Ropp. exact Hv.
Qed.

Lemma Rabs_bounds (a b : R) : Rabs a <= b -> - b <= a <= b.
Proof. unfold Rabs. destruct (Rcase_abs a); lra. Qed.

(** The errors of the five roundings of one entry of [np.dot], added
    up. *)
Lemma dot_error_real (x0 x1 x2 p0 p1 p2 s1 s2 V d h : R) :
  d = / 4503599627370496 -> 0 < h ->
  Rabs x0 <= V -> Rabs x1 <= V -> Rabs x2 <= V ->
  Rabs (p0 - x0) <= d * Rabs x0 + h ->
  Rabs (p1 - x1) <= d * Rabs x1 + h ->
  Rabs (p2 - x2) <= d * Rabs x2 + h ->
  Rabs (s1 - (p0 + p1)) <= d * Rabs (p0 + p1) + h ->
  Rabs (s2 - (s1 + p2)) <= d * Rabs (s1 + p2) + h ->
  Rabs (s2 - (x0 + x1 + x2)) <= 9 * d * V + 6 * h.
Proof.
  intros Hd Hh H0 H1 H2 E0 E1 E2 E3 E4. subst d.
  assert (HV : 0 <= V) by (pose proof (Rabs_pos x0); lra).
  assert (E0' : Rabs (p0 - x0) <= / 4503599627370496 * V + h) by lra.
  assert (E1' : Rabs (p1 - x1) <= / 4503599627370496 * V + h) by lra.
  assert (E2' : Rabs (p2 - x2) <= / 4503599627370496 * V + h) by lra.
  clear E0 E1 E2.
  apply Rabs_bounds in H0, H1, H2, E0', E1', E2'.
  assert (B3 : Rabs (p0 + p1) <= 2 * V + 2 * / 4503599627370496 * V + 2 * h)
    by (apply Rabs_le; lra).
  assert (E3' : Rabs (s1 - (p0 + p1))
                <= / 4503599627370496 * (2 * V + 2 * / 4503599627370496 * V + 2 * h) + h)
    by lra.
  clear E3. apply Rabs_bounds in B3, E3'.
  assert (B4 : Rabs (s1 + p2) <= 7 / 2 * V + 5 * h) by (apply Rabs_le; lra).
  assert (E4' : Rabs (s2 - (s1 + p2)) <= / 4503599627370496 * (7 / 2 * V + 5 * h) + h) by lra.
  clear E4. apply Rabs_bounds in E4'.
  apply Rabs_le. lra.
Qed.

(** A rotation followed by its transpose, on the two components it
    mixes: [wx], [wy] are the rotated components with errors [e], [ux] the
    component rotated back with error [f]. *)
Lemma round_trip_real (a b x y wx wy ux e f g V : R) :
  Rabs a <= 1 -> Rabs b <= 1 -> Rabs (a * a + b * b - 1) <= g -> Rabs x <= V ->
  Rabs (wx - (a * x + b * y)) <= e ->
  Rabs (wy - (- b * x + a * y)) <= e ->
  Rabs (ux - (a * wx + - b * wy)) <= f ->
  Rabs (ux - x) <= g * V + 2 * e + f.
Proof.
  intros Ha Hb Hg Hx Hwx Hwy Hux.
  replace (ux - x)
    with ((ux - (a * wx + - b * wy))
          + (a * (wx - (a * x + b * y))
             + (- b * (wy - (- b * x + a * y))
                + (a * a + b * b - 1) * x))) by ring.
  assert (He : 0 <= e) by (pose proof (Rabs_pos (wx - (a * x + b * y))); lra).
  assert (Hg0 : 0 <= g) by (pose proof (Rabs_pos (a * a + b * b - 1)); lra).
  assert (T1 : Rabs (a * (wx - (a * x + b * y))) <= e).
  { rewrite Rabs_mult. pose proof (Rabs_pos a).
    pose proof (Rabs_pos (wx - (a * x + b * y))). nra. }
  assert (T2 : Rabs (- b * (wy - (- b * x + a * y))) <= e).
  { rewrite Rabs_mult, Rabs_Ropp. pose proof (Rabs_pos b).
    pose proof (Rabs_pos (wy - (- b * x + a * y))). nra. }
  assert (T3 : Rabs ((a * a + b * b - 1) * x) <= g * V).
  { rewrite Rabs_mult. pose proof (Rabs_pos x).
    pose proof (Rabs_pos (a * a + b * b - 1)). nra. }
  eapply Rle_trans; [ apply Rabs_triang | ].
  eapply Rle_trans; [ apply Rplus_le_compat_l, Rabs_triang | ].
  eapply Rle_trans; [ apply Rplus_le_compat_l, Rplus_le_compat_l, Rabs_triang | ].
  lra.
Qed.

Lemma product_le (a v V : R) : Rabs a <= 1 -> Rabs v <= V -> Rabs (a * v) <= V.
Proof.
  intros Ha Hv. rewrite Rabs_mult.
  pose proof (Rabs_pos a). pose proof (Rabs_pos v). nra.
Qed.

(** One entry of [np.dot] for a row of entries in [-1, 1]: nine relative
    rounding errors of the column's size at most. *)
Lemma row_dot_error (M : Libm) (a0 a1 a2 v0 v1 v2 : float) (k : Z) (V : R) :
  sized 1 1 a0 -> sized 1 1 a1 -> sized 1 1 a2 ->
  sized k V v0 -> sized k V v1 -> sized k V v2 ->
  (0 <= k <= 890)%Z ->
  sized (k + 6) (4 * V + 6 * powerRZ 2 (-1074))
        (row_dot (AR:=float_arith M) (a0, a1, a2) (v0, v1, v2))
  /\ Rabs (B2R (row_dot (AR:=float_arith M) (a0, a1, a2) (v0, v1, v2))
           - (B2R a0 * B2R v0 + B2R a1 * B2R v1 + B2R a2 * B2R v2))
     <= 9 * / 4503599627370496 * V + 6 * powerRZ 2 (-1074).
Proof.
  intros [Ba0 Ra0] [Ba1 Ra1] [Ba2 Ra2] [Bv0 Rv0] [Bv1 Rv1] [Bv2 Rv2] Hk.
  pose proof (@row_dot_bounded M _ _ _ _ _ _ k Ba0 Ba1 Ba2 Bv0 Bv1 Bv2 Hk) as Hb.
  pose proof (@product_le _ _ _ Ra0 Rv0) as P0.
  pose proof (@product_le _ _ _ Ra1 Rv1) as P1.
  pose proof (@product_le _ _ _ Ra2 Rv2) as P2.
  cut (Rabs (B2R (row_dot (AR:=float_arith M) (a0, a1, a2) (v0, v1, v2))
             - (B2R a0 * B2R v0 + B2R a1 * B2R v1 + B2R a2 * B2R v2))
       <= 9 * / 4503599627370496 * V + 6 * powerRZ 2 (-1074)).
  { intros He. split; [ split; [ exact Hb | ] | exact He ].
    assert (HV : 0 <= V) by (pose proof (Rabs_pos (B2R v0)); lra).
    apply Rabs_bounds in He, P0, P1, P2. apply Rabs_le. lra. }
  unfold row_dot. cbn [add mul float_arith].
  pose proof (@fmul_bounded _ _ _ _ Ba0 Bv0 ltac:(lia)) as B0.
  pose proof (@fmul_bounded _ _ _ _ Ba1 Bv1 ltac:(lia)) as B1.
  pose proof (@fmul_bounded _ _ _ _ Ba2 Bv2 ltac:(lia)) as B2.
  pose proof (@fadd_bounded _ _ _ B0 B1 ltac:(lia)) as B01.
  pose proof (@fmul_error _ _ _ _ Ba0 Bv0 ltac:(lia)) as E0.
  pose proof (@fmul_error _ _ _ _ Ba1 Bv1 ltac:(lia)) as E1.
  pose proof (@fmul_error _ _ _ _ Ba2 Bv2 ltac:(lia)) as E2.
  pose proof (@fadd_error _ _ _ B0 B1 ltac:(lia)) as E3.
  assert (B2' : bounded_by (1 + k + 1 + 2) (Prim2SF (a2 * v2)))
    by (apply bounded_by_mono with (2 := B2); lia).
  pose proof (@fadd_error _ _ _ B01 B2' ltac:(lia)) as E4.
  assert (Hd : powerRZ 2 (-52) = / 4503599627370496).
  { rewrite powerRZ_2_neg. replace (2 ^ 52)%Z with 4503599627370496%Z by reflexivity.
    reflexivity. }
  rewrite Hd in E0, E1, E2, E3, E4.
  replace (9 * / 4503599627370496 * V) with (9 * (/ 4503599627370496) * V) by ring.
  exact (@dot_error_real _ _ _ _ _ _ _ _ V (/ 4503599627370496) (powerRZ 2 (-1074))
           eq_refl (bpow_gt_0 (-1074)) P0 P1 P2 E0 E1 E2 E3 E4).
Qed.


Lemma pass_through_real (x w u e f : R) :
  Rabs (w - x) <= e -> Rabs (u - w) <= f -> Rabs (u - x) <= e + f.
Proof. intros H1 H2. apply Rabs_bounds in H1, H2. apply Rabs_le. lra. Qed.

Lemma tiny_bound : powerRZ 2 (-1074) <= / 1267650600228229401496703205376.
Proof.
  eapply Rle_trans; [ apply (bpow_le (-1074) (-100)); lia | ].
  rewrite powerRZ_2_neg.
  replace (2 ^ 100)%Z with 1267650600228229401496703205376%Z by reflexivity. lra.
Qed.

Lemma norm_bound : powerRZ 2 (-50) = / 1125899906842624.
Proof.
  rewrite powerRZ_2_neg. replace (2 ^ 50)%Z with 1125899906842624%Z by reflexivity.
  reflexivity.
Qed.

Ltac same_value H :=
  match type of H with
  | Rabs ?t <= _ =>
      match goal with
      | |- Rabs ?t' <= _ => replace t' with t by ring; exact H
      end
  end.

Ltac zero_value :=
  match goal with
  | |- Rabs ?t <= _ =>
      replace t with 0 by ring; rewrite Rabs_R0; pose proof (bpow_gt_0 (-50)); lra
  end.

Section RoundTrip.

Variable M : Libm.

Variables s c z0 o1 : float.
Hypothesis Hs : sized 1 1 s.
Hypothesis Hc : sized 1 1 c.
Hypothesis Bz : bounded_by 1 (Prim2SF z0).
Hypothesis Vz : B2R z0 = 0.
Hypothesis Bo : bounded_by 1 (Prim2SF o1).
Hypothesis Vo : B2R o1 = 1.
Hypothesis Hg : Rabs (B2R s * B2R s + B2R c * B2R c - 1) <= powerRZ 2 (-50).

Lemma sized_zero : sized 1 1 z0.
Proof. split; [ exact Bz | rewrite Vz, Rabs_R0; lra ]. Qed.

Lemma sized_one : sized 1 1 o1.
Proof. split; [ exact Bo | rewrite Vo, Rabs_R1; lra ]. Qed.

(** The product of two rows with entries in [-1, 1], against a number the
    exact sum is within [2^-50] of. *)
Lemma entry_within (a0 a1 a2 b0 b1 b2 i : float) :
  sized 1 1 a0 -> sized 1 1 a1 -> sized 1 1 a2 ->
  sized 1 1 b0 -> sized 1 1 b1 -> sized 1 1 b2 ->
  Rabs (B2R a0 * B2R b0 + B2R a1 * B2R b1 + B2R a2 * B2R b2 - B2R i) <= powerRZ 2 (-50) ->
  within (powerRZ 2 (-48)) (row_dot (AR:=float_arith M) (a0, a1, a2) (b0, b1, b2)) i.
Proof.
  intros A0 A1 A2 B0 B1 B2 Hi.
  destruct (@row_dot_error M _ _ _ _ _ _ 1 1 A0 A1 A2 B0 B1 B2 ltac:(lia)) as [[Hb _] He].
  split; [ exact (bounded_by_finite _ _ Hb) | ].
  pose proof tiny_bound as Ht. pose proof (bpow_gt_0 (-1074)) as Ht0.
  rewrite norm_bound in Hi.
  replace (powerRZ 2 (-48)) with (/ 281474976710656)
    by (rewrite powerRZ_2_neg; replace (2 ^ 48)%Z with 281474976710656%Z by reflexivity;
        reflexivity).
  apply Rabs_bounds in He, Hi. apply Rabs_le. lra.
Qed.

Ltac entry_sized :=
  first [ exact Hs | exact Hc | exact sized_zero | exact sized_one
        | exact (sized_opp Hs) | exact (sized_opp Hc) ].

Ltac entry_solve :=
  apply entry_within; [ entry_sized .. | ];
  rewrite ?B2R_opp, ?Vz, ?Vo; first [ same_value Hg | zero_value ].

(** The product of the transpose of [Ry] with [Ry], entry by entry. *)
Lemma Ry_orthogonal :
  let Ry := ((s, z0, c), (z0, o1, z0), ((- c)%float, z0, s)) in
  mat_within (powerRZ 2 (-48)) (mat_mul (AR:=float_arith M) (transpose Ry) Ry)
             ((o1, z0, z0), (z0, o1, z0), (z0, z0, o1)).
Proof.
  cbv zeta. cbv [mat_mul transpose mat_within vec_within].
  refine (conj (conj _ (conj _ _)) (conj (conj _ (conj _ _)) (conj _ (conj _ _))));
    entry_solve.
Qed.

Lemma Rz_orthogonal :
  let Rz := ((c, (- s)%float, z0), (s, c, z0), (z0, z0, o1)) in
  mat_within (powerRZ 2 (-48)) (mat_mul (AR:=float_arith M) (transpose Rz) Rz)
             ((o1, z0, z0), (z0, o1, z0), (z0, z0, o1)).
Proof.
  cbv zeta. cbv [mat_mul transpose mat_within vec_within].
  refine (conj (conj _ (conj _ _)) (conj (conj _ (conj _ _)) (conj _ (conj _ _))));
    entry_solve.
Qed.

Section Vector.

Variables v0 v1 v2 : float.
Hypothesis H0 : sized 17 65536 v0.
Hypothesis H1 : sized 17 65536 v1.
Hypothesis H2 : sized 17 65536 v2.

Ltac numeric_bound :=
  pose proof tiny_bound; pose proof (bpow_gt_0 (-1074)); rewrite ?norm_bound; lra.

Lemma Ry_round_trip :
  let Ry := ((s, z0, c), (z0, o1, z0), ((- c)%float, z0, s)) in
  vec_within (1 / 1000000000)
    (np_dot (AR:=float_arith M) (transpose Ry) (np_dot (AR:=float_arith M) Ry (v0, v1, v2)))
    (v0, v1, v2).
Proof.
  pose proof sized_zero as Sz. pose proof sized_one as So.
  pose proof (sized_opp Hc) as Snc.
  destruct (@row_dot_error M s z0 c v0 v1 v2 17 65536 Hs Sz Hc H0 H1 H2 ltac:(lia))
    as [W0 E0].
  destruct (@row_dot_error M z0 o1 z0 v0 v1 v2 17 65536 Sz So Sz H0 H1 H2 ltac:(lia))
    as [W1 E1].
  destruct (@row_dot_error M (- c) z0 s v0 v1 v2 17 65536 Snc Sz Hs H0 H1 H2 ltac:(lia))
    as [W2 E2].
  change (17 + 6)%Z with 23%Z in W0, W1, W2.
  cbv zeta. cbv [np_dot transpose].
  set (w0 := row_dot (AR:=float_arith M) (s, z0, c) (v0, v1, v2)) in *.
  set (w1 := row_dot (AR:=float_arith M) (z0, o1, z0) (v0, v1, v2)) in *.
  set (w2 := row_dot (AR:=float_arith M) ((- c)%float, z0, s) (v0, v1, v2)) in *.
  destruct (@row_dot_error M s z0 (- c) w0 w1 w2 23 _ Hs Sz Snc W0 W1 W2 ltac:(lia))
    as [[U0 _] F0].
  destruct (@row_dot_error M z0 o1 z0 w0 w1 w2 23 _ Sz So Sz W0 W1 W2 ltac:(lia))
    as [[U1 _] F1].
  destruct (@row_dot_error M c z0 s w0 w1 w2 23 _ Hc Sz Hs W0 W1 W2 ltac:(lia))
    as [[U2 _] F2].
  rewrite ?B2R_opp, ?Vz, ?Vo in E0. rewrite ?B2R_opp, ?Vz, ?Vo in E1.
  rewrite ?B2R_opp, ?Vz, ?Vo in E2. rewrite ?B2R_opp, ?Vz, ?Vo in F0.
  rewrite ?B2R_opp, ?Vz, ?Vo in F1. rewrite ?B2R_opp, ?Vz, ?Vo in F2.
  destruct Hs as [_ Rs], Hc as [_ Rc], H0 as [_ R0], H1 as [_ R1], H2 as [_ R2].
  unfold vec_within, within.
  refine (conj (conj _ _) (conj (conj _ _) (conj _ _)));
    try (eapply bounded_by_finite; eassumption).
  - eapply Rle_trans;
      [ eapply (@round_trip_real (B2R s) (B2R c) (B2R v0) (B2R v2) (B2R w0) (B2R w2));
        [ exact Rs | exact Rc | exact Hg | exact R0
        | same_value E0 | same_value E2 | same_value F0 ]
      | numeric_bound ].
  - eapply Rle_trans;
      [ eapply (@pass_through_real (B2R v1) (B2R w1)); [ same_value E1 | same_value F1 ]
      | numeric_bound ].
  - eapply Rle_trans;
      [ eapply (@round_trip_real (B2R s) (- B2R c) (B2R v2) (B2R v0) (B2R w2) (B2R w0));
        [ exact Rs | rewrite Rabs_Ropp; exact Rc | same_value Hg | exact R2
        | same_value E2 | same_value E0 | same_value F2 ]
      | numeric_bound ].
Qed.

Lemma Rz_round_trip :
  let Rz := ((c, (- s)%float, z0), (s, c, z0), (z0, z0, o1)) in
  vec_within (1 / 1000000000)
    (np_dot (AR:=float_arith M) (transpose Rz) (np_dot (AR:=float_arith M) Rz (v0, v1, v2)))
    (v0, v1, v2).
Proof.
  pose proof sized_zero as Sz. pose proof sized_one as So.
  pose proof (sized_opp Hs) as Sns.
  destruct (@row_dot_error M c (- s) z0 v0 v1 v2 17 65536 Hc Sns Sz H0 H1 H2 ltac:(lia))
    as [W0 E0].
  destruct (@row_dot_error M s c z0 v0 v1 v2 17 65536 Hs Hc Sz H0 H1 H2 ltac:(lia))
    as [W1 E1].
  destruct (@row_dot_error M z0 z0 o1 v0 v1 v2 17 65536 Sz Sz So H0 H1 H2 ltac:(lia))
    as [W2 E2].
  change (17 + 6)%Z with 23%Z in W0, W1, W2.
  cbv zeta. cbv [np_dot transpose].
  set (w0 := row_dot (AR:=float_arith M) (c, (- s)%float, z0) (v0, v1, v2)) in *.
  set (w1 := row_dot (AR:=float_arith M) (s, c, z0) (v0, v1, v2)) in *.
  set (w2 := row_dot (AR:=float_arith M) (z0, z0, o1) (v0, v1, v2)) in *.
  destruct (@row_dot_error M c s z0 w0 w1 w2 23 _ Hc Hs Sz W0 W1 W2 ltac:(lia))
    as [[U0 _] F0].
  destruct (@row_dot_error M (- s) c z0 w0 w1 w2 23 _ Sns Hc Sz W0 W1 W2 ltac:(lia))
    as [[U1 _] F1].
  destruct (@row_dot_error M z0 z0 o1 w0 w1 w2 23 _ Sz Sz So W0 W1 W2 ltac:(lia))
    as [[U2 _] F2].
  rewrite ?B2R_opp, ?Vz, ?Vo in E0. rewrite ?B2R_opp, ?Vz, ?Vo in E1.
  rewrite ?B2R_opp, ?Vz, ?Vo in E2. rewrite ?B2R_opp, ?Vz, ?Vo in F0.
  rewrite ?B2R_opp, ?Vz, ?Vo in F1. rewrite ?B2R_opp, ?Vz, ?Vo in F2.
  destruct Hs as [_ Rs], Hc as [_ Rc], H0 as [_ R0], H1 as [_ R1], H2 as [_ R2].
  unfold vec_within, within.
  refine (conj (conj _ _) (conj (conj _ _) (conj _ _)));
    try (eapply bounded_by_finite; eassumption).
  - eapply Rle_trans;
      [ eapply (@round_trip_real (B2R c) (- B2R s) (B2R v0) (B2R v1) (B2R w0) (B2R w1));
        [ exact Rc | rewrite Rabs_Ropp; exact Rs | same_value Hg | exact R0
        | same_value E0 | same_value E1 | same_value F0 ]
      | numeric_bound ].
  - eapply Rle_trans;
      [ eapply (@round_trip_real (B2R c) (B2R s) (B2R v1) (B2R v0) (B2R w1) (B2R w0));
        [ exact Rc | exact Rs | same_value Hg | exact R1
        | same_value E1 | same_value E0 | same_value F1 ]
      | numeric_bound ].
  - eapply Rle_trans;
      [ eapply (@pass_through_real (B2R v2) (B2R w2)); [ same_value E2 | same_value F2 ]
      | numeric_bound ].
Qed.

End Vector.

End RoundTrip.

End FloatErrors.

(** *** The matrices of the script *)

Lemma B2R_zero : B2R 0%float = 0%R.
Proof. reflexivity. Qed.

Lemma B2R_one : B2R 1%float = 1%R.
Proof.
  unfold B2R. replace (Prim2SF 1) with (S754_finite false 4503599627370496 (-52))
    by (vm_compute; reflexivity).
  cbn [SF2R cond_Zopp]. rewrite powerRZ_2_neg.
  replace (2 ^ 52)%Z with 4503599627370496%Z by reflexivity. lra.
Qed.

Lemma abs_le_sized (x : float) :
  (abs x <=? 65536)%float = true -> sized 17 65536 x.
Proof.
  intros H. split.
  - exact (@abs_leb_bounded x 65536%float 4503599627370496 (-36) eq_refl H).
  - pose proof (@abs_leb_value x 65536%float 4503599627370496 (-36) eq_refl eq_refl H) as Hv.
    rewrite powerRZ_2_neg in Hv.
    replace (2 ^ 36)%Z with 68719476736%Z in Hv by reflexivity. lra.
Qed.

Section Orthogonality.

Variable M : Libm.

(** A result of the library in [-1, 1] is returned as it is. *)
Lemma math_1_unit (f : float -> float) (x : float) :
  (abs (f x) <=? 1)%float = true -> math_1 f x = Ok (f x).
Proof.
  intros H. apply math_1_ok.
  exact (bounded_by_finite _ _ (abs_le_1_bounded _ H)).
Qed.

(** C5, as amended: for a latitude and a longitude (in radians) at which
    the library's sine and cosine are floats of [-1, 1] within [2^-50] of
    the unit circle, [Ry_lat] and [Rz_long] return the two stated
    matrices; the binary64 product of the transpose
    of each with the matrix is finite and within [2^-48] of the identity
    in every entry; and for an SEZ vector with components up to 65536 km
    in absolute value, the vector rotated by [np.dot] and rotated back by
    the transpose is finite and within 1e-9 km of the vector in every
    component. *)
Theorem rotation_matrices_are_orthogonal (o_lat_rad o_long_rad s_km e_km z_km : float) :
  unit_norm M o_lat_rad -> unit_norm M o_long_rad ->
  (abs s_km <=? 65536)%float = true ->
  (abs e_km <=? 65536)%float = true ->
  (abs z_km <=? 65536)%float = true ->
  let sin_lat := libm_sin M o_lat_rad in
  let cos_lat := libm_cos M o_lat_rad in
  let sin_lon := libm_sin M o_long_rad in
  let cos_lon := libm_cos M o_long_rad in
  let Ry := ((sin_lat, 0, cos_lat), (0, 1, 0), (- cos_lat, 0, sin_lat))%float in
  let Rz := ((cos_lon, - sin_lon, 0), (sin_lon, cos_lon, 0), (0, 0, 1))%float in
  let r_SEZ := (s_km, e_km, z_km) in
  Ry_lat (AR:=float_arith M) o_lat_rad = Ok Ry
  /\ Rz_long (AR:=float_arith M) o_long_rad = Ok Rz
  /\ mat_within (powerRZ 2 (-48)) (mat_mul (AR:=float_arith M) (transpose Ry) Ry)
                (identity (AR:=float_arith M))
  /\ mat_within (powerRZ 2 (-48)) (mat_mul (AR:=float_arith M) (transpose Rz) Rz)
                (identity (AR:=float_arith M))
  /\ vec_within (1 / 1000000000)
       (np_dot (AR:=float_arith M) (transpose Ry) (np_dot (AR:=float_arith M) Ry r_SEZ))
       r_SEZ
  /\ vec_within (1 / 1000000000)
       (np_dot (AR:=float_arith M) (transpose Rz) (np_dot (AR:=float_arith M) Rz r_SEZ))
       r_SEZ.
Proof.
  intros (Bsl & Bcl & Nlat) (Bsn & Bcn & Nlon) Hs He Hz sin_lat cos_lat sin_lon cos_lon.
  pose proof (math_1_unit (libm_sin M) _ Bsl) as Esl.
  pose proof (math_1_unit (libm_cos M) _ Bcl) as Ecl.
  pose proof (math_1_unit (libm_sin M) _ Bsn) as Esn.
  pose proof (math_1_unit (libm_cos M) _ Bcn) as Ecn.
  pose proof (abs_le_1_sized Bsl) as Ssl.
  pose proof (abs_le_1_sized Bsn) as Ssn.
  pose proof (abs_le_1_sized Bcl) as Scl.
  pose proof (abs_le_1_sized Bcn) as Scn.
  apply abs_le_sized in Hs, He, Hz.
  fold sin_lat in Esl, Ssl, Nlat. fold sin_lon in Esn, Ssn, Nlon.
  fold cos_lat in Ecl, Scl, Nlat. fold cos_lon in Ecn, Scn, Nlon.
  assert (B0 : bounded_by 1 (Prim2SF 0%float)) by exact I.
  assert (B1 : bounded_by 1 (Prim2SF 1%float)) by (vm_compute; discriminate).
  cbv zeta.
  unfold Ry_lat, Rz_long. cbn [math_sin math_cos float_arith].
  rewrite Esl, Ecl, Esn, Ecn. cbv beta iota delta [bind].
  unfold identity.
  change (i_0 (AR:=float_arith M)) with 0%float.
  change (i_1 (AR:=float_arith M)) with 1%float.
  change (neg (Arith:=float_arith M)) with PrimFloat.opp.
  refine (conj eq_refl (conj eq_refl (conj _ (conj _ (conj _ _))))).
  - exact (@Ry_orthogonal M sin_lat cos_lat 0%float 1%float Ssl Scl B0 B2R_zero B1 B2R_one Nlat).
  - exact (@Rz_orthogonal M sin_lon cos_lon 0%float 1%float Ssn Scn B0 B2R_zero B1 B2R_one Nlon).
  - exact (@Ry_round_trip M sin_lat cos_lat 0%float 1%float Ssl Scl B0 B2R_zero B1 B2R_one Nlat
             s_km e_km z_km Hs He Hz).
  - exact (@Rz_round_trip M sin_lon cos_lon 0%float 1%float Ssn Scn B0 B2R_zero B1 B2R_one Nlon
             s_km e_km z_km Hs He Hz).
Qed.

End Orthogonality.

Lemma sampled_unit_norm : unit_norm sampled_libm 0x1.0c152382d7365p-1%float.
Proof.
  unfold unit_norm.
  refine (conj _ (conj _ _)); [ vm_compute; reflexivity | vm_compute; reflexivity | ].
  replace (libm_sin sampled_libm 0x1.0c152382d7365p-1%float)
    with 0x1.fffffffffffffp-2%float by (vm_compute; reflexivity).
  replace (libm_cos sampled_libm 0x1.0c152382d7365p-1%float)
    with 0x1.bb67ae8584cabp-1%float by (vm_compute; reflexivity).
  unfold B2R.
  replace (Prim2SF 0x1.fffffffffffffp-2%float)
    with (S754_finite false 9007199254740991 (-54)) by (vm_compute; reflexivity).
  replace (Prim2SF 0x1.bb67ae8584cabp-1%float)
    with (S754_finite false 7800463371553963 (-53)) by (vm_compute; reflexivity).
  cbn [SF2R cond_Zopp]. rewrite norm_bound, !powerRZ_2_neg.
  replace (2 ^ 54)%Z with 18014398509481984%Z by reflexivity.
  replace (2 ^ 53)%Z with 9007199254740992%Z by reflexivity.
  apply Rabs_le. lra.
Qed.

(** C5, as stated, fails on binary64: at 30 degrees, with the sine and
    the cosine rounded to nearest, the SEZ vector (1e7, 2e7, 3e7) km
    rotated by [Ry] and back by its transpose has the first component
    [10000000.000000002], one unit in the last place ([2^-29] km, above
    1e-9 km) away from 1e7. *)
Lemma round_trip_can_miss_tolerance :
  ~ (forall (M : Libm) (o_lat_rad s_km e_km z_km : float),
       unit_norm M o_lat_rad ->
       is_finite s_km = true -> is_finite e_km = true -> is_finite z_km = true ->
       forall Ry, Ry_lat (AR:=float_arith M) o_lat_rad = Ok Ry ->
       vec_within (1 / 1000000000)
         (np_dot (AR:=float_arith M) (transpose Ry)
            (np_dot (AR:=float_arith M) Ry (s_km, e_km, z_km)))
         (s_km, e_km, z_km)).
Proof.
  intros H.
  specialize (H sampled_libm 0x1.0c152382d7365p-1%float
                10000000%float 20000000%float 30000000%float
                sampled_unit_norm eq_refl eq_refl eq_refl _ eq_refl).
  replace (np_dot (AR:=float_arith sampled_libm)
             (transpose
                ((0x1.fffffffffffffp-2, i_0 (AR:=float_arith sampled_libm),
                  0x1.bb67ae8584cabp-1),
                 (i_0 (AR:=float_arith sampled_libm), i_1 (AR:=float_arith sampled_libm),
                  i_0 (AR:=float_arith sampled_libm)),
                 (neg (Arith:=float_arith sampled_libm) 0x1.bb67ae8584cabp-1,
                  i_0 (AR:=float_arith sampled_libm), 0x1.fffffffffffffp-2)))%float
             (np_dot (AR:=float_arith sampled_libm) _ _))
    with (0x1.312d000000001p+23, 0x1.312d000000000p+24, 0x1.c9c3800000001p+24)%float in H
    by (vm_compute; reflexivity).
  destruct H as [[_ H] _]. unfold B2R in H.
  replace (Prim2SF 0x1.312d000000001p+23%float)
    with (S754_finite false 5368709120000001 (-29)) in H by (vm_compute; reflexivity).
  replace (Prim2SF 10000000%float)
    with (S754_finite false 5368709120000000 (-29)) in H by (vm_compute; reflexivity).
  cbn [SF2R cond_Zopp] in H. rewrite powerRZ_2_neg in H.
  replace (2 ^ 29)%Z with 536870912%Z in H by reflexivity.
  apply Rabs_bounds in H. lra.
Qed.

(** ** Concrete runs *)

Section Witnesses.

Local Open Scope string_scope.
Local Existing Instance taylor_libm.


Lemma known_value_witness :
  exists ecef_x_km : float,
    stdout (main (RT:=python taylor_libm)
              ["sez_to_ecef.py"; "0"; "0"; "0"; "0"; "0"; "0"])
    = [Num ecef_x_km; Num 0%float; Num 0%float]
    /\ exit (main (RT:=python taylor_libm)
               ["sez_to_ecef.py"; "0"; "0"; "0"; "0"; "0"; "0"])
       = Completed
    /\ ecef_x_km = 0x1.8ea22e48e8a72p+12%float
    /\ (Rabs (B2R ecef_x_km - 6378.1363) <= 1 / 1000000000000)%R.
Proof.
  apply (equator_prime_meridian_known_value taylor_libm_facts).
Defined.


Lemma non_numeric_latitude_witness :
  stdout (main (RT:=python taylor_libm)
            ["sez_to_ecef.py"; "north"; "2"; "3"; "4"; "5"; "6"])
  = [Text "Error: lat_deg, long_deg and hae_km must be numeric."]
  /\ exit (main (RT:=python taylor_libm)
             ["sez_to_ecef.py"; "north"; "2"; "3"; "4"; "5"; "6"])
     = SystemExit
  /\ (forall sys_argv : list string,
        List.length sys_argv <> 7%nat ->
        exit (main (RT:=python taylor_libm)
                ["sez_to_ecef.py"; "north"; "2"; "3"; "4"; "5"; "6"])
        = exit (main (RT:=python taylor_libm) sys_argv))
  /\ exit_code
       (exit (main (RT:=python taylor_libm)
                ["sez_to_ecef.py"; "north"; "2"; "3"; "4"; "5"; "6"]))
     = 0%Z
  /\ numeric_output
       (main (RT:=python taylor_libm)
          ["sez_to_ecef.py"; "north"; "2"; "3"; "4"; "5"; "6"])
     = [].
Proof.
  apply (non_numeric_argument_prints_parse_error (RT:=python taylor_libm)).
  apply Exists_cons_hd. reflexivity.
Defined.

Lemma non_numeric_zenith_witness :
  stdout (main (RT:=python taylor_libm) ["sez_to_ecef.py"; "1"; "2"; "3"; "4"; "5"; "up"])
  = [Text "Error: lat_deg, long_deg and hae_km must be numeric."]
  /\ exit (main (RT:=python taylor_libm)
             ["sez_to_ecef.py"; "1"; "2"; "3"; "4"; "5"; "up"])
     = SystemExit.
Proof.
  apply (@every_position_shares_the_parse_error float (python taylor_libm)
           ["sez_to_ecef.py"; "1"; "2"; "3"; "4"; "5"; "up"] 6).
  - reflexivity.
  - lia.
  - reflexivity.
Defined.

Lemma infinite_height_witness :
  exists o_hae_km ecef_x_km ecef_y_km ecef_z_km : float,
    py_float (Runtime:=python taylor_libm) "inf" = Some o_hae_km
    /\ is_finite o_hae_km = false
    /\ parse_args (RT:=python taylor_libm) "0" "0" "inf" "0" "0" "0"
       = Some (0, 0, o_hae_km, 0, 0, 0)%float
    /\ stdout (main (RT:=python taylor_libm)
                 ["sez_to_ecef.py"; "0"; "0"; "inf"; "0"; "0"; "0"])
       = [Num ecef_x_km; Num ecef_y_km; Num ecef_z_km]
    /\ exit (main (RT:=python taylor_libm)
               ["sez_to_ecef.py"; "0"; "0"; "inf"; "0"; "0"; "0"])
       = Completed
    /\ is_finite ecef_x_km = false.
Proof.
  apply (non_finite_arguments_are_accepted (a:="inf") taylor_libm_facts).
  simpl. tauto.
Defined.

Lemma denominator_positive_witness :
  exists (denominator c_E s_E : float) (ecef : vec3),
    calc_denom (AR:=float_arith taylor_libm) E_E (45 * float_pi / 180)%float
    = Ok denominator
    /\ (0 <? denominator)%float = true
    /\ is_finite denominator = true
    /\ truediv (Arith:=float_arith taylor_libm) R_E_KM denominator = Ok c_E
    /\ is_finite c_E = true
    /\ truediv (Arith:=float_arith taylor_libm)
         (mul R_E_KM (sub f_1_0 (mul E_E E_E))) denominator
       = Ok s_E
    /\ is_finite s_E = true
    /\ sez_to_ecef (AR:=float_arith taylor_libm)
         45%float (-80.5)%float 0.5%float 1%float 2%float 3%float = Ok ecef
    /\ vec_finite ecef = true.
Proof.
  apply (@denominator_positive_no_exception taylor_libm taylor_libm_bounds
           45%float (-80.5)%float 0.5%float 1%float 2%float 3%float);
    vm_compute; reflexivity.
Defined.

Lemma zero_sez_position_witness :
  exists r_x_km r_y_km r_z_km ecef_x_km ecef_y_km ecef_z_km : float,
    origin_r (AR:=float_arith taylor_libm)
      (45 * float_pi / 180)%float (-80.5 * float_pi / 180)%float 0.5%float
    = Ok (r_x_km, r_y_km, r_z_km)
    /\ stdout (main (RT:=interpreter taylor_libm float_of_string)
                 ["sez_to_ecef.py"; "45"; "-80.5"; "0.5"; "0"; "0"; "0"])
       = [Num ecef_x_km; Num ecef_y_km; Num ecef_z_km]
    /\ exit (main (RT:=interpreter taylor_libm float_of_string)
               ["sez_to_ecef.py"; "45"; "-80.5"; "0.5"; "0"; "0"; "0"])
       = Completed
    /\ same_but_zero_sign ecef_x_km r_x_km
    /\ same_but_zero_sign ecef_y_km r_y_km
    /\ same_but_zero_sign ecef_z_km r_z_km.
Proof.
  apply (@zero_sez_returns_origin_position taylor_libm taylor_libm_bounds
           float_of_string "sez_to_ecef.py" "45" "-80.5" "0.5" "0" "0" "0"
           45%float (-80.5)%float 0.5%float);
    vm_compute; reflexivity.
Defined.

Lemma zero_sez_origin_witness :
  exists r ecef,
    origin_r (AR:=float_arith taylor_libm)
      (45 * float_pi / 180)%float (-80.5 * float_pi / 180)%float 0.5%float = Ok r
    /\ sez_to_ecef (AR:=float_arith taylor_libm) 45%float (-80.5)%float 0.5%float
         0%float 0%float 0%float = Ok ecef
    /\ same_vec ecef r = true.
Proof.
  apply (@zero_sez_returns_origin_on_binary64 taylor_libm taylor_libm_bounds
           45%float (-80.5)%float 0.5%float);
    vm_compute; reflexivity.
Defined.

Lemma overflow_witness :
  all_finite (0, 0, float_of_dec 1 308, 0, 0, float_of_dec 1 308)%float = true
  /\ stdout (main (RT:=python taylor_libm)
               ["sez_to_ecef.py"; "0"; "0"; "1e308"; "0"; "0"; "1e308"])
     = [Num infinity; Num 0%float; Num 0%float]
  /\ exit (main (RT:=python taylor_libm)
             ["sez_to_ecef.py"; "0"; "0"; "1e308"; "0"; "0"; "1e308"])
     = Completed.
Proof.
  apply (finite_arguments_print_infinity taylor_libm_facts).
Defined.

Lemma huge_latitude_witness :
  main (RT:=python taylor_libm) ["sez_to_ecef.py"; "1e308"; "0"; "0"; "0"; "0"; "0"]
  = {| stdout := []; exit := Uncaught ValueError |}.
Proof.
  apply (infinite_radians_raise (a:="1e308") taylor_libm_facts).
  simpl. tauto.
Defined.

Lemma non_finite_sez_witness :
  exists ecef_x_km ecef_y_km ecef_z_km,
    sez_to_ecef (AR:=float_arith taylor_libm) 45%float (-80.5)%float 0.5%float
      1%float infinity 3%float
    = Ok (ecef_x_km, ecef_y_km, ecef_z_km)
    /\ is_nan ecef_x_km = true /\ is_nan ecef_y_km = true /\ is_nan ecef_z_km = true.
Proof.
  apply (@non_finite_sez_gives_nan taylor_libm taylor_libm_bounds
           45%float (-80.5)%float 0.5%float 1%float infinity 3%float);
    vm_compute; reflexivity.
Defined.

Lemma moderate_angles_witness :
  is_finite (720 * float_pi / 180)%float = true
  /\ is_finite (-36000 * float_pi / 180)%float = true
  /\ exists ecef_x_km ecef_y_km ecef_z_km : float,
       sez_to_ecef (AR:=float_arith taylor_libm)
         720%float (-36000)%float 0.5%float 1%float 2%float infinity
       = Ok (ecef_x_km, ecef_y_km, ecef_z_km)
       /\ stdout (main (RT:=interpreter taylor_libm float_of_string)
                    ["sez_to_ecef.py"; "720"; "-36000"; "0.5"; "1"; "2"; "inf"])
          = [Num ecef_x_km; Num ecef_y_km; Num ecef_z_km]
       /\ exit (main (RT:=interpreter taylor_libm float_of_string)
                  ["sez_to_ecef.py"; "720"; "-36000"; "0.5"; "1"; "2"; "inf"])
          = Completed.
Proof.
  apply (@moderate_angles_run_to_completion taylor_libm taylor_libm_bounds
           float_of_string "sez_to_ecef.py" "720" "-36000" "0.5" "1" "2" "inf"
           720%float (-36000)%float 0.5%float 1%float 2%float infinity);
    vm_compute; reflexivity.
Defined.

Lemma uncaught_witness :
  exists a0 a1 a2 a3 a4 a5 a6 o_lat_deg o_long_deg o_hae_km s_km e_km z_km,
    ["sez_to_ecef.py"; "0"; "-inf"; "0"; "0"; "0"; "0"]
    = [a0; a1; a2; a3; a4; a5; a6]
    /\ parse_args (RT:=python taylor_libm) a1 a2 a3 a4 a5 a6
       = Some (o_lat_deg, o_long_deg, o_hae_km, s_km, e_km, z_km)
    /\ (is_finite (o_lat_deg * float_pi / 180)%float = false
        \/ is_finite (o_long_deg * float_pi / 180)%float = false).
Proof.
  apply (@uncaught_only_for_non_finite_angles taylor_libm taylor_libm_bounds
           ["sez_to_ecef.py"; "0"; "-inf"; "0"; "0"; "0"; "0"] ValueError).
  vm_compute. reflexivity.
Defined.

Lemma finite_results_witness :
  exists ecef,
    sez_to_ecef (AR:=float_arith taylor_libm)
      45%float (-80.5)%float 0.5%float 1%float 2%float 3%float
    = Ok ecef
    /\ vec_finite ecef = true.
Proof.
  apply (@moderate_inputs_give_finite_results taylor_libm taylor_libm_bounds
           45%float (-80.5)%float 0.5%float 1%float 2%float 3%float);
    vm_compute; reflexivity.
Defined.

Lemma rotation_round_trip_witness :
  let sin_lat := libm_sin sampled_libm 0x1.0c152382d7365p-1%float in
  let cos_lat := libm_cos sampled_libm 0x1.0c152382d7365p-1%float in
  let sin_lon := libm_sin sampled_libm 0x1.0c152382d7365p-1%float in
  let cos_lon := libm_cos sampled_libm 0x1.0c152382d7365p-1%float in
  let Ry := ((sin_lat, 0, cos_lat), (0, 1, 0), (- cos_lat, 0, sin_lat))%float in
  let Rz := ((cos_lon, - sin_lon, 0), (sin_lon, cos_lon, 0), (0, 0, 1))%float in
  let r_SEZ := (100, -250.5, 42164)%float in
  Ry_lat (AR:=float_arith sampled_libm) 0x1.0c152382d7365p-1%float = Ok Ry
  /\ Rz_long (AR:=float_arith sampled_libm) 0x1.0c152382d7365p-1%float = Ok Rz
  /\ mat_within (powerRZ 2 (-48))
       (mat_mul (AR:=float_arith sampled_libm) (transpose Ry) Ry)
       (identity (AR:=float_arith sampled_libm))
  /\ mat_within (powerRZ 2 (-48))
       (mat_mul (AR:=float_arith sampled_libm) (transpose Rz) Rz)
       (identity (AR:=float_arith sampled_libm))
  /\ vec_within (1 / 1000000000)
       (np_dot (AR:=float_arith sampled_libm) (transpose Ry)
          (np_dot (AR:=float_arith sampled_libm) Ry r_SEZ))
       r_SEZ
  /\ vec_within (1 / 1000000000)
       (np_dot (AR:=float_arith sampled_libm) (transpose Rz)
          (np_dot (AR:=float_arith sampled_libm) Rz r_SEZ))
       r_SEZ.
Proof.
  apply (@rotation_matrices_are_orthogonal sampled_libm
           0x1.0c152382d7365p-1%float 0x1.0c152382d7365p-1%float
           100%float (-250.5)%float 42164%float);
    first [ exact sampled_unit_norm | vm_compute; reflexivity ].
Defined.

End Witnesses.
